(** * Dungeon rooms and the room database

    A shallow embedding of [SegmentedWall.cpp], [DungeonRoom.cpp] and
    [DungeonRoomDatabase.cpp], and the properties of their operations.

    - A [checkf] is a fallible step (checks enabled): a computation
      returns [Ok v], or [Err e] where [e] names the assertion that fired.
    - Static meshes are compared but never dereferenced, so a
      [UStaticMesh*] is the address it holds (0 is [nullptr]).
    - A wall owns an array of pointers to its segment components; a slot
      that was never assigned is [None] ([nullptr]). Each component is the
      child of one wall and sits in one slot, so the array holds the
      components themselves.
    - [TMap] is a [gmap]; [TArray] is a [list] indexed by an [int32].
    - Engine calls are modelled by what the code observes of them: a
      random draw by the number drawn, a tag by its parse, an asset by
      what the analyzers read from it. *)

From stdpp Require Import gmap strings list fin_maps.

Local Open Scope Z_scope.

(** ** Assertions *)

(** One constructor per [checkf]/[check] that the modelled code can trip. *)
Inductive Error : Set :=
  | MissingDoorMeshes      (* "Blueprint missing door meshes" *)
  | MissingWallMeshes      (* "Blueprint missing wall meshes" *)
  | InvalidLocation        (* "... an invalid location" *)
  | DoorAlreadyPresent     (* "... a location that already has a door" *)
  | NoDoorPresent          (* "... a location that did not have a door" *)
  | OutOfRange             (* "Attempted to get a wall segment that does not exist" *)
  | NullSegment            (* a null segment pointer is dereferenced *)
  | ArrayIndexOutOfBounds  (* TArray::operator[] range check *)
  | NotAStaticMesh         (* "SegmentedWall has a child that is not a static mesh" *)
  | MissingIndexTag        (* "A wall segment is missing its index tag" *)
  | InvalidIndexTag        (* "A wall segment has an invalid index tag" *)
  | EmptyCatalog           (* "No DungeonRoomAssets were found in the designated path" *)
  | InvalidSpecification   (* "Checked if a room asset exists with an invalid room size" *)
  | SpecificationNotFound  (* FindChecked on m_PathsByRoomSpecs *)
  | ThemeNotFound.         (* FindChecked on m_MaxWidthByTheme / m_MaxLengthByTheme *)

Inductive Result (A : Type) : Type :=
  | Ok (a : A)
  | Err (e : Error).

Arguments Ok {A} a.
Arguments Err {A} e.

Global Instance Result_ret : MRet Result := fun A a => Ok a.

Global Instance Result_bind : MBind Result := fun A B k c =>
  match c with
  | Ok a => k a
  | Err e => Err e
  end.

Definition checkf (Condition : bool) (e : Error) : Result unit :=
  if Condition then Ok tt else Err e.

(** ** TArray *)

Definition Num {A : Type} (Array : list A) : Z := Z.of_nat (length Array).

Definition IsValidIndex {A : Type} (Array : list A) (Index : Z) : bool :=
  (0 <=? Index) && (Index <? Num Array).

(** [Array[Index]], with the range check of [TArray::operator[]]. *)
Definition At {A : Type} (Array : list A) (Index : Z) : Result A :=
  if IsValidIndex Array Index then
    match Array !! Z.to_nat Index with
    | Some a => Ok a
    | None => Err ArrayIndexOutOfBounds
    end
  else Err ArrayIndexOutOfBounds.

(** ** FMath *)

(** [FMath::RandHelper(A)] is a value of [0, A-1] (0 when [A <= 0]) and
    [FMath::RandRange(Min, Max)] is [Min + RandHelper(Max - Min + 1)].
    The generator's state is outside the program: each call is given the
    number [Seed] it draws, reduced to the range. *)
Definition RandHelper (A : Z) (Seed : nat) : Z :=
  if 0 <? A then Z.of_nat Seed mod A else 0.

Definition RandRange (Min Max : Z) (Seed : nat) : Z :=
  Min + RandHelper (Max - Min + 1) Seed.

(** ** SegmentedWall *)

Definition UStaticMeshPtr : Set := N.

Record UStaticMeshComponent : Set := { StaticMesh : UStaticMeshPtr }.

Definition SetStaticMeshOf (NewMesh : UStaticMeshPtr)
    (Component : UStaticMeshComponent) : UStaticMeshComponent :=
  {| StaticMesh := NewMesh |}.

(** A component tag, by what [FString::IsNumeric] and [FCString::Atoi]
    make of its text. *)
Record FTag : Set := { IsNumeric : bool; Atoi : Z }.

(** An attached child of a wall: its tags, and the result of
    [Cast<UStaticMeshComponent>] ([None] when the cast yields [nullptr]). *)
Record USceneComponent : Set := {
  ComponentTags : list FTag;
  AsStaticMeshComponent : option UStaticMeshComponent
}.

Record USegmentedWall : Set := {
  m_SegmentMeshes : list (option UStaticMeshComponent)
}.

Definition IsValidSegmentIndex (Wall : USegmentedWall) (SegmentIndex : Z) : bool :=
  IsValidIndex (m_SegmentMeshes Wall) SegmentIndex.

Definition GetSegment (Wall : USegmentedWall) (SegmentIndex : Z)
    : Result (option UStaticMeshComponent) :=
  checkf (IsValidSegmentIndex Wall SegmentIndex) OutOfRange;;
  At (m_SegmentMeshes Wall) SegmentIndex.

Definition GetIndexOfSegment (Segment : USceneComponent) : Result Z :=
  checkf (0 <? Num (ComponentTags Segment)) MissingIndexTag;;
  TagValue ← At (ComponentTags Segment) 0;
  checkf (IsNumeric TagValue) InvalidIndexTag;;
  Ok (Atoi TagValue).

(** The loop of [InitializeSegmentMeshes], on the array built so far. *)
Fixpoint AssignSegments (WallSegments : list USceneComponent)
    (SegmentMeshes : list (option UStaticMeshComponent))
    : Result (list (option UStaticMeshComponent)) :=
  match WallSegments with
  | [] => Ok SegmentMeshes
  | WallSegment :: Rest =>
      MeshComponent ←
        match AsStaticMeshComponent WallSegment with
        | Some Component => Ok Component
        | None => Err NotAStaticMesh
        end;
      SegmentIndex ← GetIndexOfSegment WallSegment;
      checkf (IsValidIndex SegmentMeshes SegmentIndex) ArrayIndexOutOfBounds;;
      AssignSegments Rest
        (<[Z.to_nat SegmentIndex := Some MeshComponent]> SegmentMeshes)
  end.

Definition InitializeSegmentMeshes (WallSegments : list USceneComponent)
    : Result USegmentedWall :=
  SegmentMeshes ← AssignSegments WallSegments
                    (replicate (length WallSegments) None);
  Ok {| m_SegmentMeshes := SegmentMeshes |}.

Record UWorld : Set := { IsGameWorld : bool }.

(** [Wall] is the component as constructed; [AttachChildren] are the
    children the template attaches to it. *)
Definition InitializeComponent (World : option UWorld)
    (AttachChildren : list USceneComponent) (Wall : USegmentedWall)
    : Result USegmentedWall :=
  match World with
  | Some W => if IsGameWorld W then InitializeSegmentMeshes AttachChildren
              else Ok Wall
  | None => Ok Wall
  end.

(** ** DungeonRoom *)

(** The enumerators that [GetWall] switches on. *)
Inductive EDirection : Set := North | South | East | West.

Global Instance EDirection_eq_dec : EqDecision EDirection.
Proof. solve_decision. Defined.

(** Modelled from the spec: [Dungeon/Enums/DungeonTheme.h] is not among
    the sources; a theme is a categorical tag, here the value of its
    enumerator. *)
Definition EDungeonTheme : Set := N.

(** Modelled from the spec: [Dungeon/SizeTypes/NumberOfTiles.h] is not
    among the sources; a number of tiles is an integer, built from and
    passed as an [int32], compared with [>] and value-initialised to 0. *)
Definition FNumberOfTiles : Set := Z.

Record FWallLocation : Set := {
  WallDirection : EDirection;
  SegmentIndex : FNumberOfTiles
}.

Global Instance FWallLocation_eq_dec : EqDecision FWallLocation.
Proof. solve_decision. Defined.

Record ADungeonRoom : Set := {
  m_DoorMeshes : list UStaticMeshPtr;
  m_WallMeshes : list UStaticMeshPtr;
  m_NorthWall : USegmentedWall;
  m_WestWall : USegmentedWall;
  m_EastWall : USegmentedWall;
  m_SouthWall : USegmentedWall;
  m_Theme : EDungeonTheme;
  m_Width : Z;
  m_Length : Z
}.

Definition CreateWall : USegmentedWall := {| m_SegmentMeshes := [] |}.

(** The constructor: four walls without segments; the properties are
    zero until the template's values are loaded. *)
Definition ADungeonRoom_ctor : ADungeonRoom := {|
  m_DoorMeshes := [];
  m_WallMeshes := [];
  m_NorthWall := CreateWall;
  m_WestWall := CreateWall;
  m_EastWall := CreateWall;
  m_SouthWall := CreateWall;
  m_Theme := 0%N;
  m_Width := 0;
  m_Length := 0
|}.

(** The [default] branch of the switch needs a value outside the enum. *)
Definition GetWall (Room : ADungeonRoom) (Direction : EDirection) : USegmentedWall :=
  match Direction with
  | North => m_NorthWall Room
  | South => m_SouthWall Room
  | East => m_EastWall Room
  | West => m_WestWall Room
  end.

(** The room after the wall of [Direction] was changed in place. *)
Definition WithWall (Room : ADungeonRoom) (Direction : EDirection)
    (Wall : USegmentedWall) : ADungeonRoom := {|
  m_DoorMeshes := m_DoorMeshes Room;
  m_WallMeshes := m_WallMeshes Room;
  m_NorthWall := if decide (Direction = North) then Wall else m_NorthWall Room;
  m_WestWall := if decide (Direction = West) then Wall else m_WestWall Room;
  m_EastWall := if decide (Direction = East) then Wall else m_EastWall Room;
  m_SouthWall := if decide (Direction = South) then Wall else m_SouthWall Room;
  m_Theme := m_Theme Room;
  m_Width := m_Width Room;
  m_Length := m_Length Room
|}.

(** [GetSegment(Index)->SetStaticMesh(NewMesh)] on a wall. *)
Definition SetSegmentStaticMesh (Wall : USegmentedWall) (Index : Z)
    (NewMesh : UStaticMeshPtr) : Result USegmentedWall :=
  Segment ← GetSegment Wall Index;
  match Segment with
  | Some Component =>
      Ok {| m_SegmentMeshes :=
              <[Z.to_nat Index := Some (SetStaticMeshOf NewMesh Component)]>
                (m_SegmentMeshes Wall) |}
  | None => Err NullSegment
  end.

Definition SetStaticMesh (Location : FWallLocation) (NewMesh : UStaticMeshPtr)
    (Room : ADungeonRoom) : Result ADungeonRoom :=
  let WallBeingUpdated := GetWall Room (WallDirection Location) in
  Wall ← SetSegmentStaticMesh WallBeingUpdated (SegmentIndex Location) NewMesh;
  Ok (WithWall Room (WallDirection Location) Wall).

Definition IsValidWallLocation (Room : ADungeonRoom) (Location : FWallLocation) : bool :=
  let Wall := GetWall Room (WallDirection Location) in
  IsValidSegmentIndex Wall (SegmentIndex Location).

Definition GetRandomMesh (Meshes : list UStaticMeshPtr) (Seed : nat)
    : Result UStaticMeshPtr :=
  At Meshes (RandRange 0 (Num Meshes - 1) Seed).

(** [TArray::Contains]. *)
Fixpoint Contains (Meshes : list UStaticMeshPtr) (Mesh : UStaticMeshPtr) : bool :=
  match Meshes with
  | [] => false
  | M :: Rest => if decide (M = Mesh) then true else Contains Rest Mesh
  end.

Definition HasDoorAtLocation (Room : ADungeonRoom) (Location : FWallLocation)
    : Result bool :=
  checkf (IsValidWallLocation Room Location) InvalidLocation;;
  Segment ← GetSegment (GetWall Room (WallDirection Location)) (SegmentIndex Location);
  match Segment with
  | Some Component => Ok (Contains (m_DoorMeshes Room) (StaticMesh Component))
  | None => Err NullSegment
  end.

Definition AddDoor (Seed : nat) (Location : FWallLocation) (Room : ADungeonRoom)
    : Result ADungeonRoom :=
  checkf (0 <? Num (m_DoorMeshes Room)) MissingDoorMeshes;;
  checkf (IsValidWallLocation Room Location) InvalidLocation;;
  HasDoor ← HasDoorAtLocation Room Location;
  checkf (negb HasDoor) DoorAlreadyPresent;;
  Mesh ← GetRandomMesh (m_DoorMeshes Room) Seed;
  SetStaticMesh Location Mesh Room.

Definition RemoveDoor (Seed : nat) (Location : FWallLocation) (Room : ADungeonRoom)
    : Result ADungeonRoom :=
  checkf (0 <? Num (m_WallMeshes Room)) MissingWallMeshes;;
  checkf (IsValidWallLocation Room Location) InvalidLocation;;
  HasDoor ← HasDoorAtLocation Room Location;
  checkf HasDoor NoDoorPresent;;
  Mesh ← GetRandomMesh (m_WallMeshes Room) Seed;
  SetStaticMesh Location Mesh Room.

Definition PostActorCreated (Room : ADungeonRoom) : Result unit :=
  checkf (0 <? Num (m_DoorMeshes Room)) MissingDoorMeshes;;
  checkf (0 <? Num (m_WallMeshes Room)) MissingWallMeshes.

(** *** Spawning *)

(** The class a loaded template resolves to
    ([FBaseBlueprintAssetAnalyzer::GetSpawnableClass]): the property
    values it sets on a room and the children it attaches to each wall. *)
Record UClass : Set := {
  Class_DoorMeshes : list UStaticMeshPtr;
  Class_WallMeshes : list UStaticMeshPtr;
  Class_NorthWall : list USceneComponent;
  Class_WestWall : list USceneComponent;
  Class_EastWall : list USceneComponent;
  Class_SouthWall : list USceneComponent;
  Class_Theme : EDungeonTheme;
  Class_Width : Z;
  Class_Length : Z
}.

(** [UWorld::SpawnActor<ADungeonRoom>] is engine code. It is modelled in
    a world that accepts the spawn (the actor is returned, not [nullptr]):
    the constructor runs, the template's property values are loaded,
    [PostActorCreated] is called and each wall component is initialised
    with the children the template attaches to it. Placement in the scene
    ([RoomLocation]) is not part of the room's state here. *)
Definition SpawnActor (World : UWorld) (Class : UClass) : Result ADungeonRoom :=
  let Constructed := ADungeonRoom_ctor in
  let Loaded := {|
    m_DoorMeshes := Class_DoorMeshes Class;
    m_WallMeshes := Class_WallMeshes Class;
    m_NorthWall := m_NorthWall Constructed;
    m_WestWall := m_WestWall Constructed;
    m_EastWall := m_EastWall Constructed;
    m_SouthWall := m_SouthWall Constructed;
    m_Theme := Class_Theme Class;
    m_Width := Class_Width Class;
    m_Length := Class_Length Class
  |} in
  PostActorCreated Loaded;;
  NorthWall ← InitializeComponent (Some World) (Class_NorthWall Class) (m_NorthWall Loaded);
  SouthWall ← InitializeComponent (Some World) (Class_SouthWall Class) (m_SouthWall Loaded);
  WestWall ← InitializeComponent (Some World) (Class_WestWall Class) (m_WestWall Loaded);
  EastWall ← InitializeComponent (Some World) (Class_EastWall Class) (m_EastWall Loaded);
  Ok {|
    m_DoorMeshes := m_DoorMeshes Loaded;
    m_WallMeshes := m_WallMeshes Loaded;
    m_NorthWall := NorthWall;
    m_WestWall := WestWall;
    m_EastWall := EastWall;
    m_SouthWall := SouthWall;
    m_Theme := m_Theme Loaded;
    m_Width := m_Width Loaded;
    m_Length := m_Length Loaded
  |}.

Record FSpawnInfo : Set := {
  LoadedAsset : UClass;
  DoorLocations : list FWallLocation
}.

(** The loop of [Spawn]; the [n]-th call of [AddDoor] draws [Seeds n]. *)
Fixpoint AddDoors (Seeds : nat -> nat) (n : nat) (Locations : list FWallLocation)
    (SpawnedRoom : ADungeonRoom) : Result ADungeonRoom :=
  match Locations with
  | [] => Ok SpawnedRoom
  | Location :: Rest =>
      Room ← AddDoor (Seeds n) Location SpawnedRoom;
      AddDoors Seeds (S n) Rest Room
  end.

Definition Spawn (Seeds : nat -> nat) (SpawnInfo : FSpawnInfo) (World : UWorld)
    : Result ADungeonRoom :=
  let SpawnableClass := LoadedAsset SpawnInfo in
  SpawnedRoom ← SpawnActor World SpawnableClass;
  AddDoors Seeds 0%nat (DoorLocations SpawnInfo) SpawnedRoom.

(** ** DungeonRoomDatabase *)

Definition FSoftObjectPath : Set := string.

Record FRoomDimensions : Set := { Width : FNumberOfTiles; Length : FNumberOfTiles }.

(** Modelled from the spec: [Dungeon/Structs/DungeonRoomSpecs.h] is not
    among the sources; two specifications are equal iff theme, width and
    length are equal, and hashing agrees with that equality. *)
Record FDungeonRoomSpecs : Set := {
  Theme : EDungeonTheme;
  Dimensions : FRoomDimensions
}.

Global Instance FRoomDimensions_eq_dec : EqDecision FRoomDimensions.
Proof. solve_decision. Defined.

Global Instance FDungeonRoomSpecs_eq_dec : EqDecision FDungeonRoomSpecs.
Proof. solve_decision. Defined.

Global Instance FDungeonRoomSpecs_countable : Countable FDungeonRoomSpecs.
Proof.
  refine (inj_countable'
    (fun s => (Theme s, Width (Dimensions s), Length (Dimensions s)))
    (fun t => {| Theme := t.1.1;
                 Dimensions := {| Width := t.1.2; Length := t.2 |} |}) _).
  by intros [? []].
Defined.

(** An asset of the registry, by what [FDungeonRoomAssetAnalyzer] reads
    from it. *)
Record FAssetData : Set := {
  GetSoftObjectPath : FSoftObjectPath;
  GetRoomSpecs : FDungeonRoomSpecs
}.

Record FDungeonRoomDatabase : Type := {
  m_PathsByRoomSpecs : gmap FDungeonRoomSpecs (list FSoftObjectPath);
  m_MaxWidthByTheme : gmap EDungeonTheme FNumberOfTiles;
  m_MaxLengthByTheme : gmap EDungeonTheme FNumberOfTiles
}.

(** [TMap::FindOrAdd]: the stored value, or a value-initialised one that
    is added under the key. The caller writes the value back. *)
Definition FindOrAdd `{Countable K} {V : Type} (Map : gmap K V) (Key : K)
    (Default : V) : V :=
  default Default (Map !! Key).

Definition EmptyDatabase : FDungeonRoomDatabase := {|
  m_PathsByRoomSpecs := ∅;
  m_MaxWidthByTheme := ∅;
  m_MaxLengthByTheme := ∅
|}.

Definition UpdateAssetPathsMap (Asset : FAssetData) (Db : FDungeonRoomDatabase)
    : FDungeonRoomDatabase :=
  let PathToAsset := GetSoftObjectPath Asset in
  let RoomSpecs := GetRoomSpecs Asset in
  let AssetPaths := FindOrAdd (m_PathsByRoomSpecs Db) RoomSpecs [] in
  {| m_PathsByRoomSpecs :=
       <[RoomSpecs := AssetPaths ++ [PathToAsset]]> (m_PathsByRoomSpecs Db);
     m_MaxWidthByTheme := m_MaxWidthByTheme Db;
     m_MaxLengthByTheme := m_MaxLengthByTheme Db |}.

Definition UpdateMaxWidthAndLengthMaps (Asset : FAssetData) (Db : FDungeonRoomDatabase)
    : FDungeonRoomDatabase :=
  let RoomSpecs := GetRoomSpecs Asset in
  let MaxWidth := FindOrAdd (m_MaxWidthByTheme Db) (Theme RoomSpecs) 0 in
  let MaxWidth' :=
    if Width (Dimensions RoomSpecs) >? MaxWidth
    then Width (Dimensions RoomSpecs) else MaxWidth in
  let MaxLength := FindOrAdd (m_MaxLengthByTheme Db) (Theme RoomSpecs) 0 in
  let MaxLength' :=
    if Length (Dimensions RoomSpecs) >? MaxLength
    then Length (Dimensions RoomSpecs) else MaxLength in
  {| m_PathsByRoomSpecs := m_PathsByRoomSpecs Db;
     m_MaxWidthByTheme := <[Theme RoomSpecs := MaxWidth']> (m_MaxWidthByTheme Db);
     m_MaxLengthByTheme := <[Theme RoomSpecs := MaxLength']> (m_MaxLengthByTheme Db) |}.

Definition AddAssetToDatabase (Db : FDungeonRoomDatabase) (Asset : FAssetData)
    : FDungeonRoomDatabase :=
  UpdateMaxWidthAndLengthMaps Asset (UpdateAssetPathsMap Asset Db).

(** [RoomAssets] is what [FAssetSearcher::FindDerivedBlueprintAssetsInPath]
    found under the path. *)
Definition InitializeDatabase (RoomAssets : list FAssetData)
    : Result FDungeonRoomDatabase :=
  checkf (0 <? Num RoomAssets) EmptyCatalog;;
  Ok (foldl AddAssetToDatabase EmptyDatabase RoomAssets).

Definition FindChecked `{Countable K} {V : Type} (Map : gmap K V) (Key : K)
    (e : Error) : Result V :=
  match Map !! Key with
  | Some Value => Ok Value
  | None => Err e
  end.

Definition GetAssetPaths (Db : FDungeonRoomDatabase) (RoomSpecs : FDungeonRoomSpecs)
    : Result (list FSoftObjectPath) :=
  FindChecked (m_PathsByRoomSpecs Db) RoomSpecs SpecificationNotFound.

Definition GetMaxWidth (Db : FDungeonRoomDatabase) (Theme : EDungeonTheme)
    : Result FNumberOfTiles :=
  FindChecked (m_MaxWidthByTheme Db) Theme ThemeNotFound.

Definition GetMaxLength (Db : FDungeonRoomDatabase) (Theme : EDungeonTheme)
    : Result FNumberOfTiles :=
  FindChecked (m_MaxLengthByTheme Db) Theme ThemeNotFound.

Definition DoesAssetExistWithSpecs (Db : FDungeonRoomDatabase) (Specs : FDungeonRoomSpecs)
    : Result bool :=
  checkf ((Width (Dimensions Specs) >? 0) && (Length (Dimensions Specs) >? 0))
    InvalidSpecification;;
  Ok (bool_decide (is_Some (m_PathsByRoomSpecs Db !! Specs))).

(** ** Dungeon *)

(** Rooms and scene components are objects of the world: a pointer to
    one is its address (0 is [nullptr]). *)
Definition ADungeonRoomPtr : Set := N.
Definition USceneComponentPtr : Set := N.

Record ADungeon : Set := {
  m_RootComponent : USceneComponentPtr;
  m_RoomsArray : list ADungeonRoomPtr
}.

(** A call of [AActor::AttachToComponent], as the scene receives it; the
    rules are [KeepWorldTransform] in every call. *)
Record FAttachment : Set := {
  AttachedActor : ADungeonRoomPtr;
  AttachParent : USceneComponentPtr
}.

(** The constructor; [Root] is the component that
    [CreateDefaultSubobject] returns. *)
Definition ADungeon_ctor (Root : USceneComponentPtr) : ADungeon :=
  {| m_RootComponent := Root; m_RoomsArray := [] |}.

(** [Scene] is the attachments made so far. [None]: [Room] is [nullptr]
    and is dereferenced. *)
Definition AddRoom (Room : ADungeonRoomPtr) (Dungeon : ADungeon)
    (Scene : list FAttachment) : option (ADungeon * list FAttachment) :=
  let Dungeon' := {| m_RootComponent := m_RootComponent Dungeon;
                     m_RoomsArray := m_RoomsArray Dungeon ++ [Room] |} in
  if decide (Room = 0%N) then None
  else Some (Dungeon',
             Scene ++ [{| AttachedActor := Room;
                          AttachParent := m_RootComponent Dungeon' |}]).

(** ** DungeonRoomTest *)

Definition PathToAssets : string := "/Game/Test/Dungeon/Rooms/DungeonRoom/".

(** The checks a test has made: what was checked, and whether it passed. *)
Definition FAutomationTestBase : Set := list (string * bool).

Definition TestTrue (What : string) (Value : bool) (This : FAutomationTestBase)
    : bool * FAutomationTestBase :=
  (Value, This ++ [(What, Value)]).

(** The function-local [static const] objects of
    [CanAddDoorsToWallOfRoom]: initialised by the first call that reaches
    their declarations, and kept for every later call. *)
Record FCanAddDoorsStatics : Set := {
  CanAdd_CookedAssetName : string;
  CanAdd_RoomAssetPath : string;
  LocationToAddDoor0 : FWallLocation;
  LocationToAddDoor1 : FWallLocation
}.

(** [SpawnBlueprintAsset] is [ApplicationTestUtilities::SpawnBlueprintAsset]
    followed by [Cast<ADungeonRoom>]: the room spawned for a path, [None]
    when the pointer is null. [Statics] is [None] until the first call. *)
Definition CanAddDoorsToWallOfRoom (SpawnBlueprintAsset : string -> option ADungeonRoom)
    (Seed0 Seed1 : nat) (WallToCheck : EDirection)
    (Statics : option FCanAddDoorsStatics)
    : Result (bool * option FCanAddDoorsStatics) :=
  let Initialised :=
    match Statics with
    | Some Kept => Kept
    | None =>
        let CookedAssetName :=
          "CanAddDoorsToWallOfRoomAsset.CanAddDoorsToWallOfRoomAsset_C" in
        {| CanAdd_CookedAssetName := CookedAssetName;
           CanAdd_RoomAssetPath := PathToAssets +:+ CookedAssetName;
           LocationToAddDoor0 := {| WallDirection := WallToCheck; SegmentIndex := 0 |};
           LocationToAddDoor1 := {| WallDirection := WallToCheck; SegmentIndex := 1 |} |}
    end in
  match SpawnBlueprintAsset (CanAdd_RoomAssetPath Initialised) with
  | Some SpawnedRoom =>
      Room1 ← AddDoor Seed0 (LocationToAddDoor0 Initialised) SpawnedRoom;
      Room2 ← AddDoor Seed1 (LocationToAddDoor1 Initialised) Room1;
      HasDoor0 ← HasDoorAtLocation Room2 (LocationToAddDoor0 Initialised);
      HasDoors ← (if HasDoor0 : bool
                  then HasDoorAtLocation Room2 (LocationToAddDoor1 Initialised)
                  else Ok false);
      Ok (HasDoors, Some Initialised)
  | None => Ok (false, Some Initialised)
  end.

(** The [n]-th call of [AddDoor] in the test draws [Seeds n]. *)
Definition TestAddingDoorsToRoom (SpawnBlueprintAsset : string -> option ADungeonRoom)
    (Seeds : nat -> nat) (This : FAutomationTestBase)
    (Statics : option FCanAddDoorsStatics)
    : Result (FAutomationTestBase * option FCanAddDoorsStatics) :=
  '(CanAddNorth, Statics) ←
    CanAddDoorsToWallOfRoom SpawnBlueprintAsset (Seeds 0%nat) (Seeds 1%nat) North Statics;
  let This :=
    (TestTrue "Must be able to add doors to the North wall of a room."
       CanAddNorth This).2 in
  '(CanAddSouth, Statics) ←
    CanAddDoorsToWallOfRoom SpawnBlueprintAsset (Seeds 2%nat) (Seeds 3%nat) South Statics;
  let This :=
    (TestTrue "Must be able to add doors to the South wall of a room."
       CanAddSouth This).2 in
  '(CanAddEast, Statics) ←
    CanAddDoorsToWallOfRoom SpawnBlueprintAsset (Seeds 4%nat) (Seeds 5%nat) East Statics;
  let This :=
    (TestTrue "Must be able to add doors to the East wall of room."
       CanAddEast This).2 in
  '(CanAddWest, Statics) ←
    CanAddDoorsToWallOfRoom SpawnBlueprintAsset (Seeds 6%nat) (Seeds 7%nat) West Statics;
  let This :=
    (TestTrue "Must be able to add doors to the West wall of room."
       CanAddWest This).2 in
  Ok (This, Statics).

(** The locations of this function are not static; its static strings
    are constants. [None]: the spawned pointer is null and is
    dereferenced. *)
Definition CanRemoveDoorsFromWallOfRoom
    (SpawnBlueprintAsset : string -> option ADungeonRoom)
    (Seed0 Seed1 : nat) (WallToCheck : EDirection) : option (Result bool) :=
  let CookedAssetName :=
    "CanRemoveDoorsFromWallOfRoomAsset.CanRemoveDoorsFromWallOfRoomAsset_C" in
  let RoomAssetPath := PathToAssets +:+ CookedAssetName in
  let DoorLocation0 := {| WallDirection := WallToCheck; SegmentIndex := 0 |} in
  let DoorLocation1 := {| WallDirection := WallToCheck; SegmentIndex := 1 |} in
  match SpawnBlueprintAsset RoomAssetPath with
  | Some SpawnedRoom =>
      Some (Room1 ← RemoveDoor Seed0 DoorLocation0 SpawnedRoom;
            Room2 ← RemoveDoor Seed1 DoorLocation1 Room1;
            HasDoor0 ← HasDoorAtLocation Room2 DoorLocation0;
            if HasDoor0 : bool then Ok false
            else HasDoor1 ← HasDoorAtLocation Room2 DoorLocation1;
                 Ok (negb HasDoor1))
  | None => None
  end.

Definition TestRemovingDoorsFromRoom
    (SpawnBlueprintAsset : string -> option ADungeonRoom)
    (Seeds : nat -> nat) (This : FAutomationTestBase)
    : option (Result FAutomationTestBase) :=
  Outcome ← CanRemoveDoorsFromWallOfRoom SpawnBlueprintAsset (Seeds 0%nat) (Seeds 1%nat) North;
  match Outcome with
  | Err e => Some (Err e)
  | Ok CanRemoveNorth =>
  let This :=
    (TestTrue "Must be able to remove doors from the North wall of a room."
       CanRemoveNorth This).2 in
  Outcome ← CanRemoveDoorsFromWallOfRoom SpawnBlueprintAsset (Seeds 2%nat) (Seeds 3%nat) South;
  match Outcome with
  | Err e => Some (Err e)
  | Ok CanRemoveSouth =>
  let This :=
    (TestTrue "Must be able to remove doors from the South wall of a room."
       CanRemoveSouth This).2 in
  Outcome ← CanRemoveDoorsFromWallOfRoom SpawnBlueprintAsset (Seeds 4%nat) (Seeds 5%nat) East;
  match Outcome with
  | Err e => Some (Err e)
  | Ok CanRemoveEast =>
  let This :=
    (TestTrue "Must be able to remove doors from the East wall of a room."
       CanRemoveEast This).2 in
  Outcome ← CanRemoveDoorsFromWallOfRoom SpawnBlueprintAsset (Seeds 6%nat) (Seeds 7%nat) West;
  match Outcome with
  | Err e => Some (Err e)
  | Ok CanRemoveWest =>
  let This :=
    (TestTrue "Must be able to remove doors from the West wall of a room."
       CanRemoveWest This).2 in
  Some (Ok This)
  end end end end.

(** * Vocabulary of the statements *)

(** ** Rooms *)

Global Instance Error_eq_dec : EqDecision Error.
Proof. solve_decision. Defined.

Global Instance Result_eq_dec `{EqDecision A} : EqDecision (Result A).
Proof. solve_decision. Defined.

(** The slot a location names, when the wall has one there. *)
Definition SlotAt (Room : ADungeonRoom) (Location : FWallLocation)
    : option (option UStaticMeshComponent) :=
  m_SegmentMeshes (GetWall Room (WallDirection Location))
    !! Z.to_nat (SegmentIndex Location).

(** The room after the segment at [Location] was given [NewMesh]. *)
Definition WithMeshAt (Room : ADungeonRoom) (Location : FWallLocation)
    (NewMesh : UStaticMeshPtr) : ADungeonRoom :=
  WithWall Room (WallDirection Location)
    {| m_SegmentMeshes :=
         <[Z.to_nat (SegmentIndex Location) := Some {| StaticMesh := NewMesh |}]>
           (m_SegmentMeshes (GetWall Room (WallDirection Location))) |}.

(** Every slot of every wall holds a segment. *)
Definition SegmentsPresent (Room : ADungeonRoom) : Prop :=
  forall (Direction : EDirection) (i : nat),
    m_SegmentMeshes (GetWall Room Direction) !! i <> Some None.

Definition At_North (i : Z) : FWallLocation := {| WallDirection := North; SegmentIndex := i |}.
Definition At_South (i : Z) : FWallLocation := {| WallDirection := South; SegmentIndex := i |}.
Definition At_East (i : Z) : FWallLocation := {| WallDirection := East; SegmentIndex := i |}.
Definition At_West (i : Z) : FWallLocation := {| WallDirection := West; SegmentIndex := i |}.

(** North and South have [W] segments, East and West have [L]. *)
Definition HasFootprint (Room : ADungeonRoom) (W L : Z) : Prop :=
  Num (m_SegmentMeshes (m_NorthWall Room)) = W /\
  Num (m_SegmentMeshes (m_SouthWall Room)) = W /\
  Num (m_SegmentMeshes (m_EastWall Room)) = L /\
  Num (m_SegmentMeshes (m_WestWall Room)) = L.

(** The number of segments of a wall in a room of footprint ([W], [L]). *)
Definition SegmentCount (W L : Z) (Direction : EDirection) : Z :=
  match Direction with
  | North | South => W
  | East | West => L
  end.

(** The valid locations of a room, wall by wall. *)
Definition LocationsOn (Room : ADungeonRoom) (D : EDirection) : list FWallLocation :=
  (fun i : nat => {| WallDirection := D; SegmentIndex := Z.of_nat i |})
    <$> seq 0 (length (m_SegmentMeshes (GetWall Room D))).

Definition WallLocations (Room : ADungeonRoom) : list FWallLocation :=
  LocationsOn Room North ++ LocationsOn Room South ++
  LocationsOn Room East ++ LocationsOn Room West.

(** ** Templates *)

(** The children of the wall of each direction. *)
Definition ClassSegments (Class : UClass) (D : EDirection) : list USceneComponent :=
  match D with
  | North => Class_NorthWall Class
  | South => Class_SouthWall Class
  | East => Class_EastWall Class
  | West => Class_WestWall Class
  end.

(** The index tags of the segments are 0 .. n-1, in some order. *)
Definition WellTagged (WallSegments : list USceneComponent) : Prop :=
  GetIndexOfSegment <$> WallSegments ≡ₚ
  (fun i : nat => Ok (Z.of_nat i)) <$> seq 0 (length WallSegments).

(** ** Example rooms and templates *)

Definition SM_Wall : UStaticMeshPtr := 1%N.
Definition SM_Door : UStaticMeshPtr := 2%N.
Definition SM_Arch : UStaticMeshPtr := 3%N.

Definition GameWorld : UWorld := {| IsGameWorld := true |}.

(** A wall of [n] segments showing [Mesh]. *)
Definition Segments (n : nat) (Mesh : UStaticMeshPtr) : USegmentedWall :=
  {| m_SegmentMeshes := replicate n (Some {| StaticMesh := Mesh |}) |}.

(** A room of the given palettes and footprint, every segment showing [Mesh]. *)
Definition UniformRoom (DoorMeshes WallMeshes : list UStaticMeshPtr)
    (W L : nat) (Mesh : UStaticMeshPtr) : ADungeonRoom := {|
  m_DoorMeshes := DoorMeshes;
  m_WallMeshes := WallMeshes;
  m_NorthWall := Segments W Mesh;
  m_WestWall := Segments L Mesh;
  m_EastWall := Segments L Mesh;
  m_SouthWall := Segments W Mesh;
  m_Theme := 0%N;
  m_Width := Z.of_nat W;
  m_Length := Z.of_nat L
|}.

(** A child tagged [Index] and authored with [Mesh]. *)
Definition TaggedSegment (Index : Z) (Mesh : UStaticMeshPtr) : USceneComponent := {|
  ComponentTags := [ {| IsNumeric := true; Atoi := Index |} ];
  AsStaticMeshComponent := Some {| StaticMesh := Mesh |}
|}.

Definition TaggedSegments (n : nat) (Mesh : UStaticMeshPtr) : list USceneComponent :=
  (fun i : nat => TaggedSegment (Z.of_nat i) Mesh) <$> seq 0 n.

(** A template of the given palettes and footprint, every segment
    authored with [Mesh]. *)
Definition UniformClass (DoorMeshes WallMeshes : list UStaticMeshPtr)
    (W L : nat) (Mesh : UStaticMeshPtr) : UClass := {|
  Class_DoorMeshes := DoorMeshes;
  Class_WallMeshes := WallMeshes;
  Class_NorthWall := TaggedSegments W Mesh;
  Class_WestWall := TaggedSegments L Mesh;
  Class_EastWall := TaggedSegments L Mesh;
  Class_SouthWall := TaggedSegments W Mesh;
  Class_Theme := 0%N;
  Class_Width := Z.of_nat W;
  Class_Length := Z.of_nat L
|}.

(** The asset of [TestDetectingDoor]: a door at index 1 of the North wall. *)
Definition TestDetectingDoorAsset : UClass := {|
  Class_DoorMeshes := [SM_Door];
  Class_WallMeshes := [SM_Wall];
  Class_NorthWall := [TaggedSegment 0 SM_Wall; TaggedSegment 1 SM_Door];
  Class_WestWall := TaggedSegments 2 SM_Wall;
  Class_EastWall := TaggedSegments 2 SM_Wall;
  Class_SouthWall := TaggedSegments 2 SM_Wall;
  Class_Theme := 0%N;
  Class_Width := 2;
  Class_Length := 2
|}.

(** A template whose two North segments are both tagged 0: slot 1 of the
    North wall is never assigned. *)
Definition MistaggedAsset : UClass := {|
  Class_DoorMeshes := [SM_Door];
  Class_WallMeshes := [SM_Wall];
  Class_NorthWall := [TaggedSegment 0 SM_Wall; TaggedSegment 0 SM_Wall];
  Class_WestWall := TaggedSegments 2 SM_Wall;
  Class_EastWall := TaggedSegments 2 SM_Wall;
  Class_SouthWall := TaggedSegments 2 SM_Wall;
  Class_Theme := 0%N;
  Class_Width := 2;
  Class_Length := 2
|}.

(** A 4x3 template with a door authored at index 1 of the North wall. *)
Definition DoorAtNorth1Asset : UClass := {|
  Class_DoorMeshes := [SM_Door];
  Class_WallMeshes := [SM_Wall];
  Class_NorthWall := [TaggedSegment 0 SM_Wall; TaggedSegment 1 SM_Door;
                      TaggedSegment 2 SM_Wall; TaggedSegment 3 SM_Wall];
  Class_WestWall := TaggedSegments 3 SM_Wall;
  Class_EastWall := TaggedSegments 3 SM_Wall;
  Class_SouthWall := TaggedSegments 4 SM_Wall;
  Class_Theme := 0%N;
  Class_Width := 4;
  Class_Length := 3
|}.

(** The request of [TestIfSpawnMethodAddsDoors], on a 4x4 room without doors. *)
Definition TestSpawnInfo : FSpawnInfo := {|
  LoadedAsset := UniformClass [SM_Door; SM_Arch] [SM_Wall] 4 4 SM_Wall;
  DoorLocations := [At_North 0; At_South 1; At_East 2; At_West 3]
|}.

(** The doors of the 4x3 scenario. *)
Definition ScenarioDoors : list FWallLocation :=
  [At_North 0; At_South 2; At_East 1; At_West 0].

(** ** Catalogs *)

(** The assets of a theme, and the assets of a specification, in the
    order of the scan. *)
Definition WithTheme (T : EDungeonTheme) (RoomAssets : list FAssetData)
    : list FAssetData :=
  filter (fun A => Theme (GetRoomSpecs A) = T) RoomAssets.

Definition WithSpecs (Specs : FDungeonRoomSpecs) (RoomAssets : list FAssetData)
    : list FAssetData :=
  filter (fun A => GetRoomSpecs A = Specs) RoomAssets.

Definition WidthOf (A : FAssetData) : Z := Width (Dimensions (GetRoomSpecs A)).
Definition LengthOf (A : FAssetData) : Z := Length (Dimensions (GetRoomSpecs A)).


(** What a key maps to after [Paths] were appended under it. *)
Definition Appended (Stored : option (list FSoftObjectPath))
    (Paths : list FSoftObjectPath) : option (list FSoftObjectPath) :=
  match Paths with
  | [] => Stored
  | _ => Some (default [] Stored ++ Paths)
  end.

(** What a theme maps to after the running maximum saw [Sizes]. *)
Definition RunningMax (Stored : option Z) (Sizes : list Z) : option Z :=
  match Sizes with
  | [] => Stored
  | _ => Some (foldl Z.max (default 0 Stored) Sizes)
  end.

Definition Crypt : EDungeonTheme := 0%N.
Definition Hall : EDungeonTheme := 1%N.

Definition Specs (T : EDungeonTheme) (W L : Z) : FDungeonRoomSpecs :=
  {| Theme := T; Dimensions := {| Width := W; Length := L |} |}.

Definition Asset (T : EDungeonTheme) (W L : Z) (Path : FSoftObjectPath) : FAssetData :=
  {| GetSoftObjectPath := Path; GetRoomSpecs := Specs T W L |}.

Definition ExampleCatalog : list FAssetData :=
  [Asset Crypt 4 4 "a"; Asset Crypt 6 4 "b"; Asset Hall 4 4 "c"].

(** The widest crypt is not the longest one. *)
Definition MixedCatalog : list FAssetData :=
  [Asset Crypt 6 2 "wide"; Asset Hall 4 4 "hall"; Asset Crypt 3 5 "long";
   Asset Crypt 6 2 "wide2"].


(** ** Wall initialisation *)

(** What the loop of [InitializeSegmentMeshes] checks on one child when
    the array has [Count] slots, and, when all checks pass, the slot it
    assigns and the component it puts there. *)
Definition CheckSegment (Count : nat) (WallSegment : USceneComponent)
    : Result (nat * UStaticMeshComponent) :=
  MeshComponent ←
    match AsStaticMeshComponent WallSegment with
    | Some Component => Ok Component
    | None => Err NotAStaticMesh
    end;
  SegmentIndex ← GetIndexOfSegment WallSegment;
  checkf ((0 <=? SegmentIndex) && (SegmentIndex <? Z.of_nat Count))
    ArrayIndexOutOfBounds;;
  Ok (Z.to_nat SegmentIndex, MeshComponent).

(** A child that is a static mesh component, has a tag, and whose first
    tag is numeric and reads as an index of an array of [Count] slots. *)
Definition IndexedSegment (Count : nat) (WallSegment : USceneComponent) : Prop :=
  exists Component Tag Others,
    AsStaticMeshComponent WallSegment = Some Component /\
    ComponentTags WallSegment = Tag :: Others /\
    IsNumeric Tag = true /\
    0 <= Atoi Tag < Z.of_nat Count.

(** The component of the last child whose index tag is [i]. *)
Fixpoint LastTagged (WallSegments : list USceneComponent) (i : nat)
    : option UStaticMeshComponent :=
  match WallSegments with
  | [] => None
  | WallSegment :: Rest =>
      match LastTagged Rest i with
      | Some Component => Some Component
      | None =>
          if decide (GetIndexOfSegment WallSegment = Ok (Z.of_nat i))
          then AsStaticMeshComponent WallSegment
          else None
      end
  end.

(** ** Doors of a room *)

(** The number of valid locations that have a door. *)
Definition DoorCount (Room : ADungeonRoom) : nat :=
  length (filter (fun L => HasDoorAtLocation Room L = Ok true) (WallLocations Room)).

(** No mesh is in both palettes. *)
Definition PalettesDisjoint (Room : ADungeonRoom) : Prop :=
  forall Mesh, Mesh ∈ m_WallMeshes Room -> Mesh ∉ m_DoorMeshes Room.

(** ** Dungeons *)

(** [AddRoom] called with each of [Rooms] in turn. *)
Fixpoint AddRooms (Rooms : list ADungeonRoomPtr) (Dungeon : ADungeon)
    (Scene : list FAttachment) : option (ADungeon * list FAttachment) :=
  match Rooms with
  | [] => Some (Dungeon, Scene)
  | Room :: Rest =>
      '(Dungeon', Scene') ← AddRoom Room Dungeon Scene;
      AddRooms Rest Dungeon' Scene'
  end.

(** * Properties *)

(** ** Arrays and the error monad *)

Lemma IsValidIndex_true {A : Type} (Array : list A) (Index : Z) :
  IsValidIndex Array Index = true <-> 0 <= Index < Num Array.
Proof. unfold IsValidIndex. rewrite andb_true_iff. lia. Qed.

Lemma IsValidIndex_false {A : Type} (Array : list A) (Index : Z) :
  IsValidIndex Array Index = false <-> Index < 0 \/ Num Array <= Index.
Proof. unfold IsValidIndex. rewrite andb_false_iff. lia. Qed.

Lemma IsValidIndex_insert {A : Type} (Array : list A) (i : nat) (a : A) (Index : Z) :
  IsValidIndex (<[i := a]> Array) Index = IsValidIndex Array Index.
Proof. unfold IsValidIndex, Num. by rewrite length_insert. Qed.

Lemma At_unfold {A : Type} (Array : list A) (Index : Z) :
  IsValidIndex Array Index = true ->
  exists a, Array !! Z.to_nat Index = Some a /\ At Array Index = Ok a.
Proof.
  intros Hv. unfold At. rewrite Hv.
  apply IsValidIndex_true in Hv. unfold Num in Hv.
  destruct (lookup_lt_is_Some_2 Array (Z.to_nat Index)) as [a Ha]; [lia|].
  exists a. by rewrite Ha.
Qed.

Lemma Contains_elem_of (Meshes : list UStaticMeshPtr) (Mesh : UStaticMeshPtr) :
  Contains Meshes Mesh = true <-> Mesh ∈ Meshes.
Proof.
  induction Meshes as [|M Rest IH]; simpl.
  - split; [done | by intros ?%elem_of_nil].
  - rewrite elem_of_cons. destruct (decide (M = Mesh)) as [->|Hne].
    + split; auto.
    + rewrite IH. split; [by right | by intros [?|?]].
Qed.

Lemma Contains_false (Meshes : list UStaticMeshPtr) (Mesh : UStaticMeshPtr) :
  Contains Meshes Mesh = false <-> Mesh ∉ Meshes.
Proof. rewrite <- Contains_elem_of. by destruct (Contains Meshes Mesh). Qed.

Lemma Num_pos {A : Type} (Array : list A) : (0 <? Num Array) = true <-> Array <> [].
Proof.
  rewrite Z.ltb_lt. unfold Num. destruct Array; simpl; split; (done || lia).
Qed.

Lemma Num_not_pos {A : Type} (Array : list A) : (0 <? Num Array) = false <-> Array = [].
Proof.
  rewrite Z.ltb_ge. unfold Num. destruct Array; simpl; split; (done || lia).
Qed.

Lemma RandRange_bounds (Min Max : Z) (Seed : nat) :
  Min <= Max -> Min <= RandRange Min Max Seed <= Max.
Proof.
  intros Hle. unfold RandRange, RandHelper.
  destruct (0 <? Max - Min + 1) eqn:Hpos; [|apply Z.ltb_ge in Hpos; lia].
  pose proof (Z.mod_pos_bound (Z.of_nat Seed) (Max - Min + 1)). lia.
Qed.

Lemma GetRandomMesh_Ok (Meshes : list UStaticMeshPtr) (Seed : nat) :
  Meshes <> [] ->
  exists Mesh, GetRandomMesh Meshes Seed = Ok Mesh /\ Mesh ∈ Meshes.
Proof.
  intros Hne. unfold GetRandomMesh.
  assert (Hn : 0 < Num Meshes) by (apply Z.ltb_lt, Num_pos, Hne).
  pose proof (RandRange_bounds 0 (Num Meshes - 1) Seed ltac:(lia)) as Hb.
  destruct (At_unfold Meshes (RandRange 0 (Num Meshes - 1) Seed)) as (m & Hm & ->).
  { apply IsValidIndex_true. lia. }
  exists m. split; [done|]. by eapply list_elem_of_lookup_2.
Qed.

(** ** Rooms: the equations of the operations *)

Lemma SlotAt_valid (Room : ADungeonRoom) (Location : FWallLocation) :
  IsValidWallLocation Room Location = true -> is_Some (SlotAt Room Location).
Proof.
  intros Hv. destruct (At_unfold _ _ Hv) as (s & Hs & _). by exists s.
Qed.

Lemma GetSegment_unfold (Wall : USegmentedWall) (Index : Z) :
  GetSegment Wall Index =
    if IsValidSegmentIndex Wall Index then
      match m_SegmentMeshes Wall !! Z.to_nat Index with
      | Some Segment => Ok Segment
      | None => Err ArrayIndexOutOfBounds
      end
    else Err OutOfRange.
Proof.
  unfold GetSegment, IsValidSegmentIndex, At.
  by destruct (IsValidIndex (m_SegmentMeshes Wall) Index).
Qed.

Lemma HasDoorAtLocation_unfold (Room : ADungeonRoom) (Location : FWallLocation) :
  HasDoorAtLocation Room Location =
    if IsValidWallLocation Room Location then
      match SlotAt Room Location with
      | Some (Some Component) =>
          Ok (Contains (m_DoorMeshes Room) (StaticMesh Component))
      | Some None => Err NullSegment
      | None => Err ArrayIndexOutOfBounds
      end
    else Err InvalidLocation.
Proof.
  unfold HasDoorAtLocation, SlotAt. rewrite GetSegment_unfold.
  unfold IsValidWallLocation.
  destruct (IsValidSegmentIndex _ _); [|done]. simpl.
  by destruct (m_SegmentMeshes _ !! _) as [[?|]|].
Qed.

Lemma SetStaticMesh_unfold (Location : FWallLocation) (NewMesh : UStaticMeshPtr)
    (Room : ADungeonRoom) :
  SetStaticMesh Location NewMesh Room =
    if IsValidWallLocation Room Location then
      match SlotAt Room Location with
      | Some (Some _) => Ok (WithMeshAt Room Location NewMesh)
      | Some None => Err NullSegment
      | None => Err ArrayIndexOutOfBounds
      end
    else Err OutOfRange.
Proof.
  unfold SetStaticMesh, SetSegmentStaticMesh, SlotAt, WithMeshAt.
  rewrite GetSegment_unfold. unfold IsValidWallLocation.
  destruct (IsValidSegmentIndex _ _); [|done]. simpl.
  by destruct (m_SegmentMeshes _ !! _) as [[?|]|].
Qed.

Lemma GetWall_WithWall (Room : ADungeonRoom) (D D' : EDirection) (Wall : USegmentedWall) :
  GetWall (WithWall Room D Wall) D' = if decide (D = D') then Wall else GetWall Room D'.
Proof. by destruct D, D'. Qed.

Lemma IsValidWallLocation_WithMeshAt (Room : ADungeonRoom) (L L2 : FWallLocation)
    (Mesh : UStaticMeshPtr) :
  IsValidWallLocation (WithMeshAt Room L Mesh) L2 = IsValidWallLocation Room L2.
Proof.
  unfold IsValidWallLocation, WithMeshAt, IsValidSegmentIndex.
  rewrite GetWall_WithWall. destruct (decide _) as [->|]; [|done].
  simpl. apply IsValidIndex_insert.
Qed.

Lemma SlotAt_WithMeshAt_eq (Room : ADungeonRoom) (L : FWallLocation) (Mesh : UStaticMeshPtr) :
  IsValidWallLocation Room L = true ->
  SlotAt (WithMeshAt Room L Mesh) L = Some (Some {| StaticMesh := Mesh |}).
Proof.
  intros Hv. unfold SlotAt, WithMeshAt. rewrite GetWall_WithWall, decide_True by done.
  simpl. apply list_lookup_insert_eq.
  apply IsValidIndex_true in Hv. unfold Num in Hv. lia.
Qed.

Lemma SlotAt_WithMeshAt_ne (Room : ADungeonRoom) (L L2 : FWallLocation) (Mesh : UStaticMeshPtr) :
  L <> L2 -> IsValidWallLocation Room L = true -> IsValidWallLocation Room L2 = true ->
  SlotAt (WithMeshAt Room L Mesh) L2 = SlotAt Room L2.
Proof.
  intros Hne Hv Hv2. unfold SlotAt, WithMeshAt. rewrite GetWall_WithWall.
  destruct (decide _) as [Hd|]; [|done]. simpl. rewrite Hd.
  apply list_lookup_insert_ne.
  apply IsValidIndex_true in Hv, Hv2.
  intros Heq. apply Hne. destruct L, L2; simpl in *. f_equal; [done | lia].
Qed.

Lemma HasDoorAtLocation_WithMeshAt_eq (Room : ADungeonRoom) (L : FWallLocation)
    (Mesh : UStaticMeshPtr) :
  IsValidWallLocation Room L = true ->
  HasDoorAtLocation (WithMeshAt Room L Mesh) L = Ok (Contains (m_DoorMeshes Room) Mesh).
Proof.
  intros Hv. rewrite HasDoorAtLocation_unfold, IsValidWallLocation_WithMeshAt, Hv.
  by rewrite SlotAt_WithMeshAt_eq.
Qed.

Lemma HasDoorAtLocation_WithMeshAt_ne (Room : ADungeonRoom) (L L2 : FWallLocation)
    (Mesh : UStaticMeshPtr) :
  L <> L2 -> IsValidWallLocation Room L = true ->
  HasDoorAtLocation (WithMeshAt Room L Mesh) L2 = HasDoorAtLocation Room L2.
Proof.
  intros Hne Hv. rewrite !HasDoorAtLocation_unfold, IsValidWallLocation_WithMeshAt.
  destruct (IsValidWallLocation Room L2) eqn:Hv2; [|done].
  by rewrite SlotAt_WithMeshAt_ne.
Qed.

Lemma HasDoorAtLocation_Ok_inv (Room : ADungeonRoom) (L : FWallLocation) (b : bool) :
  HasDoorAtLocation Room L = Ok b ->
  IsValidWallLocation Room L = true /\
  exists Component, SlotAt Room L = Some (Some Component) /\
                    b = Contains (m_DoorMeshes Room) (StaticMesh Component).
Proof.
  rewrite HasDoorAtLocation_unfold.
  destruct (IsValidWallLocation Room L); [|done].
  destruct (SlotAt Room L) as [[c|]|]; try done.
  intros [= <-]. eauto.
Qed.

Lemma AddDoor_unfold (Seed : nat) (L : FWallLocation) (Room : ADungeonRoom) :
  AddDoor Seed L Room =
    if 0 <? Num (m_DoorMeshes Room) then
      if IsValidWallLocation Room L then
        match HasDoorAtLocation Room L with
        | Ok true => Err DoorAlreadyPresent
        | Ok false =>
            Mesh ← GetRandomMesh (m_DoorMeshes Room) Seed;
            SetStaticMesh L Mesh Room
        | Err e => Err e
        end
      else Err InvalidLocation
    else Err MissingDoorMeshes.
Proof.
  unfold AddDoor. destruct (0 <? _); [|done]. simpl.
  destruct (IsValidWallLocation Room L); [|done]. simpl.
  by destruct (HasDoorAtLocation Room L) as [[]|].
Qed.

Lemma RemoveDoor_unfold (Seed : nat) (L : FWallLocation) (Room : ADungeonRoom) :
  RemoveDoor Seed L Room =
    if 0 <? Num (m_WallMeshes Room) then
      if IsValidWallLocation Room L then
        match HasDoorAtLocation Room L with
        | Ok true =>
            Mesh ← GetRandomMesh (m_WallMeshes Room) Seed;
            SetStaticMesh L Mesh Room
        | Ok false => Err NoDoorPresent
        | Err e => Err e
        end
      else Err InvalidLocation
    else Err MissingWallMeshes.
Proof.
  unfold RemoveDoor. destruct (0 <? _); [|done]. simpl.
  destruct (IsValidWallLocation Room L); [|done]. simpl.
  by destruct (HasDoorAtLocation Room L) as [[]|].
Qed.

Lemma SetStaticMesh_Ok (L : FWallLocation) (Mesh : UStaticMeshPtr)
    (Room : ADungeonRoom) (b : bool) :
  HasDoorAtLocation Room L = Ok b ->
  SetStaticMesh L Mesh Room = Ok (WithMeshAt Room L Mesh).
Proof.
  intros (Hv & c & Hc & _)%HasDoorAtLocation_Ok_inv.
  by rewrite SetStaticMesh_unfold, Hv, Hc.
Qed.

(** A successful [AddDoor] put a mesh of the door palette at the location. *)
Lemma AddDoor_Ok (Seed : nat) (L : FWallLocation) (Room : ADungeonRoom) :
  m_DoorMeshes Room <> [] -> HasDoorAtLocation Room L = Ok false ->
  exists Mesh, Mesh ∈ m_DoorMeshes Room /\
               AddDoor Seed L Room = Ok (WithMeshAt Room L Mesh).
Proof.
  intros Hne Hno. rewrite AddDoor_unfold, Hno.
  destruct (HasDoorAtLocation_Ok_inv _ _ _ Hno) as [-> _].
  rewrite (proj2 (Num_pos _) Hne).
  destruct (GetRandomMesh_Ok _ Seed Hne) as (Mesh & -> & Hin).
  exists Mesh. split; [done|]. simpl. by eapply SetStaticMesh_Ok.
Qed.

Lemma AddDoor_Ok_inv (Seed : nat) (L : FWallLocation) (Room Room' : ADungeonRoom) :
  AddDoor Seed L Room = Ok Room' ->
  m_DoorMeshes Room <> [] /\ HasDoorAtLocation Room L = Ok false /\
  exists Mesh, Mesh ∈ m_DoorMeshes Room /\ Room' = WithMeshAt Room L Mesh.
Proof.
  rewrite AddDoor_unfold.
  destruct (0 <? _) eqn:Hn; [|done]. apply Num_pos in Hn.
  destruct (IsValidWallLocation Room L); [|done].
  destruct (HasDoorAtLocation Room L) as [[]|] eqn:Hd; try done.
  intros Hadd. destruct (AddDoor_Ok Seed L Room Hn Hd) as (Mesh & Hin & Heq).
  rewrite AddDoor_unfold, (proj2 (Num_pos _) Hn), Hd in Heq.
  destruct (HasDoorAtLocation_Ok_inv _ _ _ Hd) as [Hv _]. rewrite Hv in Heq.
  rewrite Heq in Hadd. injection Hadd as <-. eauto.
Qed.

(** A successful [RemoveDoor] put a mesh of the wall palette at the location. *)
Lemma RemoveDoor_Ok (Seed : nat) (L : FWallLocation) (Room : ADungeonRoom) :
  m_WallMeshes Room <> [] -> HasDoorAtLocation Room L = Ok true ->
  exists Mesh, Mesh ∈ m_WallMeshes Room /\
               RemoveDoor Seed L Room = Ok (WithMeshAt Room L Mesh).
Proof.
  intros Hne Hno. rewrite RemoveDoor_unfold, Hno.
  destruct (HasDoorAtLocation_Ok_inv _ _ _ Hno) as [-> _].
  rewrite (proj2 (Num_pos _) Hne).
  destruct (GetRandomMesh_Ok _ Seed Hne) as (Mesh & -> & Hin).
  exists Mesh. split; [done|]. simpl. by eapply SetStaticMesh_Ok.
Qed.

Lemma RemoveDoor_Ok_inv (Seed : nat) (L : FWallLocation) (Room Room' : ADungeonRoom) :
  RemoveDoor Seed L Room = Ok Room' ->
  m_WallMeshes Room <> [] /\ HasDoorAtLocation Room L = Ok true /\
  exists Mesh, Mesh ∈ m_WallMeshes Room /\ Room' = WithMeshAt Room L Mesh.
Proof.
  rewrite RemoveDoor_unfold.
  destruct (0 <? _) eqn:Hn; [|done]. apply Num_pos in Hn.
  destruct (IsValidWallLocation Room L); [|done].
  destruct (HasDoorAtLocation Room L) as [[]|] eqn:Hd; try done.
  intros Hrem. destruct (RemoveDoor_Ok Seed L Room Hn Hd) as (Mesh & Hin & Heq).
  rewrite RemoveDoor_unfold, (proj2 (Num_pos _) Hn), Hd in Heq.
  destruct (HasDoorAtLocation_Ok_inv _ _ _ Hd) as [Hv _]. rewrite Hv in Heq.
  rewrite Heq in Hrem. injection Hrem as <-. eauto.
Qed.

Lemma HasDoorAtLocation_total (Room : ADungeonRoom) (L : FWallLocation) :
  SegmentsPresent Room -> IsValidWallLocation Room L = true ->
  exists b, HasDoorAtLocation Room L = Ok b.
Proof.
  intros Hp Hv. rewrite HasDoorAtLocation_unfold, Hv.
  destruct (SlotAt_valid _ _ Hv) as [[c|] Hs]; rewrite Hs; [eauto|].
  by destruct (Hp (WallDirection L) (Z.to_nat (SegmentIndex L))).
Qed.

(** ** Frame: other locations keep their state *)

Lemma length_GetWall_WithMeshAt (Room : ADungeonRoom) (L : FWallLocation)
    (Mesh : UStaticMeshPtr) (D : EDirection) :
  length (m_SegmentMeshes (GetWall (WithMeshAt Room L Mesh) D)) =
  length (m_SegmentMeshes (GetWall Room D)).
Proof.
  unfold WithMeshAt. rewrite GetWall_WithWall.
  destruct (decide _) as [->|]; [|done]. simpl. apply length_insert.
Qed.

Lemma AddDoor_frame (Seed : nat) (Room Room' : ADungeonRoom) (L L2 : FWallLocation) :
  L <> L2 -> AddDoor Seed L Room = Ok Room' ->
  HasDoorAtLocation Room' L2 = HasDoorAtLocation Room L2.
Proof.
  intros Hne (_ & Hd & Mesh & _ & ->)%AddDoor_Ok_inv.
  destruct (HasDoorAtLocation_Ok_inv _ _ _ Hd) as [Hv _].
  by apply HasDoorAtLocation_WithMeshAt_ne.
Qed.

Lemma RemoveDoor_frame (Seed : nat) (Room Room' : ADungeonRoom) (L L2 : FWallLocation) :
  L <> L2 -> RemoveDoor Seed L Room = Ok Room' ->
  HasDoorAtLocation Room' L2 = HasDoorAtLocation Room L2.
Proof.
  intros Hne (_ & Hd & Mesh & _ & ->)%RemoveDoor_Ok_inv.
  destruct (HasDoorAtLocation_Ok_inv _ _ _ Hd) as [Hv _].
  by apply HasDoorAtLocation_WithMeshAt_ne.
Qed.

(** The loop of [Spawn] on door-free, pairwise distinct locations. *)
Lemma AddDoors_Ok (Seeds : nat -> nat) (Locations : list FWallLocation) :
  forall (n : nat) (Room : ADungeonRoom),
    m_DoorMeshes Room <> [] ->
    NoDup Locations ->
    (forall L, L ∈ Locations -> HasDoorAtLocation Room L = Ok false) ->
    exists Room',
      AddDoors Seeds n Locations Room = Ok Room' /\
      m_DoorMeshes Room' = m_DoorMeshes Room /\
      (forall D, length (m_SegmentMeshes (GetWall Room' D)) =
                 length (m_SegmentMeshes (GetWall Room D))) /\
      (forall L, L ∈ Locations -> HasDoorAtLocation Room' L = Ok true) /\
      (forall L, L ∉ Locations -> HasDoorAtLocation Room' L = HasDoorAtLocation Room L).
Proof.
  induction Locations as [|L0 Rest IH]; intros n Room Hdoors Hnd Hfree.
  - exists Room. repeat apply conj; try done. by intros L ?%elem_of_nil.
  - apply NoDup_cons in Hnd as [Hnotin Hnd].
    assert (Hfree0 : HasDoorAtLocation Room L0 = Ok false)
      by (apply Hfree; left).
    destruct (HasDoorAtLocation_Ok_inv _ _ _ Hfree0) as [Hv0 _].
    destruct (AddDoor_Ok (Seeds n) L0 Room Hdoors Hfree0) as (Mesh & Hin & Hadd).
    set (Room1 := WithMeshAt Room L0 Mesh) in *.
    destruct (IH (S n) Room1) as (Room' & Hrun & Hpal & Hlen & Hset & Hkeep).
    + done.
    + done.
    + intros L HL. unfold Room1.
      rewrite HasDoorAtLocation_WithMeshAt_ne; [| by intros -> | done].
      apply Hfree. by right.
    + exists Room'. repeat apply conj.
      * simpl. rewrite Hadd. simpl. exact Hrun.
      * by rewrite Hpal.
      * intros D. rewrite Hlen. apply length_GetWall_WithMeshAt.
      * intros L [->|HL]%elem_of_cons; [|by apply Hset].
        rewrite Hkeep by done. unfold Room1.
        rewrite HasDoorAtLocation_WithMeshAt_eq by done.
        f_equal. by apply Contains_elem_of.
      * intros L [Hne Hrest]%not_elem_of_cons.
        rewrite Hkeep by done. unfold Room1.
        by apply HasDoorAtLocation_WithMeshAt_ne.
Qed.

Lemma elem_of_LocationsOn (Room : ADungeonRoom) (D : EDirection) (L : FWallLocation) :
  L ∈ LocationsOn Room D <->
  WallDirection L = D /\ IsValidWallLocation Room L = true.
Proof.
  unfold LocationsOn, IsValidWallLocation, IsValidSegmentIndex.
  rewrite list_elem_of_fmap, IsValidIndex_true. unfold Num. split.
  - intros (i & -> & [_ Hi]%elem_of_seq). simpl. split; [done | lia].
  - intros [<- Hi]. exists (Z.to_nat (SegmentIndex L)). split.
    + destruct L; simpl in *. f_equal. lia.
    + apply elem_of_seq. lia.
Qed.

Lemma elem_of_WallLocations (Room : ADungeonRoom) (L : FWallLocation) :
  L ∈ WallLocations Room <-> IsValidWallLocation Room L = true.
Proof.
  unfold WallLocations. rewrite !elem_of_app, !elem_of_LocationsOn.
  destruct (WallDirection L); intuition congruence.
Qed.

Lemma WallLocations_footprint (Room : ADungeonRoom) (W L : nat) :
  HasFootprint Room (Z.of_nat W) (Z.of_nat L) ->
  WallLocations Room =
    (At_North ∘ Z.of_nat <$> seq 0 W) ++ (At_South ∘ Z.of_nat <$> seq 0 W) ++
    (At_East ∘ Z.of_nat <$> seq 0 L) ++ (At_West ∘ Z.of_nat <$> seq 0 L).
Proof.
  intros (Hn & Hs & He & Hw). unfold Num in *.
  unfold WallLocations, LocationsOn. simpl.
  by rewrite (Nat2Z.inj _ _ Hn), (Nat2Z.inj _ _ Hs), (Nat2Z.inj _ _ He),
    (Nat2Z.inj _ _ Hw).
Qed.

(** ** Initialising the walls of a spawned room *)

Lemma AssignSegments_length (WallSegments : list USceneComponent) :
  forall SegmentMeshes SegmentMeshes',
    AssignSegments WallSegments SegmentMeshes = Ok SegmentMeshes' ->
    length SegmentMeshes' = length SegmentMeshes.
Proof.
  induction WallSegments as [|Segment Rest IH]; intros ms ms'; simpl.
  - by intros [= ->].
  - destruct (AsStaticMeshComponent Segment); [|done]. simpl.
    destruct (GetIndexOfSegment Segment) as [Index|]; [|done]. simpl.
    destruct (IsValidIndex ms Index); [|done]. simpl.
    intros ->%IH. apply length_insert.
Qed.

(** Slot [i] holds the component of a child tagged [i], or is as before
    when no child is tagged [i]. *)
Lemma AssignSegments_lookup (WallSegments : list USceneComponent) (i : nat) :
  forall SegmentMeshes SegmentMeshes',
    AssignSegments WallSegments SegmentMeshes = Ok SegmentMeshes' ->
    (exists Segment Component,
       Segment ∈ WallSegments /\
       AsStaticMeshComponent Segment = Some Component /\
       SegmentMeshes' !! i = Some (Some Component)) \/
    ((forall Segment, Segment ∈ WallSegments ->
        GetIndexOfSegment Segment <> Ok (Z.of_nat i)) /\
     SegmentMeshes' !! i = SegmentMeshes !! i).
Proof.
  induction WallSegments as [|Segment Rest IH]; intros ms ms'; simpl.
  - intros [= ->]. right. split; [|done]. by intros ? ?%elem_of_nil.
  - destruct (AsStaticMeshComponent Segment) as [Component|] eqn:Hcast; [|done].
    simpl.
    destruct (GetIndexOfSegment Segment) as [Index|] eqn:Htag; [|done]. simpl.
    destruct (IsValidIndex ms Index) eqn:Hvalid; [|done]. simpl.
    intros Hrest. apply IsValidIndex_true in Hvalid. unfold Num in Hvalid.
    destruct (IH _ _ Hrest) as [(S' & C' & Hin & HC' & Hslot)|[Hnone Hslot]].
    + left. exists S', C'. split; [by right | done].
    + destruct (decide (Z.to_nat Index = i)) as [<-|Hne].
      * left. exists Segment, Component. split; [by left|]. split; [done|].
        rewrite Hslot. apply list_lookup_insert_eq. lia.
      * right. split.
        -- intros S' [->|HS']%elem_of_cons; [|by apply Hnone].
           rewrite Htag. intros [= ->]. lia.
        -- rewrite Hslot. by apply list_lookup_insert_ne.
Qed.

Lemma WellTagged_tagged (WallSegments : list USceneComponent) (i : nat) :
  WellTagged WallSegments -> (i < length WallSegments)%nat ->
  exists Segment, Segment ∈ WallSegments /\
                  GetIndexOfSegment Segment = Ok (Z.of_nat i).
Proof.
  intros Hperm Hi. unfold WellTagged in Hperm.
  assert (Hin : Ok (Z.of_nat i) ∈ GetIndexOfSegment <$> WallSegments).
  { rewrite Hperm. apply list_elem_of_fmap. exists i. split; [done|].
    apply elem_of_seq. lia. }
  apply list_elem_of_fmap in Hin as (Segment & Heq & Hin). eauto.
Qed.

(** In a game world every slot of a well-tagged wall holds one of the
    template's components. *)
Lemma InitializeComponent_slots (World : UWorld) (WallSegments : list USceneComponent)
    (Wall : USegmentedWall) (i : nat) (Slot : option UStaticMeshComponent) :
  InitializeComponent (Some World) WallSegments CreateWall = Ok Wall ->
  WellTagged WallSegments ->
  m_SegmentMeshes Wall !! i = Some Slot ->
  exists Segment Component,
    Segment ∈ WallSegments /\
    AsStaticMeshComponent Segment = Some Component /\
    Slot = Some Component.
Proof.
  unfold InitializeComponent, InitializeSegmentMeshes.
  destruct (IsGameWorld World).
  - destruct (AssignSegments _ _) as [ms|] eqn:Hassign; [|done]. simpl.
    intros [= <-] Htags Hslot. simpl in Hslot.
    pose proof (AssignSegments_length _ _ _ Hassign) as Hlen.
    rewrite length_replicate in Hlen.
    apply lookup_lt_Some in Hslot as Hi. rewrite Hlen in Hi.
    destruct (AssignSegments_lookup _ i _ _ Hassign)
      as [(Segment & Component & Hin & Hcast & Hi')|[Hnone _]].
    + exists Segment, Component. split; [done|]. split; [done|]. congruence.
    + destruct (WellTagged_tagged _ i Htags Hi) as (Segment & Hin & Htag).
      by destruct (Hnone Segment Hin).
  - intros [= <-] _ Hslot. simpl in Hslot. by rewrite lookup_nil in Hslot.
Qed.

Local Arguments InitializeComponent : simpl never.

Lemma SpawnActor_Ok_inv (World : UWorld) (Class : UClass) (Room : ADungeonRoom) :
  SpawnActor World Class = Ok Room ->
  m_DoorMeshes Room = Class_DoorMeshes Class /\
  m_WallMeshes Room = Class_WallMeshes Class /\
  m_DoorMeshes Room <> [] /\
  m_WallMeshes Room <> [] /\
  forall D, InitializeComponent (Some World) (ClassSegments Class D) CreateWall
              = Ok (GetWall Room D).
Proof.
  unfold SpawnActor, PostActorCreated. cbn [m_DoorMeshes m_WallMeshes].
  destruct (0 <? Num (Class_DoorMeshes Class)) eqn:Hd; [|done].
  destruct (0 <? Num (Class_WallMeshes Class)) eqn:Hw; [|done].
  apply Num_pos in Hd, Hw. simpl.
  destruct (InitializeComponent _ (Class_NorthWall Class) _) as [N|] eqn:HN; [|done].
  destruct (InitializeComponent _ (Class_SouthWall Class) _) as [S|] eqn:HS; [|done].
  destruct (InitializeComponent _ (Class_WestWall Class) _) as [W|] eqn:HW; [|done].
  destruct (InitializeComponent _ (Class_EastWall Class) _) as [E|] eqn:HE; [|done].
  simpl. intros [= <-]. simpl. repeat apply conj; try done.
  by intros [].
Qed.

(** In a game world each wall of a spawned room has one slot per child
    that the template attaches to it. *)
Lemma SpawnActor_Num (World : UWorld) (Class : UClass) (Room : ADungeonRoom)
    (D : EDirection) :
  SpawnActor World Class = Ok Room -> IsGameWorld World = true ->
  Num (m_SegmentMeshes (GetWall Room D)) = Num (ClassSegments Class D).
Proof.
  intros (_ & _ & _ & _ & Hwalls)%SpawnActor_Ok_inv Hgame.
  specialize (Hwalls D). unfold InitializeComponent in Hwalls.
  rewrite Hgame in Hwalls. unfold InitializeSegmentMeshes in Hwalls.
  destruct (AssignSegments _ _) as [ms|] eqn:Hassign; [|done].
  simpl in Hwalls. injection Hwalls as <-. simpl. unfold Num.
  by rewrite (AssignSegments_length _ _ _ Hassign), length_replicate.
Qed.

Lemma SpawnActor_HasFootprint (World : UWorld) (Class : UClass) (Room : ADungeonRoom)
    (W L : Z) :
  SpawnActor World Class = Ok Room -> IsGameWorld World = true ->
  Num (Class_NorthWall Class) = W -> Num (Class_SouthWall Class) = W ->
  Num (Class_EastWall Class) = L -> Num (Class_WestWall Class) = L ->
  HasFootprint Room W L.
Proof.
  intros Hspawn Hgame <- HS <- HW.
  pose proof (SpawnActor_Num World Class Room North Hspawn Hgame).
  pose proof (SpawnActor_Num World Class Room South Hspawn Hgame).
  pose proof (SpawnActor_Num World Class Room East Hspawn Hgame).
  pose proof (SpawnActor_Num World Class Room West Hspawn Hgame).
  unfold HasFootprint. simpl in *. repeat split; congruence.
Qed.

(** ** The database after the scan *)

Lemma Appended_cons (Stored : option (list FSoftObjectPath)) (Path : FSoftObjectPath)
    (Paths : list FSoftObjectPath) :
  Appended (Some (default [] Stored ++ [Path])) Paths = Appended Stored (Path :: Paths).
Proof. destruct Paths; simpl; [done|]. by rewrite <- app_assoc. Qed.

Lemma RunningMax_cons (Stored : option Z) (Size : Z) (Sizes : list Z) :
  RunningMax (Some (Z.max (default 0 Stored) Size)) Sizes
    = RunningMax Stored (Size :: Sizes).
Proof. by destruct Sizes. Qed.

Lemma gtb_max (Size Max : Z) : (if Size >? Max then Size else Max) = Z.max Max Size.
Proof. rewrite Z.gtb_ltb. destruct (Z.ltb_spec Max Size); lia. Qed.

Lemma m_PathsByRoomSpecs_foldl (RoomAssets : list FAssetData) (Specs : FDungeonRoomSpecs) :
  forall Db,
    m_PathsByRoomSpecs (foldl AddAssetToDatabase Db RoomAssets) !! Specs =
    Appended (m_PathsByRoomSpecs Db !! Specs)
      (GetSoftObjectPath <$> WithSpecs Specs RoomAssets).
Proof.
  induction RoomAssets as [|A Rest IH]; intros Db; [done|].
  simpl. rewrite IH. unfold WithSpecs. rewrite filter_cons.
  unfold AddAssetToDatabase, UpdateMaxWidthAndLengthMaps, UpdateAssetPathsMap,
    FindOrAdd. simpl.
  destruct (decide (GetRoomSpecs A = Specs)) as [->|Hne].
  - rewrite lookup_insert_eq, fmap_cons. apply Appended_cons.
  - by rewrite lookup_insert_ne.
Qed.

Lemma m_MaxWidthByTheme_foldl (RoomAssets : list FAssetData) (T : EDungeonTheme) :
  forall Db,
    m_MaxWidthByTheme (foldl AddAssetToDatabase Db RoomAssets) !! T =
    RunningMax (m_MaxWidthByTheme Db !! T) (WidthOf <$> WithTheme T RoomAssets).
Proof.
  induction RoomAssets as [|A Rest IH]; intros Db; [done|].
  simpl. rewrite IH. unfold WithTheme. rewrite filter_cons.
  unfold AddAssetToDatabase, UpdateMaxWidthAndLengthMaps, UpdateAssetPathsMap,
    FindOrAdd. simpl.
  destruct (decide (Theme (GetRoomSpecs A) = T)) as [->|Hne].
  - rewrite lookup_insert_eq, fmap_cons, gtb_max. apply RunningMax_cons.
  - by rewrite lookup_insert_ne.
Qed.

Lemma m_MaxLengthByTheme_foldl (RoomAssets : list FAssetData) (T : EDungeonTheme) :
  forall Db,
    m_MaxLengthByTheme (foldl AddAssetToDatabase Db RoomAssets) !! T =
    RunningMax (m_MaxLengthByTheme Db !! T) (LengthOf <$> WithTheme T RoomAssets).
Proof.
  induction RoomAssets as [|A Rest IH]; intros Db; [done|].
  simpl. rewrite IH. unfold WithTheme. rewrite filter_cons.
  unfold AddAssetToDatabase, UpdateMaxWidthAndLengthMaps, UpdateAssetPathsMap,
    FindOrAdd. simpl.
  destruct (decide (Theme (GetRoomSpecs A) = T)) as [->|Hne].
  - rewrite lookup_insert_eq, fmap_cons, gtb_max. apply RunningMax_cons.
  - by rewrite lookup_insert_ne.
Qed.

Lemma foldl_max_bounds (Sizes : list Z) :
  forall Start,
    Start <= foldl Z.max Start Sizes /\
    (forall x, x ∈ Sizes -> x <= foldl Z.max Start Sizes) /\
    (foldl Z.max Start Sizes = Start \/ foldl Z.max Start Sizes ∈ Sizes).
Proof.
  induction Sizes as [|Size Rest IH]; intros Start; simpl.
  - split; [lia|]. split; [by intros ? ?%elem_of_nil | by left].
  - destruct (IH (Z.max Start Size)) as (Hle & Hall & Hin).
    split; [lia|]. split.
    + intros x [->|Hx]%elem_of_cons; [lia | by apply Hall].
    + destruct Hin as [Heq|Hin]; [|right; by right].
      destruct (Z.max_spec Start Size) as [[_ Hm]|[_ Hm]]; rewrite Hm in *.
      * right. rewrite Heq. by left.
      * by left.
Qed.


Lemma InitializeDatabase_Ok (RoomAssets : list FAssetData) :
  RoomAssets <> [] ->
  InitializeDatabase RoomAssets = Ok (foldl AddAssetToDatabase EmptyDatabase RoomAssets).
Proof. intros Hne%Num_pos. unfold InitializeDatabase. by rewrite Hne. Qed.

(** * The properties of the specification *)

(** ** C1: outcomes of AddDoor and RemoveDoor *)

(** C1, as stated, fails on four rooms. With an empty door palette
    [AddDoor] fails at a valid door-free location, with neither of the two
    listed errors. With an empty wall palette [RemoveDoor] fails at a
    location that has a door. When the mesh drawn from the wall palette is
    also a door mesh, [RemoveDoor] succeeds and the location still has a
    door. In a room spawned from a template with a repeated index tag, a
    valid location has no segment and both operations fail on it. *)
Lemma AddDoor_RemoveDoor_counterexample :
  (let Room := UniformRoom [] [SM_Wall] 4 3 SM_Wall in
   IsValidWallLocation Room (At_North 0) = true /\
   HasDoorAtLocation Room (At_North 0) = Ok false /\
   AddDoor 0 (At_North 0) Room = Err MissingDoorMeshes) /\
  (let Room := UniformRoom [SM_Door] [] 4 3 SM_Door in
   HasDoorAtLocation Room (At_North 0) = Ok true /\
   RemoveDoor 0 (At_North 0) Room = Err MissingWallMeshes) /\
  (let Room := UniformRoom [SM_Door; SM_Arch] [SM_Arch; SM_Wall] 4 3 SM_Door in
   HasDoorAtLocation Room (At_North 0) = Ok true /\
   exists Room', RemoveDoor 0 (At_North 0) Room = Ok Room' /\
                 HasDoorAtLocation Room' (At_North 0) = Ok true) /\
  (exists Room,
     SpawnActor GameWorld MistaggedAsset = Ok Room /\
     IsValidWallLocation Room (At_North 1) = true /\
     AddDoor 0 (At_North 1) Room = Err NullSegment /\
     RemoveDoor 0 (At_North 1) Room = Err NullSegment).
Proof.
  split; [|split; [|split]].
  - by vm_compute.
  - by vm_compute.
  - split; [by vm_compute|]. eexists. split; by vm_compute.
  - eexists. split; by vm_compute.
Qed.

(** C1 (amended). With an empty door palette [AddDoor] fails with the
    missing-door-meshes assertion; otherwise it fails with
    [InvalidLocation] at an invalid location, with [DoorAlreadyPresent]
    where a door is present, and where no door is present it succeeds and
    the location has a door afterwards. With an empty wall palette
    [RemoveDoor] fails with the missing-wall-meshes assertion; otherwise it
    fails with [InvalidLocation] at an invalid location, with
    [NoDoorPresent] where no door is present, and where a door is present
    it succeeds and puts a mesh of the wall palette there, so that the
    location has no door afterwards unless that mesh is also a door mesh.
    In a room all of whose segments are present, neither operation fails
    in any other way. *)
Theorem AddDoor_RemoveDoor_outcomes (Seed : nat) (Room : ADungeonRoom) (L : FWallLocation) :
  (m_DoorMeshes Room = [] -> AddDoor Seed L Room = Err MissingDoorMeshes) /\
  (m_DoorMeshes Room <> [] -> IsValidWallLocation Room L = false ->
     AddDoor Seed L Room = Err InvalidLocation) /\
  (m_DoorMeshes Room <> [] -> HasDoorAtLocation Room L = Ok true ->
     AddDoor Seed L Room = Err DoorAlreadyPresent) /\
  (m_DoorMeshes Room <> [] -> HasDoorAtLocation Room L = Ok false ->
     exists Room', AddDoor Seed L Room = Ok Room' /\
                   HasDoorAtLocation Room' L = Ok true) /\
  (m_WallMeshes Room = [] -> RemoveDoor Seed L Room = Err MissingWallMeshes) /\
  (m_WallMeshes Room <> [] -> IsValidWallLocation Room L = false ->
     RemoveDoor Seed L Room = Err InvalidLocation) /\
  (m_WallMeshes Room <> [] -> HasDoorAtLocation Room L = Ok false ->
     RemoveDoor Seed L Room = Err NoDoorPresent) /\
  (m_WallMeshes Room <> [] -> HasDoorAtLocation Room L = Ok true ->
     exists Room' Mesh,
       Mesh ∈ m_WallMeshes Room /\
       RemoveDoor Seed L Room = Ok Room' /\
       HasDoorAtLocation Room' L = Ok (Contains (m_DoorMeshes Room) Mesh)) /\
  (SegmentsPresent Room ->
     forall e, AddDoor Seed L Room = Err e ->
       e = MissingDoorMeshes /\ m_DoorMeshes Room = [] \/
       e = InvalidLocation /\ IsValidWallLocation Room L = false \/
       e = DoorAlreadyPresent /\ HasDoorAtLocation Room L = Ok true) /\
  (SegmentsPresent Room ->
     forall e, RemoveDoor Seed L Room = Err e ->
       e = MissingWallMeshes /\ m_WallMeshes Room = [] \/
       e = InvalidLocation /\ IsValidWallLocation Room L = false \/
       e = NoDoorPresent /\ HasDoorAtLocation Room L = Ok false).
Proof.
  repeat apply conj.
  - intros He. by rewrite AddDoor_unfold, He.
  - intros Hne%Num_pos Hv. by rewrite AddDoor_unfold, Hne, Hv.
  - intros Hne%Num_pos Hd. rewrite AddDoor_unfold, Hne, Hd.
    by destruct (HasDoorAtLocation_Ok_inv _ _ _ Hd) as [-> _].
  - intros Hne Hd. destruct (AddDoor_Ok Seed L Room Hne Hd) as (Mesh & Hin & ->).
    eexists. split; [done|].
    destruct (HasDoorAtLocation_Ok_inv _ _ _ Hd) as [Hv _].
    rewrite HasDoorAtLocation_WithMeshAt_eq by done.
    f_equal. by apply Contains_elem_of.
  - intros He. by rewrite RemoveDoor_unfold, He.
  - intros Hne%Num_pos Hv. by rewrite RemoveDoor_unfold, Hne, Hv.
  - intros Hne%Num_pos Hd. rewrite RemoveDoor_unfold, Hne, Hd.
    by destruct (HasDoorAtLocation_Ok_inv _ _ _ Hd) as [-> _].
  - intros Hne Hd. destruct (RemoveDoor_Ok Seed L Room Hne Hd) as (Mesh & Hin & ->).
    eexists _, Mesh. split; [done|]. split; [done|].
    destruct (HasDoorAtLocation_Ok_inv _ _ _ Hd) as [Hv _].
    by rewrite HasDoorAtLocation_WithMeshAt_eq.
  - intros Hp e. rewrite AddDoor_unfold.
    destruct (0 <? Num (m_DoorMeshes Room)) eqn:Hn;
      [apply Num_pos in Hn | apply Num_not_pos in Hn; intros [= <-]; by left].
    destruct (IsValidWallLocation Room L) eqn:Hv; [|intros [= <-]; right; by left].
    destruct (HasDoorAtLocation_total Room L Hp Hv) as [[] Hd].
    + rewrite Hd. intros [= <-]. right; by right.
    + destruct (AddDoor_Ok Seed L Room Hn Hd) as (Mesh & _ & Hadd).
      rewrite AddDoor_unfold, (proj2 (Num_pos _) Hn), Hv in Hadd.
      by rewrite Hadd.
  - intros Hp e. rewrite RemoveDoor_unfold.
    destruct (0 <? Num (m_WallMeshes Room)) eqn:Hn;
      [apply Num_pos in Hn | apply Num_not_pos in Hn; intros [= <-]; by left].
    destruct (IsValidWallLocation Room L) eqn:Hv; [|intros [= <-]; right; by left].
    destruct (HasDoorAtLocation_total Room L Hp Hv) as [[] Hd].
    + destruct (RemoveDoor_Ok Seed L Room Hn Hd) as (Mesh & _ & Hrem).
      rewrite RemoveDoor_unfold, (proj2 (Num_pos _) Hn), Hv in Hrem.
      by rewrite Hrem.
    + rewrite Hd. intros [= <-]. right; by right.
Qed.

Lemma AddDoor_RemoveDoor_outcomes_witness :
  let Room := UniformRoom [SM_Door] [SM_Wall] 4 3 SM_Wall in
  (exists Room', AddDoor 5 (At_East 2) Room = Ok Room' /\
                 HasDoorAtLocation Room' (At_East 2) = Ok true) /\
  RemoveDoor 5 (At_East 2) Room = Err NoDoorPresent /\
  AddDoor 5 (At_East 3) Room = Err InvalidLocation.
Proof.
  intros Room.
  pose proof (AddDoor_RemoveDoor_outcomes 5 Room (At_East 2))
    as (_ & _ & _ & Hadd & _ & _ & Hrem & _ & _ & _).
  pose proof (AddDoor_RemoveDoor_outcomes 5 Room (At_East 3))
    as (_ & Hinv & _).
  split; [|split].
  - apply Hadd; [done | reflexivity].
  - apply Hrem; [done | reflexivity].
  - apply Hinv; [done | reflexivity].
Defined.

(** ** C2: adding then removing a door *)

(** C2, as stated, fails: at a valid door-free location [AddDoor] fails
    when the door palette is empty; after a successful [AddDoor],
    [RemoveDoor] fails when the wall palette is empty, and leaves the door
    in place when the wall mesh it draws is also a door mesh. *)
Lemma round_trip_counterexample :
  (let Room := UniformRoom [] [SM_Wall] 2 2 SM_Wall in
   IsValidWallLocation Room (At_West 1) = true /\
   HasDoorAtLocation Room (At_West 1) = Ok false /\
   AddDoor 0 (At_West 1) Room = Err MissingDoorMeshes) /\
  (let Room := UniformRoom [SM_Door] [] 2 2 SM_Wall in
   IsValidWallLocation Room (At_West 1) = true /\
   HasDoorAtLocation Room (At_West 1) = Ok false /\
   exists Room1, AddDoor 0 (At_West 1) Room = Ok Room1 /\
                 HasDoorAtLocation Room1 (At_West 1) = Ok true /\
                 RemoveDoor 0 (At_West 1) Room1 = Err MissingWallMeshes) /\
  (let Room := UniformRoom [SM_Door; SM_Arch] [SM_Arch; SM_Wall] 2 2 SM_Wall in
   IsValidWallLocation Room (At_West 1) = true /\
   HasDoorAtLocation Room (At_West 1) = Ok false /\
   exists Room1 Room2,
     AddDoor 0 (At_West 1) Room = Ok Room1 /\
     HasDoorAtLocation Room1 (At_West 1) = Ok true /\
     RemoveDoor 0 (At_West 1) Room1 = Ok Room2 /\
     HasDoorAtLocation Room2 (At_West 1) = Ok true).
Proof.
  split; [|split].
  - by vm_compute.
  - do 2 (split; [by vm_compute|]). eexists. by vm_compute.
  - do 2 (split; [by vm_compute|]). eexists _, _. by vm_compute.
Qed.

(** C2 (amended). In a room whose door palette is non-empty and whose
    wall palette is non-empty and shares no mesh with the door palette, at
    every valid location without a door: [AddDoor] succeeds and
    [HasDoorAtLocation] is then true; [RemoveDoor] right after succeeds
    and [HasDoorAtLocation] is then false. *)
Theorem AddDoor_RemoveDoor_round_trip (Seed Seed' : nat) (Room : ADungeonRoom)
    (L : FWallLocation) :
  m_DoorMeshes Room <> [] ->
  m_WallMeshes Room <> [] ->
  (forall Mesh, Mesh ∈ m_WallMeshes Room -> Mesh ∉ m_DoorMeshes Room) ->
  IsValidWallLocation Room L = true ->
  HasDoorAtLocation Room L = Ok false ->
  exists Room1 Room2,
    AddDoor Seed L Room = Ok Room1 /\
    HasDoorAtLocation Room1 L = Ok true /\
    RemoveDoor Seed' L Room1 = Ok Room2 /\
    HasDoorAtLocation Room2 L = Ok false.
Proof.
  intros Hdoors Hwalls Hdisj Hv Hno.
  destruct (AddDoor_Ok Seed L Room Hdoors Hno) as (Door & HDoor & Hadd).
  set (Room1 := WithMeshAt Room L Door) in *.
  assert (Hhas : HasDoorAtLocation Room1 L = Ok true).
  { unfold Room1. rewrite HasDoorAtLocation_WithMeshAt_eq by done.
    f_equal. by apply Contains_elem_of. }
  destruct (RemoveDoor_Ok Seed' L Room1 Hwalls Hhas) as (Wall & HWall & Hrem).
  exists Room1, (WithMeshAt Room1 L Wall). repeat apply conj; try done.
  rewrite HasDoorAtLocation_WithMeshAt_eq.
  - f_equal. apply Contains_false. by apply Hdisj.
  - unfold Room1. by rewrite IsValidWallLocation_WithMeshAt.
Qed.

Lemma AddDoor_RemoveDoor_round_trip_witness :
  let Room := UniformRoom [SM_Door; SM_Arch] [SM_Wall] 4 3 SM_Wall in
  exists Room1 Room2,
    AddDoor 1 (At_South 3) Room = Ok Room1 /\
    HasDoorAtLocation Room1 (At_South 3) = Ok true /\
    RemoveDoor 0 (At_South 3) Room1 = Ok Room2 /\
    HasDoorAtLocation Room2 (At_South 3) = Ok false.
Proof.
  intros Room. apply (AddDoor_RemoveDoor_round_trip 1 0 Room (At_South 3)).
  - done.
  - done.
  - intros Mesh ->%list_elem_of_singleton [?|[?|?]%elem_of_cons]%elem_of_cons;
      [done | done | by eapply elem_of_nil].
  - reflexivity.
  - reflexivity.
Defined.

(** ** C3: the doors of a fresh room *)

(** C3, as stated, fails: a room takes its segments from its template,
    and a template may author a door. The room spawned from the asset of
    [TestDetectingDoor] has a door at North 1 before any door is added.
    And in the room spawned from a template with a repeated index tag, a
    valid location has no segment: [HasDoorAtLocation] dereferences a null
    pointer there. *)
Lemma fresh_room_counterexample :
  (exists Room,
     SpawnActor GameWorld TestDetectingDoorAsset = Ok Room /\
     HasFootprint Room 2 2 /\
     IsValidWallLocation Room (At_North 1) = true /\
     HasDoorAtLocation Room (At_North 1) = Ok true) /\
  (exists Room,
     SpawnActor GameWorld MistaggedAsset = Ok Room /\
     HasFootprint Room 2 2 /\
     IsValidWallLocation Room (At_North 1) = true /\
     HasDoorAtLocation Room (At_North 1) = Err NullSegment).
Proof. split; (eexists; split; [by vm_compute|]; by vm_compute). Qed.

(** C3 (amended). The constructor makes four walls without segments, so
    a room as constructed has no valid location. A spawned room takes its
    segments from its template: when the segments of each wall are tagged
    0 .. n-1 and none of them is authored with a mesh of the door palette,
    [HasDoorAtLocation] is false at every valid location of the fresh
    room. *)
Theorem fresh_room_has_no_doors :
  (forall L, IsValidWallLocation ADungeonRoom_ctor L = false) /\
  (forall (World : UWorld) (Class : UClass) (Room : ADungeonRoom),
     SpawnActor World Class = Ok Room ->
     (forall D, WellTagged (ClassSegments Class D)) ->
     (forall D Segment Component,
        Segment ∈ ClassSegments Class D ->
        AsStaticMeshComponent Segment = Some Component ->
        StaticMesh Component ∉ Class_DoorMeshes Class) ->
     forall L, IsValidWallLocation Room L = true ->
               HasDoorAtLocation Room L = Ok false).
Proof.
  split.
  - intros [[] i]; unfold IsValidWallLocation, IsValidSegmentIndex; simpl;
      apply IsValidIndex_false; unfold Num; simpl; lia.
  - intros World Class Room Hspawn Htags Hauthored L Hv.
    destruct (SpawnActor_Ok_inv _ _ _ Hspawn) as (Hdoors & _ & _ & _ & Hwalls).
    rewrite HasDoorAtLocation_unfold, Hv.
    destruct (SlotAt_valid _ _ Hv) as [Slot HSlot]. rewrite HSlot.
    destruct (InitializeComponent_slots World _ _ _ Slot
                (Hwalls (WallDirection L)) (Htags _) HSlot)
      as (Segment & Component & Hin & Hcast & ->).
    f_equal. apply Contains_false. rewrite Hdoors. by eapply Hauthored.
Qed.

Lemma elem_of_TaggedSegments (n : nat) (Mesh : UStaticMeshPtr) (Segment : USceneComponent) :
  Segment ∈ TaggedSegments n Mesh ->
  AsStaticMeshComponent Segment = Some {| StaticMesh := Mesh |}.
Proof. by intros (i & -> & _)%list_elem_of_fmap. Qed.

Lemma fresh_room_has_no_doors_witness :
  exists Room,
    SpawnActor GameWorld (UniformClass [SM_Door] [SM_Wall] 4 3 SM_Wall) = Ok Room /\
    forall L, IsValidWallLocation Room L = true ->
              HasDoorAtLocation Room L = Ok false.
Proof.
  eexists. split; [by vm_compute|].
  apply (proj2 fresh_room_has_no_doors GameWorld
           (UniformClass [SM_Door] [SM_Wall] 4 3 SM_Wall)).
  - by vm_compute.
  - intros []; unfold WellTagged; vm_compute; reflexivity.
  - intros D Segment Component Hin Hcast.
    assert (AsStaticMeshComponent Segment = Some {| StaticMesh := SM_Wall |})
      as Heq by (destruct D; exact (elem_of_TaggedSegments _ _ _ Hin)).
    rewrite Heq in Hcast. injection Hcast as <-. simpl.
    by intros [?|[]%elem_of_nil]%elem_of_cons.
Defined.

(** ** C4: valid locations *)

Lemma HasFootprint_Num (Room : ADungeonRoom) (W L : Z) (Direction : EDirection) :
  HasFootprint Room W L ->
  Num (m_SegmentMeshes (GetWall Room Direction)) = SegmentCount W L Direction.
Proof. intros (?&?&?&?). by destruct Direction. Qed.

Lemma IsValidWallLocation_bounds (Room : ADungeonRoom) (W L : Z) (Location : FWallLocation) :
  HasFootprint Room W L ->
  IsValidWallLocation Room Location = true <->
  0 <= SegmentIndex Location < SegmentCount W L (WallDirection Location).
Proof.
  intros Hf. unfold IsValidWallLocation, IsValidSegmentIndex.
  by rewrite IsValidIndex_true, (HasFootprint_Num Room W L _ Hf).
Qed.

(** C4. In a room of footprint (W, L), [IsValidWallLocation] is a total
    boolean function: true iff the index is in [0, W) on the North and
    South walls and in [0, L) on the East and West walls, false for every
    index out of that range. *)
Theorem IsValidWallLocation_footprint (Room : ADungeonRoom) (W L : Z)
    (Location : FWallLocation) :
  HasFootprint Room W L ->
  (IsValidWallLocation Room Location = true <->
     0 <= SegmentIndex Location < SegmentCount W L (WallDirection Location)) /\
  (IsValidWallLocation Room Location = false <->
     SegmentIndex Location < 0 \/
     SegmentCount W L (WallDirection Location) <= SegmentIndex Location).
Proof.
  intros Hf. unfold IsValidWallLocation, IsValidSegmentIndex.
  rewrite IsValidIndex_true, IsValidIndex_false.
  by rewrite (HasFootprint_Num Room W L (WallDirection Location) Hf).
Qed.

Lemma IsValidWallLocation_footprint_witness :
  exists Room,
    SpawnActor GameWorld (UniformClass [SM_Door] [SM_Wall] 4 3 SM_Wall) = Ok Room /\
    IsValidWallLocation Room (At_North 3) = true /\
    IsValidWallLocation Room (At_North 4) = false /\
    IsValidWallLocation Room (At_East 2) = true /\
    IsValidWallLocation Room (At_East 3) = false /\
    IsValidWallLocation Room (At_West (-1)) = false.
Proof.
  exists (UniformRoom [SM_Door] [SM_Wall] 4 3 SM_Wall).
  set (Room := UniformRoom [SM_Door] [SM_Wall] 4 3 SM_Wall).
  assert (Hspawn : SpawnActor GameWorld (UniformClass [SM_Door] [SM_Wall] 4 3 SM_Wall)
                     = Ok Room) by reflexivity.
  assert (Hf : HasFootprint Room 4 3)
    by (apply (SpawnActor_HasFootprint _ _ _ 4 3 Hspawn); reflexivity).
  split; [exact Hspawn|]. repeat apply conj.
  - apply (IsValidWallLocation_footprint Room 4 3 (At_North 3) Hf). simpl. lia.
  - apply (IsValidWallLocation_footprint Room 4 3 (At_North 4) Hf). simpl. lia.
  - apply (IsValidWallLocation_footprint Room 4 3 (At_East 2) Hf). simpl. lia.
  - apply (IsValidWallLocation_footprint Room 4 3 (At_East 3) Hf). simpl. lia.
  - apply (IsValidWallLocation_footprint Room 4 3 (At_West (-1)) Hf). simpl. lia.
Defined.

(** ** C5: the largest rooms of a theme *)




(** ** C6: existence of a specification *)

(** C6. On the database of a non-empty scan, [DoesAssetExistWithSpecs]
    fails with [InvalidSpecification] exactly when the queried width or
    length is not positive; otherwise it returns a boolean, which is true
    iff some scanned asset has exactly the queried specification. *)
Theorem DoesAssetExistWithSpecs_spec (RoomAssets : list FAssetData)
    (Query : FDungeonRoomSpecs) :
  RoomAssets <> [] ->
  exists Db,
    InitializeDatabase RoomAssets = Ok Db /\
    (DoesAssetExistWithSpecs Db Query = Err InvalidSpecification <->
       Width (Dimensions Query) <= 0 \/ Length (Dimensions Query) <= 0) /\
    (0 < Width (Dimensions Query) -> 0 < Length (Dimensions Query) ->
       exists Found,
         DoesAssetExistWithSpecs Db Query = Ok Found /\
         (Found = true <-> exists A, A ∈ RoomAssets /\ GetRoomSpecs A = Query)).
Proof.
  intros Hne. eexists. split; [by apply InitializeDatabase_Ok|].
  unfold DoesAssetExistWithSpecs. rewrite !Z.gtb_ltb. split.
  - destruct (Z.ltb_spec 0 (Width (Dimensions Query)));
      destruct (Z.ltb_spec 0 (Length (Dimensions Query))); simpl;
      split; (done || lia || by intros [|]; lia || by auto).
  - intros HW%Z.ltb_lt HL%Z.ltb_lt. rewrite HW, HL. simpl.
    eexists. split; [done|].
    rewrite bool_decide_eq_true, m_PathsByRoomSpecs_foldl. simpl.
    rewrite lookup_empty. split.
    + intros Hsome.
      destruct (WithSpecs Query RoomAssets) as [|A Rest] eqn:Hfilter.
      { by destruct Hsome. }
      assert (A ∈ WithSpecs Query RoomAssets) as [? ?]%list_elem_of_filter
        by (rewrite Hfilter; left).
      by exists A.
    + intros (A & HA & Hspecs).
      assert (A ∈ WithSpecs Query RoomAssets) as Hin
        by (by apply list_elem_of_filter).
      destruct (WithSpecs Query RoomAssets); [by apply elem_of_nil in Hin|].
      by eexists.
Qed.

Lemma DoesAssetExistWithSpecs_spec_witness :
  exists Db,
    InitializeDatabase ExampleCatalog = Ok Db /\
    DoesAssetExistWithSpecs Db (Specs Crypt 4 4) = Ok true /\
    DoesAssetExistWithSpecs Db (Specs Crypt 5 4) = Ok false /\
    DoesAssetExistWithSpecs Db (Specs Crypt 0 4) = Err InvalidSpecification /\
    DoesAssetExistWithSpecs Db (Specs Crypt 4 (-1)) = Err InvalidSpecification.
Proof.
  destruct (DoesAssetExistWithSpecs_spec ExampleCatalog (Specs Crypt 4 4))
    as (Db & HDb & _ & Hyes); [done|].
  destruct (DoesAssetExistWithSpecs_spec ExampleCatalog (Specs Crypt 5 4))
    as (Db1 & HDb1 & _ & Hno); [done|].
  destruct (DoesAssetExistWithSpecs_spec ExampleCatalog (Specs Crypt 0 4))
    as (Db2 & HDb2 & Hzero & _); [done|].
  destruct (DoesAssetExistWithSpecs_spec ExampleCatalog (Specs Crypt 4 (-1)))
    as (Db3 & HDb3 & Hneg & _); [done|].
  rewrite HDb in HDb1, HDb2, HDb3.
  injection HDb1 as <-. injection HDb2 as <-. injection HDb3 as <-.
  exists Db. split; [done|]. repeat apply conj.
  - destruct Hyes as (Found & -> & HFound); [simpl; lia | simpl; lia |].
    f_equal. apply HFound. exists (Asset Crypt 4 4 "a"). split; [left | done].
  - destruct Hno as (Found & -> & HFound); [simpl; lia | simpl; lia |].
    f_equal. destruct Found; [|done].
    destruct (proj1 HFound eq_refl) as (A & HA & Hspecs).
    vm_compute in HA. set_unfold in HA.
    destruct HA as [->|[->|[->|[]]]]; discriminate Hspecs.
  - apply Hzero. left. simpl. lia.
  - apply Hneg. right. simpl. lia.
Defined.

(** ** C7: the assets of a specification *)

(** C7. On the database of a non-empty scan, [GetAssetPaths] fails with
    [SpecificationNotFound] when no scanned asset has the queried
    specification; otherwise it returns the paths of exactly the assets
    that have it, in the order of the scan, and that list is not empty. *)
Theorem GetAssetPaths_spec (RoomAssets : list FAssetData) (Query : FDungeonRoomSpecs) :
  RoomAssets <> [] ->
  exists Db,
    InitializeDatabase RoomAssets = Ok Db /\
    (WithSpecs Query RoomAssets = [] ->
       GetAssetPaths Db Query = Err SpecificationNotFound) /\
    (WithSpecs Query RoomAssets <> [] ->
       GetAssetPaths Db Query = Ok (GetSoftObjectPath <$> WithSpecs Query RoomAssets) /\
       GetSoftObjectPath <$> WithSpecs Query RoomAssets <> []).
Proof.
  intros Hne. eexists. split; [by apply InitializeDatabase_Ok|].
  unfold GetAssetPaths, FindChecked. rewrite m_PathsByRoomSpecs_foldl. simpl.
  rewrite lookup_empty. split.
  - by intros ->.
  - intros Hsome. split; [by destruct (WithSpecs Query RoomAssets)|].
    by intros ?%fmap_nil_inv.
Qed.

Lemma GetAssetPaths_spec_witness :
  exists Db,
    InitializeDatabase MixedCatalog = Ok Db /\
    GetAssetPaths Db (Specs Crypt 6 2) = Ok ["wide"; "wide2"] /\
    GetAssetPaths Db (Specs Crypt 6 5) = Err SpecificationNotFound.
Proof.
  destruct (GetAssetPaths_spec MixedCatalog (Specs Crypt 6 2))
    as (Db & HDb & _ & Hsome); [done|].
  destruct (GetAssetPaths_spec MixedCatalog (Specs Crypt 6 5))
    as (Db' & HDb' & Hnone & _); [done|].
  rewrite HDb in HDb'. injection HDb' as <-.
  exists Db. split; [done|]. split.
  - by apply Hsome.
  - by apply Hnone.
Defined.
(** ** C8: Spawn adds the requested doors *)

(** C8. When the template spawns a fresh room and the requested door
    locations are pairwise distinct, valid in the fresh room and without a
    door there, [Spawn] returns the room obtained by applying [AddDoor] to
    each listed location in turn, and [HasDoorAtLocation] is true at each
    of them. *)
Theorem Spawn_adds_doors (Seeds : nat -> nat) (SpawnInfo : FSpawnInfo)
    (World : UWorld) (Fresh : ADungeonRoom) :
  SpawnActor World (LoadedAsset SpawnInfo) = Ok Fresh ->
  NoDup (DoorLocations SpawnInfo) ->
  (forall L, L ∈ DoorLocations SpawnInfo ->
     IsValidWallLocation Fresh L = true /\ HasDoorAtLocation Fresh L = Ok false) ->
  exists Room,
    Spawn Seeds SpawnInfo World = Ok Room /\
    AddDoors Seeds 0 (DoorLocations SpawnInfo) Fresh = Ok Room /\
    forall L, L ∈ DoorLocations SpawnInfo -> HasDoorAtLocation Room L = Ok true.
Proof.
  intros Hspawn Hnd Hfree.
  destruct (SpawnActor_Ok_inv _ _ _ Hspawn) as (_ & _ & Hdoors & _).
  destruct (AddDoors_Ok Seeds (DoorLocations SpawnInfo) 0%nat Fresh Hdoors Hnd)
    as (Room & Hrun & _ & _ & Hset & _).
  { intros L HL. by apply Hfree. }
  exists Room. split; [|done].
  unfold Spawn. by rewrite Hspawn.
Qed.

Lemma Spawn_adds_doors_witness :
  exists Room,
    Spawn (fun n => n) TestSpawnInfo GameWorld = Ok Room /\
    AddDoors (fun n => n) 0 (DoorLocations TestSpawnInfo)
      (UniformRoom [SM_Door; SM_Arch] [SM_Wall] 4 4 SM_Wall) = Ok Room /\
    forall L, L ∈ DoorLocations TestSpawnInfo -> HasDoorAtLocation Room L = Ok true.
Proof.
  apply (Spawn_adds_doors (fun n => n) TestSpawnInfo GameWorld
           (UniformRoom [SM_Door; SM_Arch] [SM_Wall] 4 4 SM_Wall)).
  - by vm_compute.
  - apply (bool_decide_unpack _). by vm_compute.
  - intros L HL. simpl in HL. set_unfold in HL.
    destruct HL as [->|[->|[->|[->|[]]]]]; split; reflexivity.
Defined.

(** ** C9: doors elsewhere are unchanged *)

(** The four doors of the scenario, added to any door-free 4x3 room with
    a non-empty door palette. *)
Lemma scenario_doors (Seed0 Seed1 Seed2 Seed3 : nat) (Room : ADungeonRoom) :
  HasFootprint Room 4 3 ->
  m_DoorMeshes Room <> [] ->
  (forall L, IsValidWallLocation Room L = true ->
             HasDoorAtLocation Room L = Ok false) ->
  exists Room4,
    (Room1 ← AddDoor Seed0 (At_North 0) Room;
     Room2 ← AddDoor Seed1 (At_South 2) Room1;
     Room3 ← AddDoor Seed2 (At_East 1) Room2;
     AddDoor Seed3 (At_West 0) Room3) = Ok Room4 /\
    (forall L, L ∈ ScenarioDoors -> HasDoorAtLocation Room4 L = Ok true) /\
    (forall L, IsValidWallLocation Room4 L = true -> L ∉ ScenarioDoors ->
               HasDoorAtLocation Room4 L = Ok false) /\
    length (filter (fun L => L ∉ ScenarioDoors) (WallLocations Room4)) = 10%nat.
Proof.
  intros Hf Hdoors Hfree.
  set (Seeds := fun n : nat =>
    match n with
    | O => Seed0 | 1%nat => Seed1 | 2%nat => Seed2 | _ => Seed3
    end).
  assert (Hvalid : forall L, L ∈ ScenarioDoors -> IsValidWallLocation Room L = true).
  { intros L HL.
    apply (IsValidWallLocation_bounds Room 4 3 L Hf).
    unfold ScenarioDoors in HL. set_unfold in HL.
    destruct HL as [->|[->|[->|[->|[]]]]]; simpl; lia. }
  destruct (AddDoors_Ok Seeds ScenarioDoors 0%nat Room)
    as (Room4 & Hrun & _ & Hlen & Hset & Hkeep).
  - done.
  - apply (bool_decide_unpack _). by vm_compute.
  - intros L HL. by apply Hfree, Hvalid.
  - assert (Hf4 : HasFootprint Room4 4 3).
    { destruct Hf as (?&?&?&?).
      pose proof (Hlen North). pose proof (Hlen South).
      pose proof (Hlen East). pose proof (Hlen West).
      unfold HasFootprint, Num in *. simpl in *. lia. }
    exists Room4. repeat apply conj.
    + simpl in Hrun.
      destruct (AddDoor Seed0 _ Room) as [Room1|]; simpl in *; [|done].
      destruct (AddDoor Seed1 _ Room1) as [Room2|]; simpl in *; [|done].
      destruct (AddDoor Seed2 _ Room2) as [Room3|]; simpl in *; [|done].
      by destruct (AddDoor Seed3 _ Room3).
    + done.
    + intros L Hv HL. rewrite Hkeep by done. apply Hfree.
      apply (IsValidWallLocation_bounds Room 4 3 L Hf).
      by apply (IsValidWallLocation_bounds Room4 4 3 L Hf4).
    + rewrite (WallLocations_footprint Room4 4 3 Hf4). by vm_compute.
Qed.

(** C9, as stated, fails in its count: a 4x3 room has 4 + 4 + 3 + 3 = 14
    valid locations, so ten of them, not eight, remain without a door
    after the four doors of the scenario were added. And a room spawned
    from a template that authors a door keeps that door: it is reported at
    a fifth location. *)
Lemma scenario_counterexample :
  (exists Room Room4,
     SpawnActor GameWorld (UniformClass [SM_Door] [SM_Wall] 4 3 SM_Wall) = Ok Room /\
     HasFootprint Room 4 3 /\
     (Room1 ← AddDoor 0 (At_North 0) Room;
      Room2 ← AddDoor 0 (At_South 2) Room1;
      Room3 ← AddDoor 0 (At_East 1) Room2;
      AddDoor 0 (At_West 0) Room3) = Ok Room4 /\
     filter (fun L => HasDoorAtLocation Room4 L = Ok true) (WallLocations Room4)
       = ScenarioDoors /\
     filter (fun L => HasDoorAtLocation Room4 L = Ok false) (WallLocations Room4)
       = [At_North 1; At_North 2; At_North 3;
          At_South 0; At_South 1; At_South 3;
          At_East 0; At_East 2;
          At_West 1; At_West 2] /\
     length (filter (fun L => L ∉ ScenarioDoors) (WallLocations Room4)) <> 8%nat) /\
  (exists Room Room4,
     SpawnActor GameWorld DoorAtNorth1Asset = Ok Room /\
     HasFootprint Room 4 3 /\
     (Room1 ← AddDoor 0 (At_North 0) Room;
      Room2 ← AddDoor 0 (At_South 2) Room1;
      Room3 ← AddDoor 0 (At_East 1) Room2;
      AddDoor 0 (At_West 0) Room3) = Ok Room4 /\
     (At_North 1 ∉ ScenarioDoors) /\
     HasDoorAtLocation Room4 (At_North 1) = Ok true).
Proof.
  split.
  - eexists _, _. split; [by vm_compute|]. split; [by vm_compute|].
    split; [by vm_compute|]. by vm_compute.
  - eexists _, _. split; [by vm_compute|]. split; [by vm_compute|].
    split; [by vm_compute|]. split; [|by vm_compute].
    apply (bool_decide_unpack _). by vm_compute.
Qed.

(** C9 (amended). A successful [AddDoor] or [RemoveDoor] at a location
    leaves [HasDoorAtLocation] unchanged at every other location. In
    particular, in a spawned 4x3 room that has no door, adding doors at
    North 0, South 2, East 1 and West 0 succeeds; afterwards those four
    locations have a door and the remaining ten valid locations have
    none. *)
Theorem doors_elsewhere_unchanged :
  (forall (Seed : nat) (Room Room' : ADungeonRoom) (L L2 : FWallLocation),
     L <> L2 ->
     AddDoor Seed L Room = Ok Room' \/ RemoveDoor Seed L Room = Ok Room' ->
     HasDoorAtLocation Room' L2 = HasDoorAtLocation Room L2) /\
  (forall (Seed0 Seed1 Seed2 Seed3 : nat) (World : UWorld) (Class : UClass)
          (Room : ADungeonRoom),
     SpawnActor World Class = Ok Room ->
     HasFootprint Room 4 3 ->
     (forall L, IsValidWallLocation Room L = true ->
                HasDoorAtLocation Room L = Ok false) ->
     exists Room4,
       (Room1 ← AddDoor Seed0 (At_North 0) Room;
        Room2 ← AddDoor Seed1 (At_South 2) Room1;
        Room3 ← AddDoor Seed2 (At_East 1) Room2;
        AddDoor Seed3 (At_West 0) Room3) = Ok Room4 /\
       (forall L, L ∈ ScenarioDoors -> HasDoorAtLocation Room4 L = Ok true) /\
       (forall L, IsValidWallLocation Room4 L = true -> L ∉ ScenarioDoors ->
                  HasDoorAtLocation Room4 L = Ok false) /\
       length (filter (fun L => L ∉ ScenarioDoors) (WallLocations Room4)) = 10%nat).
Proof.
  split.
  - intros Seed Room Room' L L2 Hne [Hadd|Hrem].
    + by eapply AddDoor_frame.
    + by eapply RemoveDoor_frame.
  - intros Seed0 Seed1 Seed2 Seed3 World Class Room Hspawn Hf Hfree.
    destruct (SpawnActor_Ok_inv _ _ _ Hspawn) as (_ & _ & Hdoors & _).
    by apply scenario_doors.
Qed.

Lemma HasDoorAtLocation_UniformRoom (DoorMeshes WallMeshes : list UStaticMeshPtr)
    (W L : nat) (Mesh : UStaticMeshPtr) (Location : FWallLocation) :
  IsValidWallLocation (UniformRoom DoorMeshes WallMeshes W L Mesh) Location = true ->
  HasDoorAtLocation (UniformRoom DoorMeshes WallMeshes W L Mesh) Location
    = Ok (Contains DoorMeshes Mesh).
Proof.
  intros Hv. rewrite HasDoorAtLocation_unfold, Hv.
  destruct (SlotAt_valid _ _ Hv) as [Slot HSlot]. rewrite HSlot.
  unfold SlotAt in HSlot.
  destruct Location as [[] i]; simpl in HSlot;
    by apply lookup_replicate in HSlot as [-> _].
Qed.

Lemma doors_elsewhere_unchanged_witness :
  let Room := UniformRoom [SM_Door; SM_Arch] [SM_Wall] 4 3 SM_Wall in
  exists Room4,
    (Room1 ← AddDoor 0 (At_North 0) Room;
     Room2 ← AddDoor 1 (At_South 2) Room1;
     Room3 ← AddDoor 2 (At_East 1) Room2;
     AddDoor 3 (At_West 0) Room3) = Ok Room4 /\
    (forall L, L ∈ ScenarioDoors -> HasDoorAtLocation Room4 L = Ok true) /\
    (forall L, IsValidWallLocation Room4 L = true -> L ∉ ScenarioDoors ->
               HasDoorAtLocation Room4 L = Ok false) /\
    length (filter (fun L => L ∉ ScenarioDoors) (WallLocations Room4)) = 10%nat.
Proof.
  intros Room.
  assert (Hf : HasFootprint Room 4 3) by (repeat split; reflexivity).
  apply (proj2 doors_elsewhere_unchanged 0%nat 1%nat 2%nat 3%nat GameWorld
           (UniformClass [SM_Door; SM_Arch] [SM_Wall] 4 3 SM_Wall) Room).
  - by vm_compute.
  - exact Hf.
  - intros L Hv. exact (HasDoorAtLocation_UniformRoom _ _ _ _ _ L Hv).
Defined.

(** ** C10: the palettes are checked first *)

(** C10. With an empty door palette [AddDoor] fails at every location,
    whatever its validity and door state, with the missing-door-meshes
    assertion, which is none of the location errors; likewise
    [RemoveDoor] with an empty wall palette. [PostActorCreated] makes the
    same two checks. *)
Theorem AddDoor_RemoveDoor_need_meshes (Seed : nat) (Room : ADungeonRoom)
    (L : FWallLocation) :
  (m_DoorMeshes Room = [] ->
     AddDoor Seed L Room = Err MissingDoorMeshes /\
     AddDoor Seed L Room <> Err InvalidLocation /\
     AddDoor Seed L Room <> Err DoorAlreadyPresent) /\
  (m_WallMeshes Room = [] ->
     RemoveDoor Seed L Room = Err MissingWallMeshes /\
     RemoveDoor Seed L Room <> Err InvalidLocation /\
     RemoveDoor Seed L Room <> Err NoDoorPresent) /\
  (PostActorCreated Room = Ok tt <->
     m_DoorMeshes Room <> [] /\ m_WallMeshes Room <> []).
Proof.
  repeat apply conj.
  - intros He. by rewrite AddDoor_unfold, He.
  - intros He. by rewrite RemoveDoor_unfold, He.
  - unfold PostActorCreated.
    destruct (0 <? Num (m_DoorMeshes Room)) eqn:Hd; simpl;
      [apply Num_pos in Hd | apply Num_not_pos in Hd];
      (destruct (0 <? Num (m_WallMeshes Room)) eqn:Hw; simpl;
        [apply Num_pos in Hw | apply Num_not_pos in Hw]); done.
  - intros [Hd%Num_pos Hw%Num_pos]. unfold PostActorCreated. by rewrite Hd, Hw.
Qed.

Lemma AddDoor_RemoveDoor_need_meshes_witness :
  AddDoor 0 (At_North 0) (UniformRoom [] [SM_Wall] 4 3 SM_Wall)
    = Err MissingDoorMeshes /\
  AddDoor 0 (At_North 9) (UniformRoom [] [SM_Wall] 4 3 SM_Wall)
    = Err MissingDoorMeshes /\
  RemoveDoor 0 (At_North 0) (UniformRoom [SM_Door] [] 4 3 SM_Door)
    = Err MissingWallMeshes.
Proof.
  repeat apply conj.
  - by apply (AddDoor_RemoveDoor_need_meshes 0 (UniformRoom [] [SM_Wall] 4 3 SM_Wall)
                (At_North 0)).
  - by apply (AddDoor_RemoveDoor_need_meshes 0 (UniformRoom [] [SM_Wall] 4 3 SM_Wall)
                (At_North 9)).
  - by apply (AddDoor_RemoveDoor_need_meshes 0 (UniformRoom [SM_Door] [] 4 3 SM_Door)
                (At_North 0)).
Defined.


(** * Further properties of the code *)

(** ** Initialising a wall *)

Lemma AssignSegments_cons (WallSegment : USceneComponent) (Rest : list USceneComponent)
    (SegmentMeshes : list (option UStaticMeshComponent)) :
  AssignSegments (WallSegment :: Rest) SegmentMeshes =
    match CheckSegment (length SegmentMeshes) WallSegment with
    | Ok (i, Component) => AssignSegments Rest (<[i := Some Component]> SegmentMeshes)
    | Err e => Err e
    end.
Proof.
  unfold CheckSegment. simpl.
  destruct (AsStaticMeshComponent WallSegment); [|done]. simpl.
  destruct (GetIndexOfSegment WallSegment) as [Index|]; [|done]. simpl.
  unfold IsValidIndex, Num.
  by destruct ((0 <=? Index) && (Index <? Z.of_nat (length SegmentMeshes))).
Qed.

Lemma CheckSegment_Ok_inv (Count : nat) (WallSegment : USceneComponent) (i : nat)
    (Component : UStaticMeshComponent) :
  CheckSegment Count WallSegment = Ok (i, Component) ->
  AsStaticMeshComponent WallSegment = Some Component /\
  GetIndexOfSegment WallSegment = Ok (Z.of_nat i) /\ (i < Count)%nat.
Proof.
  unfold CheckSegment.
  destruct (AsStaticMeshComponent WallSegment) as [c|]; [|done]. simpl.
  destruct (GetIndexOfSegment WallSegment) as [Index|]; [|done]. simpl.
  destruct ((0 <=? Index) && (Index <? Z.of_nat Count)) eqn:Hrange; [|done].
  simpl. intros [= <- <-]. apply andb_true_iff in Hrange as [H0 H1].
  apply Z.leb_le in H0. apply Z.ltb_lt in H1.
  split; [done|]. split; [f_equal; lia | lia].
Qed.

Lemma AssignSegments_Ok_iff (WallSegments : list USceneComponent) :
  forall SegmentMeshes,
    (exists SegmentMeshes', AssignSegments WallSegments SegmentMeshes = Ok SegmentMeshes') <->
    (forall Segment, Segment ∈ WallSegments ->
       exists Assigned, CheckSegment (length SegmentMeshes) Segment = Ok Assigned).
Proof.
  induction WallSegments as [|Segment Rest IH]; intros ms.
  - split; [by intros _ ? ?%elem_of_nil | by eexists].
  - rewrite AssignSegments_cons. split.
    + intros [ms' Hrun] S' HS'.
      destruct (CheckSegment (length ms) Segment) as [[i c]|] eqn:Hcheck; [|done].
      apply elem_of_cons in HS' as [->|HS']; [by eexists|].
      assert (Hsome : exists ms', AssignSegments Rest (<[i:=Some c]> ms) = Ok ms')
        by eauto.
      pose proof (proj1 (IH _) Hsome) as Hrest.
      rewrite length_insert in Hrest. by apply Hrest.
    + intros Hall. destruct (Hall Segment) as [[i c] ->]; [by left|].
      apply IH. intros S' HS'. rewrite length_insert. apply Hall. by right.
Qed.

Lemma AssignSegments_first_error (Good : list USceneComponent) (Bad : USceneComponent)
    (Rest : list USceneComponent) (e : Error) :
  forall SegmentMeshes,
    (forall Segment, Segment ∈ Good ->
       exists Assigned, CheckSegment (length SegmentMeshes) Segment = Ok Assigned) ->
    CheckSegment (length SegmentMeshes) Bad = Err e ->
    AssignSegments (Good ++ Bad :: Rest) SegmentMeshes = Err e.
Proof.
  induction Good as [|Segment Good IH]; intros ms Hgood Hbad; simpl app.
  - by rewrite AssignSegments_cons, Hbad.
  - rewrite AssignSegments_cons.
    destruct (Hgood Segment) as [[i c] ->]; [by left|].
    apply IH; rewrite length_insert; [|done].
    intros S' HS'. apply Hgood. by right.
Qed.

Lemma AssignSegments_LastTagged (WallSegments : list USceneComponent) (i : nat) :
  forall SegmentMeshes SegmentMeshes',
    AssignSegments WallSegments SegmentMeshes = Ok SegmentMeshes' ->
    SegmentMeshes' !! i =
      match LastTagged WallSegments i with
      | Some Component => Some (Some Component)
      | None => SegmentMeshes !! i
      end.
Proof.
  induction WallSegments as [|Segment Rest IH]; intros ms ms'.
  - by intros [= ->].
  - rewrite AssignSegments_cons.
    destruct (CheckSegment (length ms) Segment) as [[j c]|] eqn:Hcheck; [|done].
    intros Hrun. rewrite (IH _ _ Hrun). simpl.
    destruct (LastTagged Rest i); [done|].
    apply CheckSegment_Ok_inv in Hcheck as (Hcast & Htag & Hj).
    rewrite Htag. destruct (decide (Ok (Z.of_nat j) = Ok (Z.of_nat i))) as [Heq|Hne].
    + injection Heq as Heq. apply Nat2Z.inj in Heq as ->.
      rewrite Hcast. by apply list_lookup_insert_eq.
    + apply list_lookup_insert_ne. by intros ->.
Qed.

Lemma LastTagged_Some (WallSegments : list USceneComponent) (i : nat)
    (Component : UStaticMeshComponent) :
  LastTagged WallSegments i = Some Component ->
  exists Segment, Segment ∈ WallSegments /\
                  GetIndexOfSegment Segment = Ok (Z.of_nat i) /\
                  AsStaticMeshComponent Segment = Some Component.
Proof.
  induction WallSegments as [|Segment Rest IH]; simpl; [done|].
  destruct (LastTagged Rest i) as [c|].
  - intros [= ->]. destruct IH as (S' & ? & ? & ?); [done|].
    exists S'. split; [by right | done].
  - destruct (decide _) as [Htag|]; [|done].
    intros Hcast. exists Segment. split; [by left | done].
Qed.

(** The checks of the loop on one child, in the order of the source: the
    cast, the presence of a tag, the text of the first tag, and the range
    check of the array. *)
Lemma CheckSegment_unfold (Count : nat) (WallSegment : USceneComponent) :
  CheckSegment Count WallSegment =
    match AsStaticMeshComponent WallSegment with
    | None => Err NotAStaticMesh
    | Some Component =>
        match ComponentTags WallSegment with
        | [] => Err MissingIndexTag
        | Tag :: _ =>
            if IsNumeric Tag then
              if (0 <=? Atoi Tag) && (Atoi Tag <? Z.of_nat Count)
              then Ok (Z.to_nat (Atoi Tag), Component)
              else Err ArrayIndexOutOfBounds
            else Err InvalidIndexTag
        end
    end.
Proof.
  unfold CheckSegment, GetIndexOfSegment.
  destruct (AsStaticMeshComponent WallSegment) as [Component|]; [|done]. simpl.
  destruct (ComponentTags WallSegment) as [|Tag Others]; [done|].
  assert (Hnum : (0 <? Num (Tag :: Others)) = true)
    by (apply Z.ltb_lt; unfold Num; simpl; lia).
  assert (Hat : At (Tag :: Others) 0 = Ok Tag).
  { unfold At, IsValidIndex. rewrite Hnum. reflexivity. }
  rewrite Hnum, Hat. simpl.
  destruct (IsNumeric Tag); [|done]. simpl.
  by destruct ((0 <=? Atoi Tag) && (Atoi Tag <? Z.of_nat Count)).
Qed.

Lemma CheckSegment_Ok_iff (Count : nat) (WallSegment : USceneComponent) :
  (exists Assigned, CheckSegment Count WallSegment = Ok Assigned) <->
  IndexedSegment Count WallSegment.
Proof.
  rewrite CheckSegment_unfold. unfold IndexedSegment. split.
  - intros [Assigned Hcheck].
    destruct (AsStaticMeshComponent WallSegment) as [Component|]; [|done].
    destruct (ComponentTags WallSegment) as [|Tag Others]; [done|].
    destruct (IsNumeric Tag) eqn:Hnumeric; [|done].
    destruct ((0 <=? Atoi Tag) && (Atoi Tag <? Z.of_nat Count)) eqn:Hrange; [|done].
    apply andb_true_iff in Hrange as [H0%Z.leb_le H1%Z.ltb_lt].
    exists Component, Tag, Others. by repeat split.
  - intros (Component & Tag & Others & -> & -> & -> & H0 & H1).
    apply Z.leb_le in H0. apply Z.ltb_lt in H1. rewrite H0, H1. by eexists.
Qed.

(** X1. [InitializeSegmentMeshes] succeeds exactly when every child is a
    static mesh component that has a tag and whose first tag is numeric
    and reads as an index of [0, n), [n] being the number of children;
    the wall then has [n] slots. Otherwise it fails at the first child
    that is not so, with the assertion that this child trips: that it is
    not a static mesh; else that its index tag is missing, when it has no
    tag; else that its index tag is invalid, when its first tag is not
    numeric; else the range check of the array, when its first tag does
    not read as an index of [0, n). Tags after the first are not read. *)
Theorem InitializeSegmentMeshes_outcome (WallSegments : list USceneComponent) :
  ((exists Wall, InitializeSegmentMeshes WallSegments = Ok Wall) <->
   (forall Segment, Segment ∈ WallSegments ->
      IndexedSegment (length WallSegments) Segment)) /\
  (forall Wall, InitializeSegmentMeshes WallSegments = Ok Wall ->
     length (m_SegmentMeshes Wall) = length WallSegments) /\
  (forall Good Bad Rest,
     WallSegments = Good ++ Bad :: Rest ->
     (forall Segment, Segment ∈ Good ->
        IndexedSegment (length WallSegments) Segment) ->
     (AsStaticMeshComponent Bad = None ->
        InitializeSegmentMeshes WallSegments = Err NotAStaticMesh) /\
     (AsStaticMeshComponent Bad <> None -> ComponentTags Bad = [] ->
        InitializeSegmentMeshes WallSegments = Err MissingIndexTag) /\
     (forall Tag Others,
        AsStaticMeshComponent Bad <> None -> ComponentTags Bad = Tag :: Others ->
        (IsNumeric Tag = false ->
           InitializeSegmentMeshes WallSegments = Err InvalidIndexTag) /\
        (IsNumeric Tag = true ->
         ~ (0 <= Atoi Tag < Z.of_nat (length WallSegments)) ->
           InitializeSegmentMeshes WallSegments = Err ArrayIndexOutOfBounds))).
Proof.
  unfold InitializeSegmentMeshes. split; [split|split].
  - intros [Wall HWall].
    destruct (AssignSegments _ _) as [ms|] eqn:Hrun; [|done].
    assert (Hsome : exists ms', AssignSegments WallSegments
                       (replicate (length WallSegments) None) = Ok ms') by eauto.
    pose proof (proj1 (AssignSegments_Ok_iff _ _) Hsome) as Hall.
    rewrite length_replicate in Hall.
    intros Segment HSegment. apply CheckSegment_Ok_iff. by apply Hall.
  - intros Hall.
    destruct (proj2 (AssignSegments_Ok_iff WallSegments
                       (replicate (length WallSegments) None))) as [ms ->].
    + rewrite length_replicate. intros Segment HSegment.
      apply CheckSegment_Ok_iff. by apply Hall.
    + by eexists.
  - intros Wall.
    destruct (AssignSegments _ _) as [ms|] eqn:Hrun; [|done].
    simpl. intros [= <-]. simpl.
    by rewrite (AssignSegments_length _ _ _ Hrun), length_replicate.
  - intros Good Bad Rest Heq Hgood.
    assert (Hstop : forall e,
      CheckSegment (length WallSegments) Bad = Err e ->
      AssignSegments WallSegments (replicate (length WallSegments) None)
        ≫= (fun SegmentMeshes => Ok {| m_SegmentMeshes := SegmentMeshes |})
      = Err e).
    { intros e Hbad. rewrite Heq at 1.
      rewrite (AssignSegments_first_error Good Bad Rest e); [done| |];
        rewrite length_replicate; [|done].
      intros Segment HSegment. apply CheckSegment_Ok_iff. by apply Hgood. }
    split; [|split].
    + intros Hcast. apply Hstop. by rewrite CheckSegment_unfold, Hcast.
    + intros Hcast Htags. apply Hstop. rewrite CheckSegment_unfold, Htags.
      by destruct (AsStaticMeshComponent Bad).
    + intros Tag Others Hcast Htags. split.
      * intros Hnumeric. apply Hstop.
        rewrite CheckSegment_unfold, Htags, Hnumeric.
        by destruct (AsStaticMeshComponent Bad).
      * intros Hnumeric Hrange. apply Hstop.
        rewrite CheckSegment_unfold, Htags, Hnumeric.
        destruct (AsStaticMeshComponent Bad); [|done].
        destruct ((0 <=? Atoi Tag) && (Atoi Tag <? Z.of_nat (length WallSegments)))
          eqn:Hin; [|done].
        apply andb_true_iff in Hin as [H0%Z.leb_le H1%Z.ltb_lt]. lia.
Qed.

(** Five walls: one whose second child has a second tag that is not
    numeric, and one for each assertion. *)
Lemma InitializeSegmentMeshes_outcome_witness :
  let Numeric (Index : Z) := {| IsNumeric := true; Atoi := Index |} in
  let Text := {| IsNumeric := false; Atoi := 0 |} in
  let Mesh := Some {| StaticMesh := SM_Wall |} in
  (exists Wall,
     InitializeSegmentMeshes
       [TaggedSegment 1 SM_Wall;
        {| ComponentTags := [Numeric 0; Text]; AsStaticMeshComponent := Mesh |}]
     = Ok Wall) /\
  InitializeSegmentMeshes
    [TaggedSegment 0 SM_Wall;
     {| ComponentTags := [Numeric 1]; AsStaticMeshComponent := None |}]
    = Err NotAStaticMesh /\
  InitializeSegmentMeshes
    [TaggedSegment 0 SM_Wall;
     {| ComponentTags := []; AsStaticMeshComponent := Mesh |}]
    = Err MissingIndexTag /\
  InitializeSegmentMeshes
    [TaggedSegment 0 SM_Wall;
     {| ComponentTags := [Text; Numeric 1]; AsStaticMeshComponent := Mesh |}]
    = Err InvalidIndexTag /\
  InitializeSegmentMeshes [TaggedSegment 0 SM_Wall; TaggedSegment 2 SM_Wall]
    = Err ArrayIndexOutOfBounds.
Proof.
  intros Numeric Text Mesh.
  assert (Hgood : forall Segment : USceneComponent,
            Segment ∈ [TaggedSegment 0 SM_Wall] -> IndexedSegment 2 Segment).
  { intros Segment ->%list_elem_of_singleton.
    eexists _, _, _. repeat split; simpl; lia. }
  repeat apply conj.
  - apply (proj1 (InitializeSegmentMeshes_outcome
       [TaggedSegment 1 SM_Wall;
        {| ComponentTags := [Numeric 0; Text]; AsStaticMeshComponent := Mesh |}])).
    intros Segment [->|[->|[]%elem_of_nil]%elem_of_cons]%elem_of_cons;
      eexists _, _, _; repeat split; simpl; lia.
  - destruct (proj2 (proj2 (InitializeSegmentMeshes_outcome
       [TaggedSegment 0 SM_Wall;
        {| ComponentTags := [Numeric 1]; AsStaticMeshComponent := None |}]))
       [TaggedSegment 0 SM_Wall] _ [] eq_refl Hgood) as (Hcast & _).
    by apply Hcast.
  - destruct (proj2 (proj2 (InitializeSegmentMeshes_outcome
       [TaggedSegment 0 SM_Wall;
        {| ComponentTags := []; AsStaticMeshComponent := Mesh |}]))
       [TaggedSegment 0 SM_Wall] _ [] eq_refl Hgood) as (_ & Hmissing & _).
    by apply Hmissing.
  - destruct (proj2 (proj2 (InitializeSegmentMeshes_outcome
       [TaggedSegment 0 SM_Wall;
        {| ComponentTags := [Text; Numeric 1]; AsStaticMeshComponent := Mesh |}]))
       [TaggedSegment 0 SM_Wall] _ [] eq_refl Hgood) as (_ & _ & Htag).
    destruct (Htag Text [Numeric 1]) as [Hinvalid _]; [done | reflexivity |].
    by apply Hinvalid.
  - destruct (proj2 (proj2 (InitializeSegmentMeshes_outcome
       [TaggedSegment 0 SM_Wall; TaggedSegment 2 SM_Wall]))
       [TaggedSegment 0 SM_Wall] _ [] eq_refl Hgood) as (_ & _ & Htag).
    destruct (Htag (Numeric 2) []) as [_ Hrange]; [done | reflexivity |].
    apply Hrange; [reflexivity | simpl; lia].
Defined.

Lemma AssignSegments_replicate_lookup (WallSegments : list USceneComponent)
    (n i : nat) (SegmentMeshes : list (option UStaticMeshComponent)) :
  AssignSegments WallSegments (replicate n None) = Ok SegmentMeshes ->
  (i < n)%nat ->
  SegmentMeshes !! i = Some (LastTagged WallSegments i).
Proof.
  intros Hrun Hi. rewrite (AssignSegments_LastTagged _ i _ _ Hrun).
  destruct (LastTagged WallSegments i); [done|].
  by apply lookup_replicate_2.
Qed.

(** X2. After [InitializeSegmentMeshes], slot [i] of the wall holds the
    component of the last child tagged [i], and is null when no child is
    tagged [i]: of two children with the same tag the later one stays. *)
Theorem InitializeSegmentMeshes_slots (WallSegments : list USceneComponent)
    (Wall : USegmentedWall) (i : nat) :
  InitializeSegmentMeshes WallSegments = Ok Wall ->
  (i < length WallSegments)%nat ->
  m_SegmentMeshes Wall !! i = Some (LastTagged WallSegments i).
Proof.
  unfold InitializeSegmentMeshes.
  destruct (AssignSegments _ _) as [ms|] eqn:Hrun; [|done].
  simpl. intros [= <-] Hi. simpl.
  by apply (AssignSegments_replicate_lookup _ _ _ _ Hrun).
Qed.

Lemma InitializeSegmentMeshes_slots_witness :
  exists Wall,
    InitializeSegmentMeshes
      [TaggedSegment 0 SM_Wall; TaggedSegment 2 SM_Wall; TaggedSegment 0 SM_Door]
      = Ok Wall /\
    m_SegmentMeshes Wall !! 0%nat = Some (Some {| StaticMesh := SM_Door |}) /\
    m_SegmentMeshes Wall !! 1%nat = Some None /\
    m_SegmentMeshes Wall !! 2%nat = Some (Some {| StaticMesh := SM_Wall |}).
Proof.
  eexists. split; [reflexivity|]. repeat apply conj.
  - apply (InitializeSegmentMeshes_slots
             [TaggedSegment 0 SM_Wall; TaggedSegment 2 SM_Wall; TaggedSegment 0 SM_Door]);
      [reflexivity | simpl; lia].
  - apply (InitializeSegmentMeshes_slots
             [TaggedSegment 0 SM_Wall; TaggedSegment 2 SM_Wall; TaggedSegment 0 SM_Door]);
      [reflexivity | simpl; lia].
  - apply (InitializeSegmentMeshes_slots
             [TaggedSegment 0 SM_Wall; TaggedSegment 2 SM_Wall; TaggedSegment 0 SM_Door]);
      [reflexivity | simpl; lia].
Defined.

(** X3. After [InitializeSegmentMeshes], every slot of the wall holds a
    segment exactly when the index tags of the children are 0 .. n-1 in
    some order. *)
Theorem InitializeSegmentMeshes_present (WallSegments : list USceneComponent)
    (Wall : USegmentedWall) :
  InitializeSegmentMeshes WallSegments = Ok Wall ->
  (forall i : nat, m_SegmentMeshes Wall !! i <> Some None) <->
  WellTagged WallSegments.
Proof.
  unfold InitializeSegmentMeshes.
  destruct (AssignSegments _ _) as [ms|] eqn:Hrun; [|done].
  simpl. intros [= <-]. simpl.
  assert (Hlen : length ms = length WallSegments)
    by (by rewrite (AssignSegments_length _ _ _ Hrun), length_replicate).
  split.
  - intros Hpresent. unfold WellTagged. symmetry.
    apply submseteq_length_Permutation; [|by rewrite !length_fmap, length_seq].
    apply NoDup_submseteq.
    + apply NoDup_fmap_2; [|apply NoDup_seq].
      intros i j [= Heq]. by apply Nat2Z.inj in Heq.
    + intros r (i & -> & [_ Hi]%elem_of_seq)%list_elem_of_fmap. simpl in Hi.
      pose proof (AssignSegments_replicate_lookup _ _ i _ Hrun Hi) as Hslot.
      destruct (LastTagged WallSegments i) as [c|] eqn:Hlast;
        [|by destruct (Hpresent i)].
      apply LastTagged_Some in Hlast as (Segment & Hin & Htag & _).
      apply list_elem_of_fmap. eauto.
  - intros Htags i Hnull.
    apply lookup_lt_Some in Hnull as Hi. rewrite Hlen in Hi.
    destruct (AssignSegments_lookup _ i _ _ Hrun)
      as [(Segment & c & _ & _ & Hslot)|[Hnone _]]; [congruence|].
    destruct (WellTagged_tagged _ i Htags Hi) as (Segment & Hin & Htag).
    by destruct (Hnone Segment Hin).
Qed.

Lemma InitializeSegmentMeshes_present_witness :
  (forall i : nat,
     [Some {| StaticMesh := SM_Door |}; Some {| StaticMesh := SM_Wall |}] !! i
       <> Some None) <->
  WellTagged [TaggedSegment 1 SM_Wall; TaggedSegment 0 SM_Door].
Proof.
  apply (InitializeSegmentMeshes_present
           [TaggedSegment 1 SM_Wall; TaggedSegment 0 SM_Door]
           {| m_SegmentMeshes :=
                [Some {| StaticMesh := SM_Door |}; Some {| StaticMesh := SM_Wall |}] |}).
  reflexivity.
Defined.

(** X4. In a world that is not a game world the walls are not
    initialised: a room spawned from a template with both palettes has no
    valid location, so [Spawn] fails with the invalid-location assertion
    as soon as one door is requested, and returns the room otherwise. *)
Theorem Spawn_outside_game_world (Seeds : nat -> nat) (SpawnInfo : FSpawnInfo)
    (World : UWorld) :
  IsGameWorld World = false ->
  Class_DoorMeshes (LoadedAsset SpawnInfo) <> [] ->
  Class_WallMeshes (LoadedAsset SpawnInfo) <> [] ->
  exists Room,
    SpawnActor World (LoadedAsset SpawnInfo) = Ok Room /\
    (forall L, IsValidWallLocation Room L = false) /\
    (DoorLocations SpawnInfo = [] -> Spawn Seeds SpawnInfo World = Ok Room) /\
    (DoorLocations SpawnInfo <> [] -> Spawn Seeds SpawnInfo World = Err InvalidLocation).
Proof.
  intros Hworld Hdoors%Num_pos Hwalls%Num_pos.
  unfold Spawn, SpawnActor, PostActorCreated, InitializeComponent.
  cbn [m_DoorMeshes m_WallMeshes]. rewrite Hdoors, Hwalls, Hworld. simpl.
  eexists. split; [done|].
  assert (Hinvalid : forall L, IsValidWallLocation
    {| m_DoorMeshes := Class_DoorMeshes (LoadedAsset SpawnInfo);
       m_WallMeshes := Class_WallMeshes (LoadedAsset SpawnInfo);
       m_NorthWall := CreateWall; m_WestWall := CreateWall;
       m_EastWall := CreateWall; m_SouthWall := CreateWall;
       m_Theme := Class_Theme (LoadedAsset SpawnInfo);
       m_Width := Class_Width (LoadedAsset SpawnInfo);
       m_Length := Class_Length (LoadedAsset SpawnInfo) |} L = false).
  { intros [[] i]; apply IsValidIndex_false; unfold Num; simpl; lia. }
  split; [done|]. split.
  - by intros ->.
  - destruct (DoorLocations SpawnInfo) as [|L Rest]; [done|]. intros _.
    simpl. rewrite AddDoor_unfold. cbn [m_DoorMeshes].
    by rewrite Hdoors, Hinvalid.
Qed.

Lemma Spawn_outside_game_world_witness :
  Spawn (fun n => n) TestSpawnInfo {| IsGameWorld := false |} = Err InvalidLocation.
Proof.
  destruct (Spawn_outside_game_world (fun n => n) TestSpawnInfo {| IsGameWorld := false |})
    as (Room & _ & _ & _ & Hfail); [reflexivity | done | done |].
  by apply Hfail.
Defined.

(** ** What AddDoor and RemoveDoor keep *)


Lemma WallLocations_WithMeshAt (Room : ADungeonRoom) (L : FWallLocation)
    (Mesh : UStaticMeshPtr) :
  WallLocations (WithMeshAt Room L Mesh) = WallLocations Room.
Proof.
  unfold WallLocations, LocationsOn.
  by rewrite !length_GetWall_WithMeshAt.
Qed.

Lemma HasFootprint_WithMeshAt (Room : ADungeonRoom) (L : FWallLocation)
    (Mesh : UStaticMeshPtr) (W Lg : Z) :
  HasFootprint Room W Lg -> HasFootprint (WithMeshAt Room L Mesh) W Lg.
Proof.
  intros (?&?&?&?).
  pose proof (length_GetWall_WithMeshAt Room L Mesh North).
  pose proof (length_GetWall_WithMeshAt Room L Mesh South).
  pose proof (length_GetWall_WithMeshAt Room L Mesh East).
  pose proof (length_GetWall_WithMeshAt Room L Mesh West).
  unfold HasFootprint, Num in *. simpl in *. repeat split; congruence.
Qed.




(** X6. The operations are strict. After a successful [AddDoor] at a
    location, [AddDoor] there fails with the door-already-present
    assertion, whatever it draws. After a successful [RemoveDoor] in a
    room whose palettes share no mesh, [RemoveDoor] there fails with the
    no-door assertion. *)
Theorem door_operations_not_idempotent (Seed Seed' : nat) (L : FWallLocation)
    (Room Room' : ADungeonRoom) :
  (AddDoor Seed L Room = Ok Room' ->
     AddDoor Seed' L Room' = Err DoorAlreadyPresent) /\
  (RemoveDoor Seed L Room = Ok Room' -> PalettesDisjoint Room ->
     RemoveDoor Seed' L Room' = Err NoDoorPresent).
Proof.
  split.
  - intros (Hne & Hd & Mesh & Hin & ->)%AddDoor_Ok_inv.
    destruct (HasDoorAtLocation_Ok_inv _ _ _ Hd) as [Hv _].
    rewrite AddDoor_unfold, IsValidWallLocation_WithMeshAt, Hv.
    rewrite HasDoorAtLocation_WithMeshAt_eq by done.
    rewrite (proj2 (Contains_elem_of _ _) Hin).
    cbn [WithMeshAt WithWall m_DoorMeshes].
    by rewrite (proj2 (Num_pos _) Hne).
  - intros (Hne & Hd & Mesh & Hin & ->)%RemoveDoor_Ok_inv Hdisj.
    destruct (HasDoorAtLocation_Ok_inv _ _ _ Hd) as [Hv _].
    rewrite RemoveDoor_unfold, IsValidWallLocation_WithMeshAt, Hv.
    rewrite HasDoorAtLocation_WithMeshAt_eq by done.
    rewrite (proj2 (Contains_false _ _) (Hdisj Mesh Hin)).
    cbn [WithMeshAt WithWall m_WallMeshes].
    by rewrite (proj2 (Num_pos _) Hne).
Qed.

Lemma door_operations_not_idempotent_witness :
  let Room := UniformRoom [SM_Door] [SM_Wall] 4 3 SM_Wall in
  let Room1 := WithMeshAt Room (At_North 2) SM_Door in
  let Room2 := WithMeshAt Room1 (At_North 2) SM_Wall in
  AddDoor 0 (At_North 2) Room = Ok Room1 /\
  AddDoor 7 (At_North 2) Room1 = Err DoorAlreadyPresent /\
  RemoveDoor 0 (At_North 2) Room1 = Ok Room2 /\
  RemoveDoor 7 (At_North 2) Room2 = Err NoDoorPresent.
Proof.
  intros Room Room1 Room2.
  assert (Hadd : AddDoor 0 (At_North 2) Room = Ok Room1) by reflexivity.
  assert (Hrem : RemoveDoor 0 (At_North 2) Room1 = Ok Room2) by reflexivity.
  split; [exact Hadd|]. split; [|split; [exact Hrem|]].
  - exact (proj1 (door_operations_not_idempotent 0 7 (At_North 2) Room Room1) Hadd).
  - apply (proj2 (door_operations_not_idempotent 0 7 (At_North 2) Room1 Room2) Hrem).
    intros Mesh ->%list_elem_of_singleton [?|[]%elem_of_nil]%elem_of_cons.
    done.
Defined.

(** ** Composing door operations *)

(** X7. Adding a door and removing it again, in a room whose palettes
    share no mesh, leaves [HasDoorAtLocation] at every location as it was;
    so does removing a door and adding it again. *)
Theorem round_trips_restore_doors (Seed Seed' : nat) (L : FWallLocation)
    (Room Room1 Room2 : ADungeonRoom) :
  (AddDoor Seed L Room = Ok Room1 -> RemoveDoor Seed' L Room1 = Ok Room2 ->
     PalettesDisjoint Room ->
     forall L', HasDoorAtLocation Room2 L' = HasDoorAtLocation Room L') /\
  (RemoveDoor Seed L Room = Ok Room1 -> AddDoor Seed' L Room1 = Ok Room2 ->
     forall L', HasDoorAtLocation Room2 L' = HasDoorAtLocation Room L').
Proof.
  split.
  - intros Hadd Hrem Hdisj L'.
    destruct (decide (L = L')) as [<-|Hne].
    + apply AddDoor_Ok_inv in Hadd as (_ & Hd & Door & _ & ->).
      apply RemoveDoor_Ok_inv in Hrem as (_ & Hd1 & Wall & HWall & ->).
      destruct (HasDoorAtLocation_Ok_inv _ _ _ Hd1) as [Hv1 _].
      rewrite HasDoorAtLocation_WithMeshAt_eq, Hd by done.
      f_equal. apply Contains_false. by apply Hdisj.
    + rewrite (RemoveDoor_frame _ _ _ _ _ Hne Hrem).
      by apply (AddDoor_frame _ _ _ _ _ Hne Hadd).
  - intros Hrem Hadd L'.
    destruct (decide (L = L')) as [<-|Hne].
    + apply RemoveDoor_Ok_inv in Hrem as (_ & Hd & Wall & _ & ->).
      apply AddDoor_Ok_inv in Hadd as (_ & Hd1 & Door & HDoor & ->).
      destruct (HasDoorAtLocation_Ok_inv _ _ _ Hd1) as [Hv1 _].
      rewrite HasDoorAtLocation_WithMeshAt_eq, Hd by done.
      f_equal. by apply Contains_elem_of.
    + rewrite (AddDoor_frame _ _ _ _ _ Hne Hadd).
      by apply (RemoveDoor_frame _ _ _ _ _ Hne Hrem).
Qed.

Lemma round_trips_restore_doors_witness :
  let Room := UniformRoom [SM_Door] [SM_Wall; SM_Arch] 4 3 SM_Wall in
  let Room1 := WithMeshAt Room (At_East 1) SM_Door in
  let Room2 := WithMeshAt Room1 (At_East 1) SM_Arch in
  Room2 <> Room /\
  forall L', HasDoorAtLocation Room2 L' = HasDoorAtLocation Room L'.
Proof.
  intros Room Room1 Room2. split; [discriminate|].
  apply (proj1 (round_trips_restore_doors 0 1 (At_East 1) Room Room1 Room2)).
  - reflexivity.
  - reflexivity.
  - intros Mesh [->|[->|[]%elem_of_nil]%elem_of_cons]%elem_of_cons
      [?|[]%elem_of_nil]%elem_of_cons; done.
Defined.

Lemma WithMeshAt_commute (Room : ADungeonRoom) (L1 L2 : FWallLocation)
    (Mesh1 Mesh2 : UStaticMeshPtr) :
  L1 <> L2 ->
  IsValidWallLocation Room L1 = true -> IsValidWallLocation Room L2 = true ->
  WithMeshAt (WithMeshAt Room L1 Mesh1) L2 Mesh2 =
  WithMeshAt (WithMeshAt Room L2 Mesh2) L1 Mesh1.
Proof.
  intros Hne Hv1%IsValidIndex_true Hv2%IsValidIndex_true.
  destruct L1 as [D1 i1], L2 as [D2 i2]. simpl in Hv1, Hv2.
  assert (Hcomm : D1 = D2 -> forall l : list (option UStaticMeshComponent),
    <[Z.to_nat i2 := Some {| StaticMesh := Mesh2 |}]>
      (<[Z.to_nat i1 := Some {| StaticMesh := Mesh1 |}]> l) =
    <[Z.to_nat i1 := Some {| StaticMesh := Mesh1 |}]>
      (<[Z.to_nat i2 := Some {| StaticMesh := Mesh2 |}]> l)).
  { intros -> l. apply list_insert_insert_ne. intros Heq. apply Hne. f_equal. lia. }
  unfold WithMeshAt, WithWall.
  destruct D1, D2; simpl; try reflexivity; by rewrite Hcomm.
Qed.

(** What [AddDoor] returns is fixed by the draw and the state at the
    location. *)
Lemma AddDoor_Ok_iff (Seed : nat) (L : FWallLocation) (Room Room' : ADungeonRoom) :
  AddDoor Seed L Room = Ok Room' <->
  HasDoorAtLocation Room L = Ok false /\
  exists Mesh, GetRandomMesh (m_DoorMeshes Room) Seed = Ok Mesh /\
               Room' = WithMeshAt Room L Mesh.
Proof.
  rewrite AddDoor_unfold. split.
  - destruct (0 <? _) eqn:Hn; [|done].
    destruct (IsValidWallLocation Room L); [|done].
    destruct (HasDoorAtLocation Room L) as [[]|] eqn:Hd; try done.
    destruct (GetRandomMesh _ _) as [Mesh|]; [|done]. simpl.
    rewrite (SetStaticMesh_Ok _ _ _ _ Hd). intros [= <-]. eauto.
  - intros (Hd & Mesh & Hdraw & ->).
    destruct (HasDoorAtLocation_Ok_inv _ _ _ Hd) as [Hv _].
    assert (m_DoorMeshes Room <> []) as Hne%Num_pos.
    { intros Hnil. rewrite Hnil in Hdraw. discriminate Hdraw. }
    rewrite Hne, Hv, Hd, Hdraw. simpl. by eapply SetStaticMesh_Ok.
Qed.

(** X8. Doors added at two distinct locations can be added in either
    order: with the same draws, the room is the same. *)
Theorem AddDoor_commute (Seed1 Seed2 : nat) (L1 L2 : FWallLocation)
    (Room Room1 Room12 : ADungeonRoom) :
  L1 <> L2 ->
  AddDoor Seed1 L1 Room = Ok Room1 ->
  AddDoor Seed2 L2 Room1 = Ok Room12 ->
  exists Room2,
    AddDoor Seed2 L2 Room = Ok Room2 /\
    AddDoor Seed1 L1 Room2 = Ok Room12.
Proof.
  intros Hne (Hd1 & Mesh1 & Hdraw1 & ->)%AddDoor_Ok_iff
             (Hd2 & Mesh2 & Hdraw2 & ->)%AddDoor_Ok_iff.
  destruct (HasDoorAtLocation_Ok_inv _ _ _ Hd1) as [Hv1 _].
  rewrite HasDoorAtLocation_WithMeshAt_ne in Hd2 by done.
  destruct (HasDoorAtLocation_Ok_inv _ _ _ Hd2) as [Hv2 _].
  exists (WithMeshAt Room L2 Mesh2). split.
  - apply AddDoor_Ok_iff. eauto.
  - apply AddDoor_Ok_iff. split.
    + by rewrite HasDoorAtLocation_WithMeshAt_ne.
    + exists Mesh1. split; [done|]. by apply WithMeshAt_commute.
Qed.

Lemma AddDoor_commute_witness :
  let Room := UniformRoom [SM_Door; SM_Arch] [SM_Wall] 4 3 SM_Wall in
  exists Room2 Room12,
    (Room1 ← AddDoor 0 (At_North 1) Room; AddDoor 1 (At_North 3) Room1) = Ok Room12 /\
    AddDoor 1 (At_North 3) Room = Ok Room2 /\
    AddDoor 0 (At_North 1) Room2 = Ok Room12.
Proof.
  intros Room.
  destruct (AddDoor_commute 0 1 (At_North 1) (At_North 3) Room
              (WithMeshAt Room (At_North 1) SM_Door)
              (WithMeshAt (WithMeshAt Room (At_North 1) SM_Door) (At_North 3) SM_Arch))
    as (Room2 & H2 & H12); [done | reflexivity | reflexivity |].
  exists Room2. eexists. split; [reflexivity|]. split; [exact H2 | exact H12].
Defined.

(** ** The loop of Spawn *)

(** When the loop succeeds the locations were pairwise distinct and
    door-free. *)
Lemma AddDoors_Ok_inv (Seeds : nat -> nat) (Locations : list FWallLocation) :
  forall (n : nat) (Room Room' : ADungeonRoom),
    AddDoors Seeds n Locations Room = Ok Room' ->
    NoDup Locations /\
    forall L, L ∈ Locations -> HasDoorAtLocation Room L = Ok false.
Proof.
  induction Locations as [|L0 Rest IH]; intros n Room Room'; simpl.
  - intros _. split; [constructor | by intros ? ?%elem_of_nil].
  - destruct (AddDoor (Seeds n) L0 Room) as [Room1|] eqn:Hadd; [|done]. simpl.
    intros [Hnd Hfree]%IH.
    pose proof Hadd as (_ & Hd0 & Mesh & Hin & ->)%AddDoor_Ok_inv.
    destruct (HasDoorAtLocation_Ok_inv _ _ _ Hd0) as [Hv0 _].
    assert (Hnotin : L0 ∉ Rest).
    { intros Hin0. specialize (Hfree L0 Hin0).
      rewrite HasDoorAtLocation_WithMeshAt_eq in Hfree by done.
      by rewrite (proj2 (Contains_elem_of _ _) Hin) in Hfree. }
    split; [by constructor|].
    intros L [->|HL]%elem_of_cons; [done|].
    rewrite <- (Hfree L HL). symmetry.
    apply HasDoorAtLocation_WithMeshAt_ne; [by intros -> | done].
Qed.

(** When every location has a segment, the loop can only fail on a door. *)
Lemma AddDoors_Err (Seeds : nat -> nat) (Locations : list FWallLocation) :
  forall (n : nat) (Room : ADungeonRoom) (e : Error),
    m_DoorMeshes Room <> [] ->
    (forall L, L ∈ Locations -> exists b, HasDoorAtLocation Room L = Ok b) ->
    AddDoors Seeds n Locations Room = Err e -> e = DoorAlreadyPresent.
Proof.
  induction Locations as [|L0 Rest IH]; intros n Room e Hdoors Hsegs; simpl; [done|].
  destruct (Hsegs L0) as [[] Hd0]; [by left| |].
  - rewrite AddDoor_unfold, (proj2 (Num_pos _) Hdoors), Hd0.
    destruct (HasDoorAtLocation_Ok_inv _ _ _ Hd0) as [-> _]. simpl.
    by intros [= <-].
  - destruct (AddDoor_Ok (Seeds n) L0 Room Hdoors Hd0) as (Mesh & Hin & ->).
    simpl. apply IH; [done|].
    intros L HL. destruct (HasDoorAtLocation_Ok_inv _ _ _ Hd0) as [Hv0 _].
    destruct (decide (L0 = L)) as [<-|Hne].
    + rewrite HasDoorAtLocation_WithMeshAt_eq by done. eauto.
    + rewrite HasDoorAtLocation_WithMeshAt_ne by done. apply Hsegs. by right.
Qed.

(** X9. On a freshly spawned room, [Spawn] returns a room exactly when
    the requested locations are pairwise distinct and each is valid and
    without a door in the fresh room. When every requested location is
    valid and has a segment, [Spawn] can only fail with the
    door-already-present assertion: on a repeated location or a location
    where the template authors a door. *)
Theorem Spawn_succeeds_iff (Seeds : nat -> nat) (SpawnInfo : FSpawnInfo)
    (World : UWorld) (Fresh : ADungeonRoom) :
  SpawnActor World (LoadedAsset SpawnInfo) = Ok Fresh ->
  ((exists Room, Spawn Seeds SpawnInfo World = Ok Room) <->
   NoDup (DoorLocations SpawnInfo) /\
   forall L, L ∈ DoorLocations SpawnInfo -> HasDoorAtLocation Fresh L = Ok false) /\
  ((forall L, L ∈ DoorLocations SpawnInfo ->
      exists b, HasDoorAtLocation Fresh L = Ok b) ->
   forall e, Spawn Seeds SpawnInfo World = Err e -> e = DoorAlreadyPresent).
Proof.
  intros Hspawn.
  destruct (SpawnActor_Ok_inv _ _ _ Hspawn) as (_ & _ & Hdoors & _).
  unfold Spawn. rewrite Hspawn. simpl. split; [split|].
  - intros [Room Hrun]. by eapply AddDoors_Ok_inv.
  - intros [Hnd Hfree].
    destruct (AddDoors_Ok Seeds (DoorLocations SpawnInfo) 0%nat Fresh Hdoors Hnd Hfree)
      as (Room & Hrun & _). eauto.
  - intros Hsegs e. by apply AddDoors_Err.
Qed.

Lemma Spawn_succeeds_iff_witness :
  (exists Room, Spawn (fun n => n) TestSpawnInfo GameWorld = Ok Room) /\
  Spawn (fun n => n)
    {| LoadedAsset := LoadedAsset TestSpawnInfo;
       DoorLocations := [At_North 0; At_South 1; At_North 0] |} GameWorld
    = Err DoorAlreadyPresent.
Proof.
  split.
  - apply (proj1 (Spawn_succeeds_iff (fun n => n) TestSpawnInfo GameWorld
                    (UniformRoom [SM_Door; SM_Arch] [SM_Wall] 4 4 SM_Wall) eq_refl)).
    split.
    + apply (bool_decide_unpack _). by vm_compute.
    + intros L HL. simpl in HL. set_unfold in HL.
      destruct HL as [->|[->|[->|[->|[]]]]]; reflexivity.
  - destruct (Spawn (fun n => n)
      {| LoadedAsset := LoadedAsset TestSpawnInfo;
         DoorLocations := [At_North 0; At_South 1; At_North 0] |} GameWorld)
      as [Room|e] eqn:Hrun; [discriminate Hrun|].
    f_equal.
    apply (proj2 (Spawn_succeeds_iff (fun n => n)
      {| LoadedAsset := LoadedAsset TestSpawnInfo;
         DoorLocations := [At_North 0; At_South 1; At_North 0] |} GameWorld
      (UniformRoom [SM_Door; SM_Arch] [SM_Wall] 4 4 SM_Wall) eq_refl)).
    + intros L HL. simpl in HL. set_unfold in HL.
      destruct HL as [->|[->|[->|[]]]]; by eexists.
    + exact Hrun.
Defined.

(** X10. The doors of the room that [Spawn] returns depend on the set of
    requested locations only: for the same template, a request that lists
    the same locations in another order succeeds as well, whatever is
    drawn, and [HasDoorAtLocation] agrees on the two rooms at every
    location. *)
Theorem Spawn_order_irrelevant (Seeds Seeds' : nat -> nat)
    (SpawnInfo SpawnInfo' : FSpawnInfo) (World : UWorld) (Room : ADungeonRoom) :
  LoadedAsset SpawnInfo' = LoadedAsset SpawnInfo ->
  DoorLocations SpawnInfo' ≡ₚ DoorLocations SpawnInfo ->
  Spawn Seeds SpawnInfo World = Ok Room ->
  exists Room',
    Spawn Seeds' SpawnInfo' World = Ok Room' /\
    forall L, HasDoorAtLocation Room' L = HasDoorAtLocation Room L.
Proof.
  intros Hasset Hperm. unfold Spawn. rewrite Hasset.
  destruct (SpawnActor World (LoadedAsset SpawnInfo)) as [Fresh|] eqn:Hspawn; [|done].
  simpl. intros Hrun.
  destruct (SpawnActor_Ok_inv _ _ _ Hspawn) as (_ & _ & Hdoors & _).
  destruct (AddDoors_Ok_inv _ _ _ _ _ Hrun) as [Hnd Hfree].
  destruct (AddDoors_Ok Seeds (DoorLocations SpawnInfo) 0%nat Fresh Hdoors Hnd Hfree)
    as (Room0 & Hrun0 & _ & _ & Hset & Hkeep).
  rewrite Hrun in Hrun0. injection Hrun0 as <-.
  destruct (AddDoors_Ok Seeds' (DoorLocations SpawnInfo') 0%nat Fresh Hdoors)
    as (Room' & Hrun' & _ & _ & Hset' & Hkeep').
  { by rewrite Hperm. }
  { intros L HL. apply Hfree. by rewrite <- Hperm. }
  exists Room'. split; [done|]. intros L.
  destruct (decide (L ∈ DoorLocations SpawnInfo)) as [HL|HL].
  - rewrite Hset by done. apply Hset'. by rewrite Hperm.
  - rewrite Hkeep by done. apply Hkeep'. by rewrite Hperm.
Qed.

Lemma Spawn_order_irrelevant_witness :
  exists Room Room',
    Spawn (fun n => n) TestSpawnInfo GameWorld = Ok Room /\
    Spawn (fun n => 1%nat)
      {| LoadedAsset := LoadedAsset TestSpawnInfo;
         DoorLocations := [At_West 3; At_North 0; At_East 2; At_South 1] |}
      GameWorld = Ok Room' /\
    Room' <> Room /\
    forall L, HasDoorAtLocation Room' L = HasDoorAtLocation Room L.
Proof.
  destruct (Spawn (fun n => n) TestSpawnInfo GameWorld) as [Room|] eqn:Hrun;
    [|discriminate Hrun].
  destruct (Spawn_order_irrelevant (fun n => n) (fun n => 1%nat) TestSpawnInfo
              {| LoadedAsset := LoadedAsset TestSpawnInfo;
                 DoorLocations := [At_West 3; At_North 0; At_East 2; At_South 1] |}
              GameWorld Room eq_refl)
    as (Room' & Hrun' & Hsame); [| exact Hrun |].
  - simpl. apply NoDup_Permutation.
    + apply (bool_decide_unpack _). by vm_compute.
    + apply (bool_decide_unpack _). by vm_compute.
    + intros L. set_unfold. tauto.
  - exists Room, Room'. split; [reflexivity|]. split; [exact Hrun'|].
    split; [|exact Hsame].
    vm_compute in Hrun, Hrun'. injection Hrun as <-. injection Hrun' as <-.
    discriminate.
Defined.

(** ** Counting doors *)

Lemma NoDup_LocationsOn (Room : ADungeonRoom) (D : EDirection) :
  NoDup (LocationsOn Room D).
Proof.
  unfold LocationsOn. apply NoDup_fmap_2_strong; [|apply NoDup_seq].
  intros i j _ _ [= Heq]. by apply Nat2Z.inj in Heq.
Qed.

Lemma NoDup_WallLocations (Room : ADungeonRoom) : NoDup (WallLocations Room).
Proof.
  unfold WallLocations.
  repeat (apply NoDup_app; split; [apply NoDup_LocationsOn|]; split;
            [intros L; rewrite ?elem_of_app, !elem_of_LocationsOn;
             intuition congruence|]).
  apply NoDup_LocationsOn.
Qed.

Lemma length_filter_ext {A : Type} (P Q : A -> Prop)
    `{forall x, Decision (P x)} `{forall x, Decision (Q x)} (l : list A) :
  (forall y, y ∈ l -> Q y <-> P y) ->
  length (filter Q l) = length (filter P l).
Proof.
  induction l as [|x l IH]; intros Hiff; [done|].
  rewrite !filter_cons.
  assert (Hl : forall y, y ∈ l -> Q y <-> P y) by (intros y ?; apply Hiff; by right).
  pose proof (Hiff x ltac:(by left)) as Hx.
  destruct (decide (Q x)), (decide (P x)); simpl; rewrite ?IH by done; tauto.
Qed.

(** One more element passes the filter once [a] does. *)
Lemma length_filter_gain {A : Type} (P Q : A -> Prop)
    `{forall x, Decision (P x)} `{forall x, Decision (Q x)} (l : list A) (a : A) :
  NoDup l -> a ∈ l -> ~ P a -> Q a ->
  (forall y, y <> a -> Q y <-> P y) ->
  length (filter Q l) = S (length (filter P l)).
Proof.
  intros Hnd Hin HP HQ Hiff.
  induction l as [|x l IH]; [by apply elem_of_nil in Hin|].
  apply NoDup_cons in Hnd as [Hx Hnd]. rewrite !filter_cons.
  apply elem_of_cons in Hin as [->|Hin].
  - rewrite decide_True, decide_False by done. simpl. f_equal.
    apply length_filter_ext. intros y Hy. apply Hiff. by intros ->.
  - assert (Hne : x <> a) by (by intros ->).
    pose proof (Hiff x Hne) as Hxiff.
    destruct (decide (Q x)), (decide (P x)); simpl; rewrite IH by done; tauto.
Qed.

(** X11. A successful [AddDoor] makes the number of doors of the room
    one more; a successful [RemoveDoor], in a room whose palettes share no
    mesh, makes it one less. *)
Theorem door_operations_count (Seed : nat) (L : FWallLocation)
    (Room Room' : ADungeonRoom) :
  (AddDoor Seed L Room = Ok Room' -> DoorCount Room' = S (DoorCount Room)) /\
  (RemoveDoor Seed L Room = Ok Room' -> PalettesDisjoint Room ->
     DoorCount Room = S (DoorCount Room')).
Proof.
  split.
  - intros (_ & Hd & Mesh & Hin & ->)%AddDoor_Ok_inv.
    destruct (HasDoorAtLocation_Ok_inv _ _ _ Hd) as [Hv _].
    unfold DoorCount. rewrite WallLocations_WithMeshAt.
    apply (length_filter_gain _ _ _ L).
    + apply NoDup_WallLocations.
    + by apply elem_of_WallLocations.
    + by rewrite Hd.
    + rewrite HasDoorAtLocation_WithMeshAt_eq by done.
      f_equal. by apply Contains_elem_of.
    + intros y Hy. by rewrite HasDoorAtLocation_WithMeshAt_ne.
  - intros (_ & Hd & Mesh & Hin & ->)%RemoveDoor_Ok_inv Hdisj.
    destruct (HasDoorAtLocation_Ok_inv _ _ _ Hd) as [Hv _].
    unfold DoorCount. rewrite WallLocations_WithMeshAt.
    apply (length_filter_gain _ _ _ L).
    + apply NoDup_WallLocations.
    + by apply elem_of_WallLocations.
    + rewrite HasDoorAtLocation_WithMeshAt_eq by done.
      rewrite (proj2 (Contains_false _ _) (Hdisj Mesh Hin)). by intros [=].
    + done.
    + intros y Hy. by rewrite HasDoorAtLocation_WithMeshAt_ne.
Qed.

Lemma door_operations_count_witness :
  let Room := UniformRoom [SM_Door] [SM_Wall] 4 3 SM_Wall in
  let Room1 := WithMeshAt Room (At_South 0) SM_Door in
  let Room2 := WithMeshAt Room1 (At_West 2) SM_Door in
  let Room3 := WithMeshAt Room2 (At_South 0) SM_Wall in
  DoorCount Room = 0%nat /\ DoorCount Room1 = 1%nat /\
  DoorCount Room2 = 2%nat /\ DoorCount Room3 = 1%nat.
Proof.
  intros Room Room1 Room2 Room3.
  assert (H0 : DoorCount Room = 0%nat) by reflexivity.
  pose proof (proj1 (door_operations_count 0 (At_South 0) Room Room1) eq_refl) as H1.
  pose proof (proj1 (door_operations_count 0 (At_West 2) Room1 Room2) eq_refl) as H2.
  assert (H3 : DoorCount Room2 = S (DoorCount Room3)).
  { apply (proj2 (door_operations_count 0 (At_South 0) Room2 Room3) eq_refl).
    intros Mesh ->%list_elem_of_singleton [?|[]%elem_of_nil]%elem_of_cons.
    done. }
  lia.
Defined.

(** ** Drawing a mesh *)

(** X12. [GetRandomMesh] on a non-empty array returns one of its meshes,
    whatever is drawn, and every mesh of the array can be drawn; on an
    empty array it reads index 0 and trips the range check of the array,
    which the palette assertions of [AddDoor] and [RemoveDoor] prevent. *)
Theorem GetRandomMesh_outcome (Meshes : list UStaticMeshPtr) :
  (Meshes = [] -> forall Seed, GetRandomMesh Meshes Seed = Err ArrayIndexOutOfBounds) /\
  (Meshes <> [] -> forall Seed, exists Mesh,
     GetRandomMesh Meshes Seed = Ok Mesh /\ Mesh ∈ Meshes) /\
  (forall Mesh, Mesh ∈ Meshes -> exists Seed, GetRandomMesh Meshes Seed = Ok Mesh).
Proof.
  repeat apply conj.
  - by intros ->.
  - intros Hne Seed. by apply GetRandomMesh_Ok.
  - intros Mesh (i & Hi)%list_elem_of_lookup_1. exists i.
    apply lookup_lt_Some in Hi as Hlt.
    unfold GetRandomMesh, RandRange, RandHelper, Num.
    replace (Z.of_nat (length Meshes) - 1 - 0 + 1) with (Z.of_nat (length Meshes)) by lia.
    rewrite (proj2 (Z.ltb_lt _ _)) by lia.
    rewrite Z.mod_small by lia.
    unfold At. rewrite (proj2 (IsValidIndex_true _ _)) by (unfold Num; lia).
    by rewrite Z.add_0_l, Nat2Z.id, Hi.
Qed.

Lemma GetRandomMesh_outcome_witness :
  (exists Mesh, GetRandomMesh [SM_Door; SM_Arch] 5 = Ok Mesh /\
                Mesh ∈ [SM_Door; SM_Arch]) /\
  (exists Seed, GetRandomMesh [SM_Door; SM_Arch] Seed = Ok SM_Arch) /\
  GetRandomMesh [] 5 = Err ArrayIndexOutOfBounds.
Proof.
  split; [|split].
  - by apply (GetRandomMesh_outcome [SM_Door; SM_Arch]).
  - apply (GetRandomMesh_outcome [SM_Door; SM_Arch]). right. left.
  - by apply (GetRandomMesh_outcome []).
Defined.

(** ** Queries on the database *)

Lemma InitializeDatabase_Ok_inv (RoomAssets : list FAssetData) (Db : FDungeonRoomDatabase) :
  InitializeDatabase RoomAssets = Ok Db ->
  RoomAssets <> [] /\ Db = foldl AddAssetToDatabase EmptyDatabase RoomAssets.
Proof.
  unfold InitializeDatabase.
  destruct (0 <? Num RoomAssets) eqn:Hn; [|done].
  simpl. intros [= <-]. split; [by apply Num_pos | done].
Qed.

Lemma scanned_paths (RoomAssets : list FAssetData) (Query : FDungeonRoomSpecs) :
  m_PathsByRoomSpecs (foldl AddAssetToDatabase EmptyDatabase RoomAssets) !! Query =
    match WithSpecs Query RoomAssets with
    | [] => None
    | Matching => Some (GetSoftObjectPath <$> Matching)
    end.
Proof.
  rewrite m_PathsByRoomSpecs_foldl. simpl. rewrite lookup_empty.
  by destruct (WithSpecs Query RoomAssets).
Qed.

Lemma scanned_widths (RoomAssets : list FAssetData) (T : EDungeonTheme) :
  m_MaxWidthByTheme (foldl AddAssetToDatabase EmptyDatabase RoomAssets) !! T =
    match WithTheme T RoomAssets with
    | [] => None
    | OfTheme => Some (foldl Z.max 0 (WidthOf <$> OfTheme))
    end.
Proof.
  rewrite m_MaxWidthByTheme_foldl. simpl. rewrite lookup_empty.
  by destruct (WithTheme T RoomAssets).
Qed.

Lemma scanned_lengths (RoomAssets : list FAssetData) (T : EDungeonTheme) :
  m_MaxLengthByTheme (foldl AddAssetToDatabase EmptyDatabase RoomAssets) !! T =
    match WithTheme T RoomAssets with
    | [] => None
    | OfTheme => Some (foldl Z.max 0 (LengthOf <$> OfTheme))
    end.
Proof.
  rewrite m_MaxLengthByTheme_foldl. simpl. rewrite lookup_empty.
  by destruct (WithTheme T RoomAssets).
Qed.

Lemma DoesAssetExistWithSpecs_unfold (Db : FDungeonRoomDatabase) (Query : FDungeonRoomSpecs) :
  DoesAssetExistWithSpecs Db Query =
    if (0 <? Width (Dimensions Query)) && (0 <? Length (Dimensions Query))
    then Ok (bool_decide (is_Some (m_PathsByRoomSpecs Db !! Query)))
    else Err InvalidSpecification.
Proof.
  unfold DoesAssetExistWithSpecs. rewrite !Z.gtb_ltb.
  by destruct ((0 <? _) && (0 <? _)).
Qed.

(** X13. [InitializeDatabase] fails on an empty scan, with the
    no-assets assertion. On any other scan it builds a database in which
    every scanned asset is found again: [GetAssetPaths] of its
    specification returns its path, and [GetMaxWidth] and [GetMaxLength]
    of its theme are at least its width and length.
    [DoesAssetExistWithSpecs] of its specification is true when its width
    and length are positive, and trips the invalid-size assertion when
    they are not, although the asset is stored. *)
Theorem scanned_assets_are_found (RoomAssets : list FAssetData) :
  (RoomAssets = [] -> InitializeDatabase RoomAssets = Err EmptyCatalog) /\
  (RoomAssets <> [] ->
   exists Db,
     InitializeDatabase RoomAssets = Ok Db /\
     forall A, A ∈ RoomAssets ->
       (exists Paths, GetAssetPaths Db (GetRoomSpecs A) = Ok Paths /\
                      GetSoftObjectPath A ∈ Paths) /\
       (exists w, GetMaxWidth Db (Theme (GetRoomSpecs A)) = Ok w /\ WidthOf A <= w) /\
       (exists l, GetMaxLength Db (Theme (GetRoomSpecs A)) = Ok l /\ LengthOf A <= l) /\
       DoesAssetExistWithSpecs Db (GetRoomSpecs A) =
         if (0 <? WidthOf A) && (0 <? LengthOf A) then Ok true
         else Err InvalidSpecification).
Proof.
  split; [by intros ->|]. intros Hne.
  eexists. split; [by apply InitializeDatabase_Ok|]. intros A HA.
  assert (HS : A ∈ WithSpecs (GetRoomSpecs A) RoomAssets)
    by (by apply list_elem_of_filter).
  assert (HT : A ∈ WithTheme (Theme (GetRoomSpecs A)) RoomAssets)
    by (by apply list_elem_of_filter).
  repeat apply conj.
  - unfold GetAssetPaths, FindChecked. rewrite scanned_paths.
    destruct (WithSpecs _ _) as [|A0 Rest] eqn:Hfilter; [by apply elem_of_nil in HS|].
    eexists. split; [done|]. by apply list_elem_of_fmap_2.
  - unfold GetMaxWidth, FindChecked. rewrite scanned_widths.
    destruct (WithTheme _ _) as [|A0 Rest] eqn:Hfilter; [by apply elem_of_nil in HT|].
    eexists. split; [done|].
    apply (foldl_max_bounds (WidthOf <$> A0 :: Rest) 0).
    by apply list_elem_of_fmap_2.
  - unfold GetMaxLength, FindChecked. rewrite scanned_lengths.
    destruct (WithTheme _ _) as [|A0 Rest] eqn:Hfilter; [by apply elem_of_nil in HT|].
    eexists. split; [done|].
    apply (foldl_max_bounds (LengthOf <$> A0 :: Rest) 0).
    by apply list_elem_of_fmap_2.
  - rewrite DoesAssetExistWithSpecs_unfold. unfold WidthOf, LengthOf.
    destruct ((0 <? _) && (0 <? _)); [|done].
    rewrite scanned_paths.
    destruct (WithSpecs _ _) as [|A0 Rest] eqn:Hfilter; [by apply elem_of_nil in HS|].
    reflexivity.
Qed.

Lemma scanned_assets_are_found_witness :
  exists Db,
    InitializeDatabase [Asset Crypt 4 4 "a"; Asset Hall 0 2 "flat"] = Ok Db /\
    (exists Paths, GetAssetPaths Db (Specs Hall 0 2) = Ok Paths /\ "flat" ∈ Paths) /\
    DoesAssetExistWithSpecs Db (Specs Hall 0 2) = Err InvalidSpecification /\
    DoesAssetExistWithSpecs Db (Specs Crypt 4 4) = Ok true.
Proof.
  destruct (proj2 (scanned_assets_are_found
                     [Asset Crypt 4 4 "a"; Asset Hall 0 2 "flat"]))
    as (Db & HDb & Hfound); [done|].
  exists Db. split; [exact HDb|].
  destruct (Hfound (Asset Hall 0 2 "flat")) as (Hpaths & _ & _ & Hexists);
    [right; left|].
  destruct (Hfound (Asset Crypt 4 4 "a")) as (_ & _ & _ & Hexists'); [left|].
  split; [exact Hpaths|]. split; [exact Hexists | exact Hexists'].
Defined.

(** X14. The queries agree with each other. When
    [DoesAssetExistWithSpecs] returns true, [GetAssetPaths] returns a
    non-empty array for the same specification, and [GetMaxWidth] and
    [GetMaxLength] of its theme return at least its width and length;
    when it returns false, [GetAssetPaths] fails. *)
Theorem DoesAssetExistWithSpecs_guards (RoomAssets : list FAssetData)
    (Db : FDungeonRoomDatabase) (Query : FDungeonRoomSpecs) :
  InitializeDatabase RoomAssets = Ok Db ->
  (DoesAssetExistWithSpecs Db Query = Ok true ->
     exists Paths w l,
       GetAssetPaths Db Query = Ok Paths /\ Paths <> [] /\
       GetMaxWidth Db (Theme Query) = Ok w /\ Width (Dimensions Query) <= w /\
       GetMaxLength Db (Theme Query) = Ok l /\ Length (Dimensions Query) <= l) /\
  (DoesAssetExistWithSpecs Db Query = Ok false ->
     GetAssetPaths Db Query = Err SpecificationNotFound).
Proof.
  intros [Hne ->]%InitializeDatabase_Ok_inv.
  rewrite DoesAssetExistWithSpecs_unfold, scanned_paths.
  unfold GetAssetPaths, GetMaxWidth, GetMaxLength, FindChecked.
  rewrite scanned_paths, scanned_widths, scanned_lengths.
  destruct ((0 <? _) && (0 <? _)); [|done].
  destruct (WithSpecs Query RoomAssets) as [|A Rest] eqn:Hfilter; split; try done.
  intros _.
  assert (A ∈ WithSpecs Query RoomAssets) as [Hspecs HA]%list_elem_of_filter
    by (rewrite Hfilter; left).
  assert (HT : A ∈ WithTheme (Theme Query) RoomAssets).
  { apply list_elem_of_filter. by rewrite Hspecs. }
  destruct (WithTheme _ _) as [|A0 Rest0]; [by apply elem_of_nil in HT|].
  eexists _, _, _. repeat apply conj; try done.
  - replace (Width (Dimensions Query)) with (WidthOf A)
      by (unfold WidthOf; by rewrite Hspecs).
    apply (foldl_max_bounds (WidthOf <$> A0 :: Rest0) 0).
    by apply list_elem_of_fmap_2.
  - replace (Length (Dimensions Query)) with (LengthOf A)
      by (unfold LengthOf; by rewrite Hspecs).
    apply (foldl_max_bounds (LengthOf <$> A0 :: Rest0) 0).
    by apply list_elem_of_fmap_2.
Qed.

Lemma DoesAssetExistWithSpecs_guards_witness :
  exists Db Paths,
    InitializeDatabase MixedCatalog = Ok Db /\
    GetAssetPaths Db (Specs Crypt 3 5) = Ok Paths /\ Paths <> [] /\
    GetAssetPaths Db (Specs Crypt 3 6) = Err SpecificationNotFound.
Proof.
  destruct (InitializeDatabase MixedCatalog) as [Db|] eqn:HDb; [|discriminate HDb].
  destruct (proj1 (DoesAssetExistWithSpecs_guards MixedCatalog Db (Specs Crypt 3 5) HDb))
    as (Paths & w & l & HPaths & Hne & _).
  { vm_compute in HDb. injection HDb as <-. reflexivity. }
  exists Db, Paths. split; [reflexivity|]. split; [exact HPaths|]. split; [exact Hne|].
  apply (proj2 (DoesAssetExistWithSpecs_guards MixedCatalog Db (Specs Crypt 3 6) HDb)).
  vm_compute in HDb. injection HDb as <-. reflexivity.
Defined.

(** X15. Whatever the sizes of the scanned assets, [GetMaxWidth] of a
    theme succeeds exactly when [GetMaxLength] does, which is when some
    specification of that theme has assets. The width it returns is never
    negative, bounds the width of every asset of the theme, and is 0 or
    the width of one of them; likewise for the length. *)
Theorem GetMaxWidth_GetMaxLength_general (RoomAssets : list FAssetData)
    (Db : FDungeonRoomDatabase) (T : EDungeonTheme) :
  InitializeDatabase RoomAssets = Ok Db ->
  ((exists w, GetMaxWidth Db T = Ok w) <-> (exists l, GetMaxLength Db T = Ok l)) /\
  ((exists w, GetMaxWidth Db T = Ok w) <->
   (exists Query Paths, Theme Query = T /\ GetAssetPaths Db Query = Ok Paths)) /\
  (forall w, GetMaxWidth Db T = Ok w ->
     0 <= w /\
     (forall A, A ∈ WithTheme T RoomAssets -> WidthOf A <= w) /\
     (w = 0 \/ exists A, A ∈ WithTheme T RoomAssets /\ WidthOf A = w)) /\
  (forall l, GetMaxLength Db T = Ok l ->
     0 <= l /\
     (forall A, A ∈ WithTheme T RoomAssets -> LengthOf A <= l) /\
     (l = 0 \/ exists A, A ∈ WithTheme T RoomAssets /\ LengthOf A = l)).
Proof.
  intros [Hne ->]%InitializeDatabase_Ok_inv.
  unfold GetMaxWidth, GetMaxLength, GetAssetPaths, FindChecked.
  rewrite scanned_widths, scanned_lengths.
  repeat apply conj.
  - destruct (WithTheme T RoomAssets); [by intros []|]. by eexists.
  - destruct (WithTheme T RoomAssets); [by intros []|]. by eexists.
  - destruct (WithTheme T RoomAssets) as [|A Rest] eqn:Hfilter; [by intros []|].
    intros _.
    assert (A ∈ WithTheme T RoomAssets) as [HT HA]%list_elem_of_filter
      by (rewrite Hfilter; left).
    exists (GetRoomSpecs A). rewrite scanned_paths.
    assert (HS : A ∈ WithSpecs (GetRoomSpecs A) RoomAssets)
      by (by apply list_elem_of_filter).
    destruct (WithSpecs _ _); [by apply elem_of_nil in HS|]. by eexists.
  - intros (Query & Paths & <- & HPaths). rewrite scanned_paths in HPaths.
    destruct (WithSpecs Query RoomAssets) as [|A Rest] eqn:Hfilter; [done|].
    assert (A ∈ WithSpecs Query RoomAssets) as [HS HA]%list_elem_of_filter
      by (rewrite Hfilter; left).
    assert (HT : A ∈ WithTheme (Theme Query) RoomAssets).
    { apply list_elem_of_filter. by rewrite HS. }
    destruct (WithTheme _ _); [by apply elem_of_nil in HT|]. by eexists.
  - intros w. destruct (WithTheme T RoomAssets) as [|A0 Rest]; [done|].
    intros [= <-].
    destruct (foldl_max_bounds (WidthOf <$> A0 :: Rest) 0) as (H0 & Hall & Hin).
    split; [done|]. split.
    + intros A HA. apply Hall. by apply list_elem_of_fmap_2.
    + destruct Hin as [?|(A & ? & ?)%list_elem_of_fmap]; [by left|]. right. eauto.
  - intros l. destruct (WithTheme T RoomAssets) as [|A0 Rest]; [done|].
    intros [= <-].
    destruct (foldl_max_bounds (LengthOf <$> A0 :: Rest) 0) as (H0 & Hall & Hin).
    split; [done|]. split.
    + intros A HA. apply Hall. by apply list_elem_of_fmap_2.
    + destruct Hin as [?|(A & ? & ?)%list_elem_of_fmap]; [by left|]. right. eauto.
Qed.

Lemma GetMaxWidth_GetMaxLength_general_witness :
  exists Db,
    InitializeDatabase [Asset Crypt (-2) 7 "odd"; Asset Crypt (-5) 3 "odder"] = Ok Db /\
    GetMaxWidth Db Crypt = Ok 0 /\
    GetMaxLength Db Crypt = Ok 7.
Proof.
  destruct (InitializeDatabase [Asset Crypt (-2) 7 "odd"; Asset Crypt (-5) 3 "odder"])
    as [Db|] eqn:HDb; [|discriminate HDb].
  exists Db. split; [reflexivity|].
  pose proof (GetMaxWidth_GetMaxLength_general _ Db Crypt HDb)
    as (_ & _ & Hwidth & Hlength).
  assert (Hw : exists w, GetMaxWidth Db Crypt = Ok w).
  { vm_compute in HDb. injection HDb as <-. by eexists. }
  assert (Hl : exists l, GetMaxLength Db Crypt = Ok l).
  { vm_compute in HDb. injection HDb as <-. by eexists. }
  destruct Hw as [w Hw], Hl as [l Hl]. rewrite Hw, Hl.
  destruct (Hwidth w Hw) as (Hw0 & Hwall & Hwin).
  destruct (Hlength l Hl) as (Hl0 & Hlall & Hlin).
  split; f_equal.
  - destruct Hwin as [?|(A & HA & HwA)]; [done|].
    vm_compute in HA. set_unfold in HA.
    destruct HA as [->|[->|[]]]; vm_compute in HwA; lia.
  - assert (7 <= l) by (apply (Hlall (Asset Crypt (-2) 7 "odd")); vm_compute; left).
    destruct Hlin as [?|(A & HA & HlA)]; [lia|].
    vm_compute in HA. set_unfold in HA.
    destruct HA as [->|[->|[]]]; vm_compute in HlA; lia.
Defined.

(** ** The order and the growth of the scan *)

Lemma foldl_max_Permutation (Sizes Sizes' : list Z) :
  Sizes ≡ₚ Sizes' -> forall Start, foldl Z.max Start Sizes = foldl Z.max Start Sizes'.
Proof.
  induction 1 as [|x l l' _ IH|x y l|l l' l'' _ IH1 _ IH2]; intros Start; simpl.
  - done.
  - apply IH.
  - f_equal. lia.
  - by rewrite IH1.
Qed.

(** X16. The order of the scan only shows in the order of the paths:
    for two scans of the same assets in different orders,
    [GetMaxWidth], [GetMaxLength] and [DoesAssetExistWithSpecs] return
    the same, and [GetAssetPaths] fails for both or returns the same
    paths up to their order. *)
Theorem scan_order_irrelevant (RoomAssets RoomAssets' : list FAssetData)
    (Db Db' : FDungeonRoomDatabase) :
  RoomAssets ≡ₚ RoomAssets' ->
  InitializeDatabase RoomAssets = Ok Db ->
  InitializeDatabase RoomAssets' = Ok Db' ->
  (forall T, GetMaxWidth Db T = GetMaxWidth Db' T) /\
  (forall T, GetMaxLength Db T = GetMaxLength Db' T) /\
  (forall Query, DoesAssetExistWithSpecs Db Query = DoesAssetExistWithSpecs Db' Query) /\
  (forall Query,
     (GetAssetPaths Db Query = Err SpecificationNotFound /\
      GetAssetPaths Db' Query = Err SpecificationNotFound) \/
     (exists Paths Paths',
        GetAssetPaths Db Query = Ok Paths /\
        GetAssetPaths Db' Query = Ok Paths' /\
        Paths ≡ₚ Paths')).
Proof.
  intros Hperm [_ ->]%InitializeDatabase_Ok_inv [_ ->]%InitializeDatabase_Ok_inv.
  assert (HT : forall T, WithTheme T RoomAssets ≡ₚ WithTheme T RoomAssets')
    by (intros T; unfold WithTheme; by rewrite Hperm).
  assert (HS : forall Q, WithSpecs Q RoomAssets ≡ₚ WithSpecs Q RoomAssets')
    by (intros Q; unfold WithSpecs; by rewrite Hperm).
  unfold GetMaxWidth, GetMaxLength, GetAssetPaths, FindChecked.
  repeat apply conj.
  - intros T. rewrite !scanned_widths. specialize (HT T).
    destruct (WithTheme T RoomAssets) as [|A Rest] eqn:H1.
    + apply Permutation_nil_l in HT. by rewrite <- HT.
    + destruct (WithTheme T RoomAssets') as [|A' Rest'] eqn:H2.
      * by apply Permutation_nil_r in HT.
      * f_equal. apply foldl_max_Permutation. by rewrite HT.
  - intros T. rewrite !scanned_lengths. specialize (HT T).
    destruct (WithTheme T RoomAssets) as [|A Rest] eqn:H1.
    + apply Permutation_nil_l in HT. by rewrite <- HT.
    + destruct (WithTheme T RoomAssets') as [|A' Rest'] eqn:H2.
      * by apply Permutation_nil_r in HT.
      * f_equal. apply foldl_max_Permutation. by rewrite HT.
  - intros Q. rewrite !DoesAssetExistWithSpecs_unfold, !scanned_paths.
    specialize (HS Q).
    destruct (WithSpecs Q RoomAssets) as [|A Rest] eqn:H1.
    + apply Permutation_nil_l in HS. by rewrite <- HS.
    + destruct (WithSpecs Q RoomAssets') as [|A' Rest'] eqn:H2.
      * by apply Permutation_nil_r in HS.
      * done.
  - intros Q. rewrite !scanned_paths. specialize (HS Q).
    destruct (WithSpecs Q RoomAssets) as [|A Rest] eqn:H1.
    + apply Permutation_nil_l in HS. rewrite <- HS. by left.
    + destruct (WithSpecs Q RoomAssets') as [|A' Rest'] eqn:H2.
      * by apply Permutation_nil_r in HS.
      * right. eexists _, _. split; [done|]. split; [done|]. by rewrite HS.
Qed.

Lemma scan_order_irrelevant_witness :
  exists Db Db',
    InitializeDatabase MixedCatalog = Ok Db /\
    InitializeDatabase (reverse MixedCatalog) = Ok Db' /\
    GetMaxWidth Db Crypt = GetMaxWidth Db' Crypt /\
    GetAssetPaths Db (Specs Crypt 6 2) = Ok ["wide"; "wide2"] /\
    GetAssetPaths Db' (Specs Crypt 6 2) = Ok ["wide2"; "wide"].
Proof.
  destruct (InitializeDatabase MixedCatalog) as [Db|] eqn:HDb; [|discriminate HDb].
  destruct (InitializeDatabase (reverse MixedCatalog)) as [Db'|] eqn:HDb';
    [|discriminate HDb'].
  pose proof (scan_order_irrelevant MixedCatalog (reverse MixedCatalog) Db Db'
                (symmetry (reverse_Permutation _)) HDb HDb') as (Hw & _ & _ & _).
  exists Db, Db'. split; [done|]. split; [done|]. split; [apply Hw|].
  vm_compute in HDb, HDb'. injection HDb as <-. injection HDb' as <-.
  split; reflexivity.
Defined.

(** X17. Scanning more assets only adds: for the database of a scan and
    the database of that scan followed by further assets, the paths of a
    specification in the first are the beginning of its paths in the
    second, the maxima of a theme in the second are at least those in the
    first, and a specification that exists in the first exists in the
    second. *)
Theorem scan_extension (RoomAssets More : list FAssetData)
    (Db Db' : FDungeonRoomDatabase) :
  InitializeDatabase RoomAssets = Ok Db ->
  InitializeDatabase (RoomAssets ++ More) = Ok Db' ->
  (forall Query Paths, GetAssetPaths Db Query = Ok Paths ->
     GetAssetPaths Db' Query
       = Ok (Paths ++ (GetSoftObjectPath <$> WithSpecs Query More))) /\
  (forall T w, GetMaxWidth Db T = Ok w ->
     exists w', GetMaxWidth Db' T = Ok w' /\ w <= w') /\
  (forall T l, GetMaxLength Db T = Ok l ->
     exists l', GetMaxLength Db' T = Ok l' /\ l <= l') /\
  (forall Query, DoesAssetExistWithSpecs Db Query = Ok true ->
     DoesAssetExistWithSpecs Db' Query = Ok true).
Proof.
  intros [_ ->]%InitializeDatabase_Ok_inv [_ ->]%InitializeDatabase_Ok_inv.
  rewrite foldl_app.
  set (Db := foldl AddAssetToDatabase EmptyDatabase RoomAssets).
  unfold GetMaxWidth, GetMaxLength, GetAssetPaths, FindChecked.
  repeat apply conj.
  - intros Q Paths. rewrite m_PathsByRoomSpecs_foldl.
    destruct (m_PathsByRoomSpecs Db !! Q) as [Stored|]; [|done].
    intros [= <-]. unfold Appended. simpl.
    destruct (GetSoftObjectPath <$> WithSpecs Q More); [by rewrite app_nil_r | done].
  - intros T w. rewrite m_MaxWidthByTheme_foldl.
    destruct (m_MaxWidthByTheme Db !! T) as [Stored|]; [|done].
    intros [= <-]. unfold RunningMax. simpl.
    destruct (WidthOf <$> WithTheme T More) as [|x Rest] eqn:Hsizes.
    + exists Stored. split; [done | lia].
    + eexists. split; [done|]. exact (proj1 (foldl_max_bounds (x :: Rest) Stored)).
  - intros T l. rewrite m_MaxLengthByTheme_foldl.
    destruct (m_MaxLengthByTheme Db !! T) as [Stored|]; [|done].
    intros [= <-]. unfold RunningMax. simpl.
    destruct (LengthOf <$> WithTheme T More) as [|x Rest] eqn:Hsizes.
    + exists Stored. split; [done | lia].
    + eexists. split; [done|]. exact (proj1 (foldl_max_bounds (x :: Rest) Stored)).
  - intros Q. rewrite !DoesAssetExistWithSpecs_unfold.
    destruct ((0 <? _) && (0 <? _)); [|done].
    rewrite m_PathsByRoomSpecs_foldl.
    intros [= [Stored HStored]%bool_decide_eq_true]. rewrite HStored.
    f_equal. apply bool_decide_eq_true. unfold Appended.
    destruct (GetSoftObjectPath <$> WithSpecs Q More); by eexists.
Qed.

Lemma scan_extension_witness :
  exists Db Db',
    InitializeDatabase ExampleCatalog = Ok Db /\
    InitializeDatabase (ExampleCatalog ++ MixedCatalog) = Ok Db' /\
    GetAssetPaths Db (Specs Hall 4 4) = Ok ["c"] /\
    GetAssetPaths Db' (Specs Hall 4 4) = Ok ["c"; "hall"].
Proof.
  destruct (InitializeDatabase ExampleCatalog) as [Db|] eqn:HDb; [|discriminate HDb].
  destruct (InitializeDatabase (ExampleCatalog ++ MixedCatalog)) as [Db'|] eqn:HDb';
    [|discriminate HDb'].
  pose proof (scan_extension ExampleCatalog MixedCatalog Db Db' HDb HDb')
    as (Hpaths & _).
  assert (Hc : GetAssetPaths Db (Specs Hall 4 4) = Ok ["c"]).
  { vm_compute in HDb. injection HDb as <-. reflexivity. }
  exists Db, Db'. split; [done|]. split; [done|]. split; [exact Hc|].
  exact (Hpaths _ _ Hc).
Defined.

(** ** Dungeons *)

(** X18. Rooms added to a dungeon are kept in the order of the calls,
    after the rooms it already had, and each call attaches its room to
    the root component of the dungeon. Earlier rooms are never removed or
    reordered, and a room added again is listed again. A null room is
    dereferenced. *)
Theorem AddRooms_outcome (Rooms : list ADungeonRoomPtr) :
  forall (Dungeon : ADungeon) (Scene : list FAttachment),
    (0%N ∉ Rooms ->
     AddRooms Rooms Dungeon Scene =
       Some ({| m_RootComponent := m_RootComponent Dungeon;
                m_RoomsArray := m_RoomsArray Dungeon ++ Rooms |},
             Scene ++ ((fun Room => {| AttachedActor := Room;
                                       AttachParent := m_RootComponent Dungeon |})
                         <$> Rooms))) /\
    (0%N ∈ Rooms -> AddRooms Rooms Dungeon Scene = None).
Proof.
  induction Rooms as [|Room Rest IH]; intros Dungeon Scene.
  - split; [|by intros ?%elem_of_nil]. intros _. simpl.
    rewrite !app_nil_r. by destruct Dungeon.
  - simpl. unfold AddRoom. destruct (decide (Room = 0%N)) as [->|Hne].
    + split; [|done]. intros Hnotin. destruct Hnotin. by left.
    + simpl. split.
      * intros [_ Hrest]%not_elem_of_cons.
        rewrite (proj1 (IH _ _) Hrest). simpl.
        by rewrite <- !app_assoc.
      * intros [?|Hin]%elem_of_cons; [done|]. by apply IH.
Qed.

Lemma AddRooms_outcome_witness :
  AddRooms [7%N; 9%N; 7%N] (ADungeon_ctor 1%N) [] =
    Some ({| m_RootComponent := 1%N; m_RoomsArray := [7%N; 9%N; 7%N] |},
          [ {| AttachedActor := 7%N; AttachParent := 1%N |};
            {| AttachedActor := 9%N; AttachParent := 1%N |};
            {| AttachedActor := 7%N; AttachParent := 1%N |} ]).
Proof.
  apply (proj1 (AddRooms_outcome [7%N; 9%N; 7%N] (ADungeon_ctor 1%N) [])).
  apply (bool_decide_unpack _). by vm_compute.
Defined.

(** ** The tests of the room *)

(** One call of [CanAddDoorsToWallOfRoom] with its statics already
    initialised, on a room where their two locations are free. *)
Lemma CanAddDoorsToWallOfRoom_kept (SpawnBlueprintAsset : string -> option ADungeonRoom)
    (Seed0 Seed1 : nat) (WallToCheck : EDirection) (Kept : FCanAddDoorsStatics)
    (Room : ADungeonRoom) :
  SpawnBlueprintAsset (CanAdd_RoomAssetPath Kept) = Some Room ->
  m_DoorMeshes Room <> [] ->
  LocationToAddDoor0 Kept <> LocationToAddDoor1 Kept ->
  HasDoorAtLocation Room (LocationToAddDoor0 Kept) = Ok false ->
  HasDoorAtLocation Room (LocationToAddDoor1 Kept) = Ok false ->
  CanAddDoorsToWallOfRoom SpawnBlueprintAsset Seed0 Seed1 WallToCheck (Some Kept)
    = Ok (true, Some Kept).
Proof.
  intros Hspawn Hdoors Hne Hfree0 Hfree1.
  unfold CanAddDoorsToWallOfRoom. rewrite Hspawn.
  destruct (HasDoorAtLocation_Ok_inv _ _ _ Hfree0) as [Hv0 _].
  destruct (HasDoorAtLocation_Ok_inv _ _ _ Hfree1) as [Hv1 _].
  destruct (AddDoor_Ok Seed0 _ Room Hdoors Hfree0) as (Mesh0 & Hin0 & ->). simpl.
  set (Room1 := WithMeshAt Room (LocationToAddDoor0 Kept) Mesh0).
  assert (Hfree1' : HasDoorAtLocation Room1 (LocationToAddDoor1 Kept) = Ok false).
  { unfold Room1. by rewrite HasDoorAtLocation_WithMeshAt_ne. }
  destruct (AddDoor_Ok Seed1 _ Room1 Hdoors Hfree1') as (Mesh1 & Hin1 & ->). simpl.
  rewrite (HasDoorAtLocation_WithMeshAt_ne Room1 (LocationToAddDoor1 Kept)
             (LocationToAddDoor0 Kept));
    [| by apply not_eq_sym | unfold Room1; by rewrite IsValidWallLocation_WithMeshAt].
  assert (Hdoor0 : HasDoorAtLocation Room1 (LocationToAddDoor0 Kept) = Ok true).
  { unfold Room1. rewrite HasDoorAtLocation_WithMeshAt_eq by done.
    by rewrite (proj2 (Contains_elem_of _ _) Hin0). }
  rewrite Hdoor0. simpl.
  rewrite HasDoorAtLocation_WithMeshAt_eq
    by (unfold Room1; by rewrite IsValidWallLocation_WithMeshAt).
  by rewrite (proj2 (Contains_elem_of _ _) Hin1).
Qed.

(** X19. The two locations of [CanAddDoorsToWallOfRoom] are static: the
    first call fixes them, and every later call adds and checks the doors
    on the wall of the first call, whatever wall it is asked to check. So
    [TestAddingDoorsToRoom], whose first call is for the North wall,
    records its four checks as passed on every asset that has two
    door-free segments on the North wall and a door mesh, whatever its
    South, East and West walls are. *)
Theorem TestAddingDoorsToRoom_checks_one_wall
    (SpawnBlueprintAsset : string -> option ADungeonRoom) (Seeds : nat -> nat)
    (This : FAutomationTestBase) (Room : ADungeonRoom) :
  (forall Seed0 Seed1 D D' Kept,
     CanAddDoorsToWallOfRoom SpawnBlueprintAsset Seed0 Seed1 D (Some Kept) =
     CanAddDoorsToWallOfRoom SpawnBlueprintAsset Seed0 Seed1 D' (Some Kept)) /\
  (SpawnBlueprintAsset
     (PathToAssets +:+ "CanAddDoorsToWallOfRoomAsset.CanAddDoorsToWallOfRoomAsset_C")
     = Some Room ->
   m_DoorMeshes Room <> [] ->
   HasDoorAtLocation Room (At_North 0) = Ok false ->
   HasDoorAtLocation Room (At_North 1) = Ok false ->
   exists Kept,
     LocationToAddDoor0 Kept = At_North 0 /\
     LocationToAddDoor1 Kept = At_North 1 /\
     TestAddingDoorsToRoom SpawnBlueprintAsset Seeds This None =
       Ok (This ++
           [("Must be able to add doors to the North wall of a room.", true);
            ("Must be able to add doors to the South wall of a room.", true);
            ("Must be able to add doors to the East wall of room.", true);
            ("Must be able to add doors to the West wall of room.", true)],
           Some Kept)).
Proof.
  split; [done|]. intros Hspawn Hdoors Hfree0 Hfree1.
  set (Kept := {|
    CanAdd_CookedAssetName :=
      "CanAddDoorsToWallOfRoomAsset.CanAddDoorsToWallOfRoomAsset_C";
    CanAdd_RoomAssetPath :=
      PathToAssets +:+ "CanAddDoorsToWallOfRoomAsset.CanAddDoorsToWallOfRoomAsset_C";
    LocationToAddDoor0 := At_North 0;
    LocationToAddDoor1 := At_North 1 |}).
  assert (Hcall : forall Seed0 Seed1 D,
    CanAddDoorsToWallOfRoom SpawnBlueprintAsset Seed0 Seed1 D (Some Kept)
      = Ok (true, Some Kept)).
  { intros Seed0 Seed1 D. by apply (CanAddDoorsToWallOfRoom_kept _ _ _ _ Kept Room). }
  assert (Hfirst : forall Seed0 Seed1,
    CanAddDoorsToWallOfRoom SpawnBlueprintAsset Seed0 Seed1 North None
      = Ok (true, Some Kept)).
  { intros Seed0 Seed1. exact (Hcall Seed0 Seed1 North). }
  exists Kept. split; [done|]. split; [done|].
  unfold TestAddingDoorsToRoom. rewrite Hfirst. simpl.
  rewrite Hcall. simpl. rewrite Hcall. simpl. rewrite Hcall. simpl.
  by rewrite <- !app_assoc.
Qed.

(** An asset with two segments on the North wall and none elsewhere. *)
Lemma TestAddingDoorsToRoom_checks_one_wall_witness :
  let Asset := {|
    m_DoorMeshes := [SM_Door]; m_WallMeshes := [SM_Wall];
    m_NorthWall := Segments 2 SM_Wall; m_WestWall := CreateWall;
    m_EastWall := CreateWall; m_SouthWall := CreateWall;
    m_Theme := 0%N; m_Width := 2; m_Length := 0 |} in
  (exists Kept,
     TestAddingDoorsToRoom (fun _ => Some Asset) (fun n => n) [] None =
       Ok ([("Must be able to add doors to the North wall of a room.", true);
            ("Must be able to add doors to the South wall of a room.", true);
            ("Must be able to add doors to the East wall of room.", true);
            ("Must be able to add doors to the West wall of room.", true)],
           Some Kept)) /\
  CanAddDoorsToWallOfRoom (fun _ => Some Asset) 0 1 South None = Err InvalidLocation.
Proof.
  intros Asset. split; [|reflexivity].
  destruct (proj2 (TestAddingDoorsToRoom_checks_one_wall
                     (fun _ => Some Asset) (fun n => n) [] Asset))
    as (Kept & _ & _ & Hrun); [reflexivity | done | reflexivity | reflexivity |].
  exists Kept. exact Hrun.
Defined.

Lemma CanRemoveDoorsFromWallOfRoom_passes
    (SpawnBlueprintAsset : string -> option ADungeonRoom)
    (Seed0 Seed1 : nat) (WallToCheck : EDirection) (Room : ADungeonRoom) :
  SpawnBlueprintAsset
    (PathToAssets +:+
       "CanRemoveDoorsFromWallOfRoomAsset.CanRemoveDoorsFromWallOfRoomAsset_C")
    = Some Room ->
  m_WallMeshes Room <> [] ->
  PalettesDisjoint Room ->
  HasDoorAtLocation Room {| WallDirection := WallToCheck; SegmentIndex := 0 |} = Ok true ->
  HasDoorAtLocation Room {| WallDirection := WallToCheck; SegmentIndex := 1 |} = Ok true ->
  CanRemoveDoorsFromWallOfRoom SpawnBlueprintAsset Seed0 Seed1 WallToCheck
    = Some (Ok true).
Proof.
  intros Hspawn Hwalls Hdisj Hdoor0 Hdoor1.
  unfold CanRemoveDoorsFromWallOfRoom. rewrite Hspawn. f_equal.
  set (L0 := {| WallDirection := WallToCheck; SegmentIndex := 0 |}) in *.
  set (L1 := {| WallDirection := WallToCheck; SegmentIndex := 1 |}) in *.
  assert (Hne : L0 <> L1) by (by intros [=]).
  destruct (HasDoorAtLocation_Ok_inv _ _ _ Hdoor0) as [Hv0 _].
  destruct (HasDoorAtLocation_Ok_inv _ _ _ Hdoor1) as [Hv1 _].
  destruct (RemoveDoor_Ok Seed0 L0 Room Hwalls Hdoor0) as (Mesh0 & Hin0 & ->). simpl.
  set (Room1 := WithMeshAt Room L0 Mesh0).
  assert (Hdoor1' : HasDoorAtLocation Room1 L1 = Ok true).
  { unfold Room1. by rewrite HasDoorAtLocation_WithMeshAt_ne. }
  destruct (RemoveDoor_Ok Seed1 L1 Room1 Hwalls Hdoor1') as (Mesh1 & Hin1 & ->). simpl.
  rewrite (HasDoorAtLocation_WithMeshAt_ne Room1 L1 L0);
    [| by apply not_eq_sym | unfold Room1; by rewrite IsValidWallLocation_WithMeshAt].
  assert (Hgone0 : HasDoorAtLocation Room1 L0 = Ok false).
  { unfold Room1. rewrite HasDoorAtLocation_WithMeshAt_eq by done.
    by rewrite (proj2 (Contains_false _ _) (Hdisj Mesh0 Hin0)). }
  rewrite Hgone0. simpl.
  rewrite HasDoorAtLocation_WithMeshAt_eq
    by (unfold Room1; by rewrite IsValidWallLocation_WithMeshAt).
  assert (Hgone1 : Contains (m_DoorMeshes Room1) Mesh1 = false).
  { apply Contains_false. exact (Hdisj Mesh1 Hin1). }
  by rewrite Hgone1.
Qed.

(** X20. [TestRemovingDoorsFromRoom] records its four checks as passed
    on every asset that has doors at indices 0 and 1 of all four walls, a
    wall mesh, and no mesh in both palettes. When the asset cannot be
    spawned it dereferences the null pointer, where
    [TestAddingDoorsToRoom] records four failed checks. *)
Theorem TestRemovingDoorsFromRoom_outcome
    (SpawnBlueprintAsset : string -> option ADungeonRoom) (Seeds : nat -> nat)
    (This : FAutomationTestBase) :
  (forall Room,
     SpawnBlueprintAsset
       (PathToAssets +:+
          "CanRemoveDoorsFromWallOfRoomAsset.CanRemoveDoorsFromWallOfRoomAsset_C")
       = Some Room ->
     m_WallMeshes Room <> [] ->
     PalettesDisjoint Room ->
     (forall D,
        HasDoorAtLocation Room {| WallDirection := D; SegmentIndex := 0 |} = Ok true /\
        HasDoorAtLocation Room {| WallDirection := D; SegmentIndex := 1 |} = Ok true) ->
     TestRemovingDoorsFromRoom SpawnBlueprintAsset Seeds This =
       Some (Ok (This ++
         [("Must be able to remove doors from the North wall of a room.", true);
          ("Must be able to remove doors from the South wall of a room.", true);
          ("Must be able to remove doors from the East wall of a room.", true);
          ("Must be able to remove doors from the West wall of a room.", true)]))) /\
  ((forall Path, SpawnBlueprintAsset Path = None) ->
     TestRemovingDoorsFromRoom SpawnBlueprintAsset Seeds This = None /\
     exists Kept,
       TestAddingDoorsToRoom SpawnBlueprintAsset Seeds This None =
         Ok (This ++
           [("Must be able to add doors to the North wall of a room.", false);
            ("Must be able to add doors to the South wall of a room.", false);
            ("Must be able to add doors to the East wall of room.", false);
            ("Must be able to add doors to the West wall of room.", false)],
           Some Kept)).
Proof.
  split.
  - intros Room Hspawn Hwalls Hdisj Hdoors.
    unfold TestRemovingDoorsFromRoom.
    rewrite !(CanRemoveDoorsFromWallOfRoom_passes _ _ _ _ Room)
      by (done || apply Hdoors).
    simpl. by rewrite <- !app_assoc.
  - intros Hnone. split.
    + unfold TestRemovingDoorsFromRoom, CanRemoveDoorsFromWallOfRoom.
      by rewrite Hnone.
    + unfold TestAddingDoorsToRoom, CanAddDoorsToWallOfRoom.
      repeat (rewrite Hnone; simpl). eexists. by rewrite <- !app_assoc.
Qed.

Lemma TestRemovingDoorsFromRoom_outcome_witness :
  TestRemovingDoorsFromRoom
    (fun _ => Some (UniformRoom [SM_Door] [SM_Wall] 2 2 SM_Door)) (fun n => n) [] =
    Some (Ok
      [("Must be able to remove doors from the North wall of a room.", true);
       ("Must be able to remove doors from the South wall of a room.", true);
       ("Must be able to remove doors from the East wall of a room.", true);
       ("Must be able to remove doors from the West wall of a room.", true)]).
Proof.
  apply (proj1 (TestRemovingDoorsFromRoom_outcome
                  (fun _ => Some (UniformRoom [SM_Door] [SM_Wall] 2 2 SM_Door))
                  (fun n => n) []) (UniformRoom [SM_Door] [SM_Wall] 2 2 SM_Door)).
  - reflexivity.
  - done.
  - intros Mesh ->%list_elem_of_singleton [?|[]%elem_of_nil]%elem_of_cons. done.
  - intros []; split; reflexivity.
Defined.
